(** * Multi-region migration scripts: a shallow embedding

    The repository is a set of run-once Python scripts that drive a cloud
    provider (object storage and a key-value table service).  The scripts
    share no runtime; they hand identifiers to one another through flat
    [key=value] text files.

    Modelling choices.
    - Python [str] is [string]; [str.split], [str.startswith] and
      [str.replace] are written out below.
    - A Python [dict] used as a map is a [gmap]; [set(d.keys())] is a [gset].
    - Every provider call is an oracle: it returns, raises the provider's
      [ClientError] (with its error code or text), or raises some other
      exception.  What each script does with the three outcomes is taken
      from its [try]/[except] clauses.
    - Mutable statistics are threaded explicitly through the calls.
    - The thread pool of the bulk migration is a schedule: an
      interleaving of the copy calls of its tasks, each call acting on
      the statistics under the lock.  Properties of a run hold for every
      schedule.
    - Files are opened in text mode: what is read is what was written
      after the translation of line endings.
    - Building a client or a resource contacts nothing, but the library
      checks the region name and may raise.  Where the calls made through
      the client have the same handler as its construction, the
      construction is part of the provider oracle of those calls;
      elsewhere it is an oracle of its own ([client_builder]).
    - Clock readings are parameters; what a script only prints is left
      out unless a property is about it. *)

From Stdlib Require Import ZArith String Ascii List Lia Permutation SpecFloat.
From Stdlib Require Import DecimalString DecimalNat.
From stdpp Require Import base gmap strings list.

#[local] Arguments String.append !_ _ / : simpl nomatch.
#[local] Set Warnings "-register-all,-clear-no-such-hyp".

Open Scope string_scope.
Open Scope list_scope.
Open Scope Z_scope.

(** ** Python string operations used by the scripts *)

Module PyStr.

(** The line feed, ['\n']. *)
Definition LF : ascii := "010"%char.
(** The equals sign, ['=']. *)
Definition EQ : ascii := "="%char.

Definition nl : string := String LF EmptyString.

(** [c in s] for a one-character [c]. *)
Fixpoint has_char (c : ascii) (s : string) : bool :=
  match s with
  | EmptyString => false
  | String a s' => if Ascii.eqb a c then true else has_char c s'
  end.

(** [s.startswith(p)]. *)
Fixpoint startswith (s p : string) {struct p} : bool :=
  match p with
  | EmptyString => true
  | String a p' =>
      match s with
      | EmptyString => false
      | String b s' => if Ascii.eqb a b then startswith s' p' else false
      end
  end.

(** [s.split(sep)] for a one-character separator: the list of the maximal
    separator-free pieces, in order; never empty. *)
Fixpoint split (sep : ascii) (s : string) : list string :=
  match s with
  | EmptyString => [EmptyString]
  | String a s' =>
      if Ascii.eqb a sep then EmptyString :: split sep s'
      else match split sep s' with
           | [] => [String a EmptyString]
           | piece :: rest => String a piece :: rest
           end
  end.

(** The text of [s] before its first [sep] (all of [s] when it has none). *)
Fixpoint before (sep : ascii) (s : string) : string :=
  match s with
  | EmptyString => EmptyString
  | String a s' => if Ascii.eqb a sep then EmptyString else String a (before sep s')
  end.

(** [s.replace(old, new)] for a non-empty [old]: scanning left to right,
    every non-overlapping occurrence of [old] is replaced by [new].
    [skip] counts the characters of a matched occurrence still to drop. *)
Fixpoint replace_from (old new : string) (skip : nat) (s : string) : string :=
  match s with
  | EmptyString => EmptyString
  | String a s' =>
      match skip with
      | S k => replace_from old new k s'
      | O =>
          if startswith s old
          then new +:+ replace_from old new (Nat.pred (String.length old)) s'
          else String a (replace_from old new O s')
      end
  end.

Definition replace (s old new : string) : string := replace_from old new O s.

Fixpoint concat_all (l : list string) : string :=
  match l with
  | [] => EmptyString
  | s :: r => s +:+ concat_all r
  end.

(** [p in s]: [p] occurs in [s]. *)
Fixpoint contains (s p : string) : bool :=
  startswith s p ||
  match s with
  | EmptyString => false
  | String _ s' => contains s' p
  end.

End PyStr.

(** ** Files opened in text mode *)

(** The scripts exchange their values through files they open with
    [open(name, 'w')] and [open(name, 'r')], i.e. in text mode with the
    default [newline=None].  Writing turns every line feed into the line
    separator of the platform; reading turns every line ending, whether
    carriage return and line feed, carriage return alone or line feed, into
    a line feed.  The encoding is the same on both sides and is left
    out. *)
Module TextFile.
Import PyStr.

(** The carriage return, ['\r']. *)
Definition CR : ascii := "013"%char.

Inductive platform : Type :=
| Posix
| Windows.

(** [os.linesep] *)
Definition linesep (p : platform) : string :=
  match p with
  | Posix => String LF EmptyString
  | Windows => String CR (String LF EmptyString)
  end.

(** What [f.write(text)] puts into the file. *)
Fixpoint write_text (p : platform) (text : string) : string :=
  match text with
  | EmptyString => EmptyString
  | String a rest =>
      if Ascii.eqb a LF then linesep p +:+ write_text p rest
      else String a (write_text p rest)
  end.

(** What [f.read()] returns for the content of a file. *)
Fixpoint read_text (content : string) : string :=
  match content with
  | EmptyString => EmptyString
  | String a rest =>
      if Ascii.eqb a CR
      then match rest with
           | String b rest' =>
               if Ascii.eqb b LF then String LF (read_text rest')
               else String LF (read_text rest)
           | EmptyString => String LF EmptyString
           end
      else String a (read_text rest)
  end.

End TextFile.

(** ** Results of Python calls *)

(** The exceptions the scripts can meet.  [ClientError] carries the error
    code ([e.response['Error']['Code']]) and the text [str(e)]. *)
Inductive exn : Type :=
| ClientError (code : string) (text : string)
| IndexError
| UnboundName (name : string)
| OtherException (text : string).

(** A call either returns a value or raises. *)
Inductive outcome (A : Type) : Type :=
| Ret (a : A)
| Raise (e : exn).
Arguments Ret {A} a.
Arguments Raise {A} e.

(** Sequencing: an exception raised by the first call skips the rest.
    With these instances stdpp's [x ← m; k] is Python's statement
    sequencing. *)
#[global] Instance outcome_ret : MRet outcome := fun A a => Ret a.
#[global] Instance outcome_bind : MBind outcome := fun A B k m =>
  match m with
  | Ret a => k a
  | Raise e => Raise e
  end.

(** Reading a local variable or attribute that may not have been assigned. *)
Definition read_var (name : string) (v : option string) : outcome string :=
  match v with
  | Some s => Ret s
  | None => Raise (UnboundName name)
  end.

(** [boto3.client(service, region_name=region)]: it returns, or raises
    because of the region name. *)
Definition client_builder : Type := string -> string -> outcome unit.

(** The client is built. *)
Definition builds (r : outcome unit) : bool :=
  match r with
  | Ret _ => true
  | Raise _ => false
  end.

(** ** The [key=value] configuration files *)

Record target_config : Type := TargetConfig {
  tc_bucket : string;   (* ["bucket"], or ["table"] for the table service *)
  tc_region : string
}.

Module Config.
Import PyStr.

(** The two names a parsing loop may assign. *)
Record vars : Type := Vars {
  v_first : option string;    (* source_bucket / source_table *)
  v_second : option string    (* source_region *)
}.

Definition unset : vars := Vars None None.

(** [line.split('=')[1]]. *)
Definition split_eq_1 (line : string) : outcome string :=
  match split EQ line !! 1%nat with
  | Some v => Ret v
  | None => Raise IndexError
  end.

(** One iteration of
    [if line.startswith(k1): a = line.split('=')[1]
     elif line.startswith(k2): b = line.split('=')[1]]. *)
Definition parse_line (k1 k2 : string) (st : vars) (line : string) : outcome vars :=
  if startswith line k1 then
    v ← split_eq_1 line; Ret (Vars (Some v) (v_second st))
  else if startswith line k2 then
    v ← split_eq_1 line; Ret (Vars (v_first st) (Some v))
  else Ret st.

Fixpoint parse_lines (k1 k2 : string) (st : vars) (lines : list string) : outcome vars :=
  match lines with
  | [] => Ret st
  | line :: rest =>
      st' ← parse_line k1 k2 st line; parse_lines k1 k2 st' rest
  end.

(** [for line in content.split('\n'): ...] *)
Definition parse (k1 k2 : string) (content : string) : outcome vars :=
  parse_lines k1 k2 unset (split LF content).

(** The loop of the bulk-migration script's [main]
    (scripts/migration/s3-bulk-migration.py, lines 201-205); the loops of
    the replication-setup script and of the validator's
    [load_configuration] are the same text. *)
Definition parse_bucket_info : string -> outcome vars :=
  parse "SOURCE_BUCKET=" "SOURCE_REGION=".

(** The loop of the stream-sync script's [main]
    (scripts/migration/dynamodb-stream-sync.py, lines 168-172). *)
Definition parse_dynamodb_info : string -> outcome vars :=
  parse "SOURCE_TABLE=" "SOURCE_REGION=".

(** The validator reads only [SOURCE_TABLE=] from dynamodb-info.txt; a
    single [if] is the two-branch loop with a second key equal to the
    first, whose [elif] can never fire. *)
Definition parse_dynamodb_table_only : string -> outcome vars :=
  parse "SOURCE_TABLE=" "SOURCE_TABLE=".

(** A bucket-info.txt with a value that contains ['=']. *)
Definition file_with_equals : string :=
  "SOURCE_BUCKET=a=b" +:+ nl +:+ "SOURCE_REGION=us-east-1" +:+ nl.

(** A bucket-info.txt as the set-up writes it. *)
Definition file_plain : string :=
  "SOURCE_BUCKET=migration-demo-source-36714" +:+ nl +:+
  "SOURCE_REGION=us-east-1" +:+ nl.

End Config.

(** ** scripts/setup/create-dynamodb-python.py: the save step of [main] *)

Module CreateTables.
Import PyStr.

Definition project_name : string := "migration-demo".
Definition source_region : string := "us-east-1".
Definition target_regions : list string := ["us-west-2"; "eu-west-1"].

(** [f"{project_name}-user-data"] *)
Definition source_table : string := project_name +:+ "-user-data".

(** The text written to dynamodb-info.txt (lines 95-101), as a function of
    the two values it interpolates on its first two lines. *)
Definition save_table_info (table region : string) : string :=
  ("SOURCE_TABLE=" +:+ table +:+ nl) +:+
  ("SOURCE_REGION=" +:+ region +:+ nl) +:+
  ("TARGET_TABLES=(" +:+ nl) +:+
  concat_all (map (fun r => "    " +:+ project_name +:+ "-target-" +:+ r +:+ "-user-data" +:+ nl)
                  target_regions) +:+
  (")" +:+ nl).

Definition main_saved_file : string := save_table_info source_table source_region.

End CreateTables.

(** ** scripts/migration/dynamodb-stream-sync.py: configuration of [main] *)

Module StreamSyncMain.

Definition target_configs : list target_config :=
  [ TargetConfig "migration-demo-target-us-west-2-user-data" "us-west-2";
    TargetConfig "migration-demo-target-eu-west-1-user-data" "eu-west-1" ].

(** Lines 164-187: the names [source_table] and [source_region] as they are
    bound when the [try] block ends. *)
Definition load (content : string) : outcome Config.vars :=
  Config.parse_dynamodb_info content.

End StreamSyncMain.

(** ** scripts/migration/setup-s3-replication.py: configuration of [main] *)

Module ReplicationMain.

(** Lines 171-180. *)
Definition target_configs (source_bucket : string) : list target_config :=
  [ TargetConfig (PyStr.replace source_bucket "source" "target-us-west-2") "us-west-2";
    TargetConfig (PyStr.replace source_bucket "source" "target-eu-west-1") "eu-west-1" ].

(** Lines 161-184: the source bucket and the targets; an exception makes
    [main] return [False]. *)
Definition load (content : string) : outcome (string * list target_config) :=
  vs ← Config.parse_bucket_info content;
  source_bucket ← read_var "source_bucket" (Config.v_first vs);
  Ret (source_bucket, target_configs source_bucket).

End ReplicationMain.

(** ** The object store's paginated listing ([list_objects_v2]) *)

(** An entry of a listing page's ['Contents']. *)
Record s3_object : Type := S3Object {
  Key : string;
  Size : Z;
  LastModified : string;
  ETag : string
}.

(** What iterating a paginator delivers: pages, with or without a
    ['Contents'] entry, until it is exhausted or a call raises. *)
Inductive page_event : Type :=
| Page (contents : option (list s3_object))
| PageRaises (e : exn).

(** ** scripts/migration/s3-bulk-migration.py *)

Module BulkMigration.

(** Lines 208-217 of [main]. *)
Definition target_configs (source_bucket : string) : list target_config :=
  [ TargetConfig (PyStr.replace source_bucket "source" "target-us-west-2") "us-west-2";
    TargetConfig (PyStr.replace source_bucket "source" "target-eu-west-1") "eu-west-1" ].

(** Lines 196-225 of [main]: the [print] of line 219 reads [source_region]
    inside the [try], so a missing region also ends in [return False]. *)
Definition load (content : string) : outcome (string * string * list target_config) :=
  vs ← Config.parse_bucket_info content;
  source_bucket ← read_var "source_bucket" (Config.v_first vs);
  source_region ← read_var "source_region" (Config.v_second vs);
  Ret (source_bucket, source_region, target_configs source_bucket).

(** The dict [list_all_objects] builds for each entry. *)
Record obj_info : Type := ObjInfo {
  key : string;
  size : Z;
  last_modified : string;
  etag : string
}.

Definition obj_info_of (o : s3_object) : obj_info :=
  ObjInfo (Key o) (Size o) (LastModified o) (ETag o).

(** [self.stats] (without [start_time], a wall-clock reading). *)
Record stats : Type := Stats {
  total_objects : nat;
  successful_copies : Z;
  failed_copies : Z;
  bytes_transferred : Z;
  errors : list string
}.

(** The statistics of [__init__]. *)
Definition init_stats : stats := Stats 0 0 0 0 [].

(** The migrator's mutable state: its statistics, and the record of the
    [copy_object_to_target] calls entered so far, oldest first. *)
Record state : Type := State {
  st_stats : stats;
  st_calls : list (obj_info * target_config)
}.

Definition init_state : state := State init_stats [].

(** The provider as [copy_object_to_target] sees it: for an object and a
    target, the body of the [try] (client construction, [head_object],
    [copy_object]) runs to its end or raises. *)
Definition provider : Type := obj_info -> target_config -> outcome unit.

(** The pages of [list_all_objects], lines 48-56. *)
Fixpoint collect_pages (events : list page_event) (objects : list obj_info)
  : outcome (list obj_info) :=
  match events with
  | [] => Ret objects
  | Page None :: rest => collect_pages rest objects
  | Page (Some contents) :: rest =>
      collect_pages rest (objects ++ map obj_info_of contents)
  | PageRaises e :: _ => Raise e
  end.

(** [list_all_objects], lines 41-64. *)
Definition list_all_objects (events : list page_event) (st : state)
  : outcome (list obj_info) * state :=
  match collect_pages events [] with
  | Ret objects =>
      let s := st_stats st in
      (Ret objects,
       State (Stats (length objects) (successful_copies s) (failed_copies s)
                    (bytes_transferred s) (errors s))
             (st_calls st))
  | Raise (ClientError _ _) => (Ret [], st)
  | Raise e => (Raise e, st)
  end.

Definition error_msg (obj : obj_info) (tc : target_config) (text : string) : string :=
  "Failed to copy " +:+ key obj +:+ " to " +:+ tc_bucket tc +:+ ": " +:+ text.

(** [copy_object_to_target], lines 66-112. *)
Definition copy_object_to_target (prov : provider)
    (obj : obj_info) (tc : target_config) (st : state) : outcome bool * state :=
  let s := st_stats st in
  let calls := st_calls st ++ [(obj, tc)] in
  match prov obj tc with
  | Ret _ =>
      (Ret true,
       State (Stats (total_objects s) (successful_copies s + 1) (failed_copies s)
                    (bytes_transferred s + size obj) (errors s))
             calls)
  | Raise (ClientError _ text) =>
      (Ret false,
       State (Stats (total_objects s) (successful_copies s) (failed_copies s + 1)
                    (bytes_transferred s) (errors s ++ [error_msg obj tc text]))
             calls)
  | Raise e => (Raise e, State s calls)
  end.

(** The loop of [migrate_object_to_all_targets], lines 116-119. *)
Fixpoint migrate_loop (prov : provider) (obj : obj_info)
    (targets : list target_config) (results : list bool) (st : state)
  : outcome (list bool) * state :=
  match targets with
  | [] => (Ret results, st)
  | tc :: rest =>
      match copy_object_to_target prov obj tc st with
      | (Ret success, st') => migrate_loop prov obj rest (results ++ [success]) st'
      | (Raise e, st') => (Raise e, st')
      end
  end.

(** Python's [all]. *)
Definition all (results : list bool) : bool := forallb (fun b => b) results.

(** [migrate_object_to_all_targets], lines 114-120. *)
Definition migrate_object_to_all_targets (prov : provider)
    (targets : list target_config) (obj : obj_info) (st : state)
  : outcome bool * state :=
  match migrate_loop prov obj targets [] st with
  | (Ret results, st') => (Ret (all results), st')
  | (Raise e, st') => (Raise e, st')
  end.

(** The tasks of the pool that have not ended: each is an object and the
    targets its [migrate_object_to_all_targets] has still to copy to. *)
Definition pool : Type := list (obj_info * list target_config).

(** The tasks submitted for a listing (lines 135-138). *)
Definition submitted (targets : list target_config) (objects : list obj_info) : pool :=
  map (fun obj => (obj, targets)) objects.

(** Taking the task at position [i] out of the pending ones. *)
Fixpoint pick (i : nat) (pending : pool) {struct pending}
  : option (pool * (obj_info * list target_config) * pool) :=
  match pending with
  | [] => None
  | task :: rest =>
      match i with
      | O => Some ([], task, rest)
      | S j =>
          match pick j rest with
          | Some (before, chosen, after) => Some (task :: before, chosen, after)
          | None => None
          end
      end
  end.

(** The pending tasks run to their end one after the other. *)
Fixpoint finish (prov : provider) (pending : pool) (st : state) : state :=
  match pending with
  | [] => st
  | (obj, todo) :: rest =>
      finish prov rest (snd (migrate_object_to_all_targets prov todo obj st))
  end.

(** The pool of [run_migration], lines 134-151.  The workers run their
    tasks at the same time, and each [copy_object_to_target] acts on the
    statistics under the lock: a run of the pool is an interleaving of the
    calls of the tasks, each task keeping its own order, a call counting
    at the moment it takes the lock.  [schedule] names,
    step by step, the pending task whose next call acts (a position that
    names no task is skipped); once it is used up, the tasks left run to
    their end one after the other.  Every such interleaving is the run of
    some schedule; the number of workers only rules some of them out.  A
    task that raises ends there: the exception is reported and otherwise
    ignored ([except Exception], line 150). *)
Fixpoint run_pool (prov : provider) (schedule : list nat) (pending : pool)
    (st : state) : state :=
  match schedule with
  | [] => finish prov pending st
  | i :: later =>
      match pick i pending with
      | None => run_pool prov later pending st
      | Some (before, (obj, todo), after) =>
          match todo with
          | [] => run_pool prov later (before ++ after) st
          | tc :: rest =>
              match copy_object_to_target prov obj tc st with
              | (Ret _, st') => run_pool prov later (before ++ (obj, rest) :: after) st'
              | (Raise _, st') => run_pool prov later (before ++ after) st'
              end
          end
      end
  end.

(** [run_migration], lines 122-155, for a schedule of the pool. *)
Definition run_migration (events : list page_event) (prov : provider)
    (targets : list target_config) (schedule : list nat) (st : state)
  : outcome bool * state :=
  match list_all_objects events st with
  | (Raise e, st') => (Raise e, st')
  | (Ret [], st') => (Ret false, st')
  | (Ret objects, st') =>
      let st'' := run_pool prov schedule (submitted targets objects) st' in
      (Ret (failed_copies (st_stats st'') =? 0), st'')
  end.

(** An arbitrary sequence of [copy_object_to_target] calls on one
    migrator, whoever makes them: the statistics are updated under the
    lock, so the calls act on them one at a time.  Each call is paired
    with how it ended. *)
Fixpoint call_sequence (prov : provider) (calls : list (obj_info * target_config))
    (st : state) : list (obj_info * outcome bool) * state :=
  match calls with
  | [] => ([], st)
  | (obj, tc) :: rest =>
      let '(r, st') := copy_object_to_target prov obj tc st in
      let '(rs, st'') := call_sequence prov rest st' in
      ((obj, r) :: rs, st'')
  end.

(** The calls of a history that completed, i.e. returned. *)
Definition completed (r : obj_info * outcome bool) : bool :=
  match snd r with Ret _ => true | Raise _ => false end.

(** The calls of a history whose copy succeeded. *)
Definition succeeded (r : obj_info * outcome bool) : bool :=
  match snd r with Ret true => true | _ => false end.

Definition sum_sizes (l : list (obj_info * outcome bool)) : Z :=
  fold_right (fun r acc => size (fst r) + acc) 0 l.

(** The provider call for a target ends inside [copy_object_to_target]:
    its [try] body completes or raises the [ClientError] the function
    catches. *)
Definition settles (o : outcome unit) : bool :=
  match o with
  | Ret _ => true
  | Raise (ClientError _ _) => true
  | Raise _ => false
  end.

(** The copy to a target succeeds. *)
Definition copies (o : outcome unit) : bool :=
  match o with
  | Ret _ => true
  | Raise _ => false
  end.

(** The three counters of the statistics. *)
Definition counters (s : stats) : Z * Z * Z :=
  (successful_copies s, failed_copies s, bytes_transferred s).

(** What one task adds to the counters. *)
Definition task_effect (prov : provider) (targets : list target_config)
    (obj : obj_info) : Z * Z * Z :=
  counters (st_stats (snd (migrate_object_to_all_targets prov targets obj init_state))).

Definition add3 (a b : Z * Z * Z) : Z * Z * Z :=
  (fst (fst a) + fst (fst b), snd (fst a) + snd (fst b), snd a + snd b).

(** What the pending tasks add to the counters when each runs to its
    end. *)
Definition pool_effect (prov : provider) (pending : pool) : Z * Z * Z :=
  fold_right (fun task acc => add3 (task_effect prov (snd task) (fst task)) acc)
             (0, 0, 0) pending.

(** The copies the pending tasks have still to make. *)
Definition pool_calls (pending : pool) : list (obj_info * target_config) :=
  flat_map (fun task => map (fun tc => (fst task, tc)) (snd task)) pending.

End BulkMigration.

(** ** scripts/validation/complete-migration-validation.py *)

Module Validator.

(** Lines 39-49 of [load_configuration]. *)
Definition s3_target_configs (source_bucket : string) : list target_config :=
  [ TargetConfig (PyStr.replace source_bucket "source" "target-us-west-2") "us-west-2";
    TargetConfig (PyStr.replace source_bucket "source" "target-eu-west-1") "eu-west-1" ].

(** Lines 50-59 of [load_configuration]. *)
Definition dynamodb_target_configs : list target_config :=
  [ TargetConfig "migration-demo-target-us-west-2-user-data" "us-west-2";
    TargetConfig "migration-demo-target-eu-west-1-user-data" "eu-west-1" ].

(** The attributes [load_configuration] may leave on the validator. *)
Record config : Type := ValidatorConfig {
  source_bucket : string;
  source_region : option string;
  source_table : option string;
  s3_targets : list target_config;
  dynamodb_targets : list target_config
}.

(** [load_configuration], lines 18-66, on the contents of bucket-info.txt
    and dynamodb-info.txt; [None] is the [return False] of the handler. *)
Definition load_configuration (bucket_info dynamodb_info : string) : option config :=
  match
    (vs ← Config.parse_bucket_info bucket_info;
     ts ← Config.parse_dynamodb_table_only dynamodb_info;
     b ← read_var "source_bucket" (Config.v_first vs);
     Ret (ValidatorConfig b (Config.v_second vs) (Config.v_first ts)
                          (s3_target_configs b) dynamodb_target_configs))
  with
  | Ret c => Some c
  | Raise _ => None
  end.

(** The value [_get_bucket_objects] stores under each key. *)
Record object_meta : Type := ObjectMeta {
  om_size : Z;
  om_modified : string
}.

Definition add_object (objects : gmap string object_meta) (o : s3_object)
  : gmap string object_meta :=
  <[Key o := ObjectMeta (Size o) (LastModified o)]> objects.

(** [_get_bucket_objects], lines 210-225: the handler catches every
    exception, so the keys gathered before a failure are returned. *)
Fixpoint _get_bucket_objects (events : list page_event)
    (objects : gmap string object_meta) : gmap string object_meta :=
  match events with
  | [] => objects
  | Page None :: rest => _get_bucket_objects rest objects
  | Page (Some contents) :: rest =>
      _get_bucket_objects rest (foldl add_object objects contents)
  | PageRaises _ :: _ => objects
  end.

(** The object store as the validator sees it: what paginating the
    listing of a bucket delivers to a client of a region. *)
Definition s3_provider : Type := string -> string -> list page_event.

(** The entry written for a target (lines 89-93). *)
Record target_report : Type := TargetReport {
  tr_count : nat;
  tr_missing : nat;
  tr_status : string
}.

(** [self.results['s3_bulk_migration']]; an absent ['targets'] is read as
    the empty dict (line 242), so it is the empty map here. *)
Record s3_results : Type := S3Results {
  s3_source_count : option nat;
  s3_targets_report : gmap string target_report;
  s3_status : string
}.

(** Lines 83-93: the report of one target. *)
Definition check_target (s3 : s3_provider)
    (source_objects : gmap string object_meta) (target : target_config) : target_report :=
  let target_objects := _get_bucket_objects (s3 (tc_region target) (tc_bucket target)) ∅ in
  let target_count := size target_objects in
  let missing_objects : gset string := dom source_objects ∖ dom target_objects in
  TargetReport target_count (size missing_objects)
               (if Nat.eqb (size missing_objects) 0 then "COMPLETE" else "INCOMPLETE").

(** The loop of lines 82-99.  Each round builds the client of the
    target's region first; an exception there ends the loop with the
    report as the earlier rounds left it. *)
Fixpoint check_targets (client : client_builder) (s3 : s3_provider)
    (source_objects : gmap string object_meta)
    (targets : list target_config)
    (report : gmap string target_report) (all_targets_valid : bool)
  : gmap string target_report * outcome bool :=
  match targets with
  | [] => (report, Ret all_targets_valid)
  | target :: rest =>
      match client "s3" (tc_region target) with
      | Raise e => (report, Raise e)
      | Ret _ =>
          let r := check_target s3 source_objects target in
          check_targets client s3 source_objects rest
            (<[tc_bucket target := r]> report)
            (if Nat.ltb 0 (tr_missing r) then false else all_targets_valid)
      end
  end.

(** [validate_s3_bulk_migration], lines 68-107.  Everything is inside the
    [try]: reading an attribute that [load_configuration] never set,
    building the source client, and the loop over the targets.  What was
    stored in the results before the exception stays there. *)
Definition validate_s3_bulk_migration (client : client_builder) (s3 : s3_provider)
    (c : config) : s3_results * bool :=
  match source_region c with
  | None => (S3Results None ∅ "ERROR", false)
  | Some region =>
      match client "s3" region with
      | Raise _ => (S3Results None ∅ "ERROR", false)
      | Ret _ =>
          let source_objects := _get_bucket_objects (s3 region (source_bucket c)) ∅ in
          match check_targets client s3 source_objects (s3_targets c) ∅ true with
          | (report, Ret all_targets_valid) =>
              (S3Results (Some (size source_objects)) report
                         (if all_targets_valid then "COMPLETE" else "INCOMPLETE"),
               all_targets_valid)
          | (report, Raise _) =>
              (S3Results (Some (size source_objects)) report "ERROR", false)
          end
      end
  end.

(** The table service as the validator sees it: the first page of a
    [scan] of a table in a region, or the exception it raises. *)
Definition dynamodb_provider (Item : Type) : Type :=
  string -> string -> outcome (list Item).

Record table_report : Type := TableReport {
  tb_count : nat;
  tb_status : string
}.

Record dynamodb_results : Type := DynamoResults {
  db_source_count : option nat;
  db_targets_report : gmap string table_report;
  db_status : string
}.

(** The loop of lines 175-200. *)
Fixpoint check_tables {Item} (db : dynamodb_provider Item) (source_count : nat)
    (targets : list target_config)
    (report : gmap string table_report) (all_targets_synced : bool)
  : gmap string table_report * bool :=
  match targets with
  | [] => (report, all_targets_synced)
  | target :: rest =>
      match db (tc_region target) (tc_bucket target) with
      | Ret target_items =>
          let target_count := length target_items in
          let sync_status :=
            if Nat.eqb target_count source_count then "SYNCED" else "OUT_OF_SYNC" in
          check_tables db source_count rest
            (<[tc_bucket target := TableReport target_count sync_status]> report)
            (if String.eqb sync_status "SYNCED" then all_targets_synced else false)
      | Raise _ =>
          check_tables db source_count rest report false
      end
  end.

(** [validate_dynamodb_sync], lines 155-208. *)
Definition validate_dynamodb_sync {Item} (db : dynamodb_provider Item) (c : config)
  : dynamodb_results * bool :=
  match source_region c, source_table c with
  | Some region, Some table =>
      match db region table with
      | Ret source_items =>
          let source_count := length source_items in
          let '(report, all_targets_synced) :=
            check_tables db source_count (dynamodb_targets c) ∅ true in
          (DynamoResults (Some source_count) report
                         (if all_targets_synced then "SYNCED" else "OUT_OF_SYNC"),
           all_targets_synced)
      | Raise _ => (DynamoResults None ∅ "ERROR", false)
      end
  | _, _ => (DynamoResults None ∅ "ERROR", false)
  end.

(** The keys a listing delivers: those of the pages that arrive before
    the first failure. *)
Fixpoint listed_keys (events : list page_event) : list string :=
  match events with
  | [] => []
  | Page None :: rest => listed_keys rest
  | Page (Some contents) :: rest => map Key contents ++ listed_keys rest
  | PageRaises _ :: _ => []
  end.

(** The report says a target bucket is complete. *)
Definition marked_complete (results : s3_results) (target : target_config) : Prop :=
  exists r, s3_targets_report results !! tc_bucket target = Some r /\
            tr_status r = "COMPLETE".

(** The source region is bound and a client can be built for it and for
    the region of every target. *)
Definition clients_build (client : client_builder) (c : config) : bool :=
  match source_region c with
  | Some region =>
      builds (client "s3" region)
      && forallb (fun t => builds (client "s3" (tc_region t))) (s3_targets c)
  | None => false
  end.

(** The report says a target table is synced. *)
Definition marked_synced (results : dynamodb_results) (target : target_config) : Prop :=
  exists r, db_targets_report results !! tc_bucket target = Some r /\
            tb_status r = "SYNCED".

(** The scan of a target returns as many items as the source has. *)
Definition target_synced {Item} (db : dynamodb_provider Item) (source_count : nat)
    (target : target_config) : bool :=
  match db (tc_region target) (tc_bucket target) with
  | Ret target_items => Nat.eqb (length target_items) source_count
  | Raise _ => false
  end.

End Validator.

(** ** scripts/setup/create-dynamodb-python.py: [create_dynamodb_table] *)

Module CreateTable.

(** The calls of the [try] block, lines 10-58: [create_table], then the
    waiter. *)
Record provider : Type := Provider {
  create_table : outcome unit;
  wait_table_exists : outcome unit
}.

Definition try_block (p : provider) : outcome bool :=
  _ ← create_table p;
  _ ← wait_table_exists p;
  Ret true.

(** [create_dynamodb_table], lines 7-69: both handlers return, so the
    function always returns a boolean. *)
Definition create_dynamodb_table (p : provider) : bool :=
  match try_block p with
  | Ret b => b
  | Raise (ClientError code _) =>
      if String.eqb code "ResourceInUseException" then true else false
  | Raise _ => false
  end.

End CreateTable.

(** ** cleanup-resources.py: [delete_all_object_versions] *)

Module Cleanup.

(** What the function prints. *)
Inductive message : Type :=
| DeletedVersion (key version_id : string)
| DeletedMarker (key version_id : string)
| DeletedBucket (bucket : string)
| BucketAlreadyDeleted (bucket : string)
| ErrorDeleting (bucket : string) (text : string).

(** The response of [list_object_versions]: each key may be absent. *)
Record versions_response : Type := VersionsResponse {
  Versions : option (list (string * string));
  DeleteMarkers : option (list (string * string))
}.

Record provider : Type := Provider {
  list_object_versions : outcome versions_response;
  delete_object : string -> string -> outcome unit;
  delete_bucket : outcome unit
}.

(** A [for] loop that deletes each listed version and prints a line. *)
Fixpoint delete_each (p : provider) (mk : string -> string -> message)
    (entries : list (string * string)) (log : list message)
  : outcome unit * list message :=
  match entries with
  | [] => (Ret tt, log)
  | (k, v) :: rest =>
      match delete_object p k v with
      | Ret _ => delete_each p mk rest (log ++ [mk k v])
      | Raise e => (Raise e, log)
      end
  end.

Definition entries_of (o : option (list (string * string))) : list (string * string) :=
  match o with
  | Some l => l
  | None => []
  end.

(** The [try] block, lines 10-36. *)
Definition try_block (p : provider) (bucket_name : string)
  : outcome unit * list message :=
  match list_object_versions p with
  | Raise e => (Raise e, [])
  | Ret response =>
      match delete_each p DeletedVersion (entries_of (Versions response)) [] with
      | (Raise e, log) => (Raise e, log)
      | (Ret _, log) =>
          match delete_each p DeletedMarker (entries_of (DeleteMarkers response)) log with
          | (Raise e, log') => (Raise e, log')
          | (Ret _, log') =>
              match delete_bucket p with
              | Ret _ => (Ret tt, log' ++ [DeletedBucket bucket_name])
              | Raise e => (Raise e, log')
              end
          end
      end
  end.

(** [delete_all_object_versions], lines 6-42. *)
Definition delete_all_object_versions (p : provider) (bucket_name : string)
  : outcome unit * list message :=
  match try_block p bucket_name with
  | (Raise (ClientError code text), log) =>
      if String.eqb code "NoSuchBucket"
      then (Ret tt, log ++ [BucketAlreadyDeleted bucket_name])
      else (Ret tt, log ++ [ErrorDeleting bucket_name text])
  | r => r
  end.

End Cleanup.

(** ** scripts/migration/setup-s3-replication.py: [create_replication_role] *)

Module ReplicationRole.

(** The identity service: each call returns (an ARN where it has one) or
    raises. *)
Record provider : Type := Provider {
  create_role : outcome string;
  attach_role_policy : outcome unit;
  get_role : outcome string
}.

(** The [try] block, lines 33-51. *)
Definition try_block (p : provider) : outcome (option string) :=
  role_arn ← create_role p;
  _ ← attach_role_policy p;
  Ret (Some role_arn).

(** [create_replication_role], lines 14-62; [None] is Python's [None].
    An exception raised inside the handler, by [get_role], leaves the
    function. *)
Definition create_replication_role (p : provider) : outcome (option string) :=
  match try_block p with
  | Raise (ClientError code _) =>
      if String.eqb code "EntityAlreadyExists"
      then role_arn ← get_role p; Ret (Some role_arn)
      else Ret None
  | r => r
  end.

End ReplicationRole.

(** ** scripts/migration/dynamodb-stream-sync.py: [_convert_floats_to_decimal] *)

Module StreamSync.

(** A Python [float]. *)
Definition float : Type := SpecFloat.spec_float.

(** A [decimal.Decimal]: one built as [Decimal(str(x))] from a float, or
    any other, given by its digits and exponent. *)
Inductive Decimal : Type :=
| DecimalOfStr (x : float)
| DecimalLit (negative : bool) (digits : N) (exponent : Z).

(** The values the function is applied to.  The provider's items are
    dicts with string keys whose values are strings, numbers, booleans,
    [None], bytes, lists, dicts and sets; the last branch of the function
    takes every object that is not a dict, a list or a float, containers
    such as tuples and sets included. *)
Inductive value : Type :=
| VDict (entries : list (string * value))
| VList (elems : list value)
| VFloat (x : float)
| VDecimal (d : Decimal)
| VStr (s : string)
| VInt (n : Z)
| VBool (b : bool)
| VNone
| VTuple (elems : list value).

(** [_convert_floats_to_decimal], lines 95-104. *)
Fixpoint _convert_floats_to_decimal (item : value) : value :=
  match item with
  | VDict entries =>
      VDict (map (fun kv => (fst kv, _convert_floats_to_decimal (snd kv))) entries)
  | VList elems => VList (map _convert_floats_to_decimal elems)
  | VFloat x => VDecimal (DecimalOfStr x)
  | other => other
  end.

(** [isinstance(v, float)], [isinstance(v, dict)], [isinstance(v, list)]. *)
Definition is_float (v : value) : bool :=
  match v with VFloat _ => true | _ => false end.
Definition is_dict (v : value) : bool :=
  match v with VDict _ => true | _ => false end.
Definition is_list (v : value) : bool :=
  match v with VList _ => true | _ => false end.

(** A float occurs somewhere in the value, at any depth, inside any
    container. *)
Fixpoint contains_float (v : value) : bool :=
  match v with
  | VDict entries => existsb (fun kv => contains_float (snd kv)) entries
  | VList elems => existsb contains_float elems
  | VTuple elems => existsb contains_float elems
  | VFloat _ => true
  | _ => false
  end.

(** A float occurs at a position reached through dicts and lists only. *)
Fixpoint reachable_float (v : value) : bool :=
  match v with
  | VDict entries => existsb (fun kv => reachable_float (snd kv)) entries
  | VList elems => existsb reachable_float elems
  | VFloat _ => true
  | _ => false
  end.

(** [same_shape v w]: [w] has the dict keys (in order), the list lengths
    and the leaves of [v], except that where [v] has a float [w] has the
    Decimal of its [str]. *)
Fixpoint same_shape (v w : value) {struct v} : Prop :=
  match v, w with
  | VDict es, VDict es' =>
      map fst es = map fst es' /\
      (fix go (l : list (string * value)) (l' : list (string * value)) : Prop :=
         match l, l' with
         | [], [] => True
         | kv :: r, kv' :: r' => same_shape (snd kv) (snd kv') /\ go r r'
         | _, _ => False
         end) es es'
  | VList vs, VList ws =>
      (fix go (l : list value) (l' : list value) : Prop :=
         match l, l' with
         | [], [] => True
         | x :: r, x' :: r' => same_shape x x' /\ go r r'
         | _, _ => False
         end) vs ws
  | VFloat x, w => w = VDecimal (DecimalOfStr x)
  | v, w => v = w
  end.

End StreamSync.

(** ** Python's [str] of an integer, as f-strings use it *)

Module PyFmt.

(** [str(n)] for a natural number: its decimal digits. *)
Definition str_of_nat (n : nat) : string :=
  DecimalString.NilEmpty.string_of_uint (Nat.to_uint n).

(** [str(z)] for an integer. *)
Definition str_of_Z (z : Z) : string :=
  if Z.ltb z 0
  then "-" +:+ DecimalString.NilEmpty.string_of_uint (N.to_uint (Z.to_N (Z.opp z)))
  else DecimalString.NilEmpty.string_of_uint (N.to_uint (Z.to_N z)).

End PyFmt.

(** ** scripts/migration/s3-bulk-migration.py: [main] *)

Module BulkMain.

(** [main], lines 192-236.  [file] is the content of bucket-info.txt, or
    [None] when it cannot be opened; [list_objects region bucket] is what
    paginating the source listing delivers, [copy bucket region] the
    provider as the migrator for that source sees it.  The migrator is
    built after the [try]: its [__init__] builds the source client, and an
    exception there leaves [main]. *)
Definition main (client : client_builder) (file : option string)
    (list_objects : string -> string -> list page_event)
    (copy : string -> string -> BulkMigration.provider)
    (schedule : list nat)
  : outcome bool * BulkMigration.state :=
  match file with
  | None => (Ret false, BulkMigration.init_state)
  | Some content =>
      match BulkMigration.load content with
      | Raise _ => (Ret false, BulkMigration.init_state)
      | Ret (source_bucket, source_region, target_configs) =>
          match client "s3" source_region with
          | Raise e => (Raise e, BulkMigration.init_state)
          | Ret _ =>
              BulkMigration.run_migration
                (list_objects source_region source_bucket)
                (copy source_bucket source_region)
                target_configs schedule BulkMigration.init_state
          end
      end
  end.

End BulkMain.

(** ** scripts/migration/setup-s3-replication.py: the set-up *)

Module ReplicationSetup.

(** ['Destination'] of a rule. *)
Record destination : Type := Destination {
  dest_bucket : string;                 (* ['Bucket'], an ARN *)
  dest_storage_class : string;
  dest_replication_time_status : string;
  dest_replication_time_minutes : Z;
  dest_metrics_status : string;
  dest_metrics_minutes : Z
}.

Record rule : Type := Rule {
  rule_id : string;
  rule_status : string;
  rule_priority : nat;
  rule_filter_prefix : string;
  rule_delete_marker_replication : string;
  rule_destination : destination
}.

Record replication_config : Type := ReplicationConfig {
  cfg_role : string;
  cfg_rules : list rule
}.

(** The object-store calls the set-up makes. *)
Inductive call : Type :=
| PutBucketVersioning (bucket region : string)
| PutBucketReplication (bucket : string) (config : replication_config).

(** The providers: the identity service, and the two object-store calls. *)
Record env : Type := Env {
  iam : ReplicationRole.provider;
  put_bucket_versioning : string -> string -> outcome unit;
  put_bucket_replication : string -> replication_config -> outcome unit
}.

(** The rule built for the target at index [i] (lines 88-110). *)
Definition make_rule (i : nat) (target : target_config) : rule :=
  Rule ("ReplicationRule" +:+ PyFmt.str_of_nat (i + 1))
       "Enabled"
       (i + 1)
       EmptyString
       "Enabled"
       (Destination ("arn:aws:s3:::" +:+ tc_bucket target) "STANDARD_IA"
                    "Enabled" 15 "Enabled" 15).

(** [for i, target in enumerate(target_configs)], from index [i]. *)
Fixpoint build_rules (i : nat) (targets : list target_config) : list rule :=
  match targets with
  | [] => []
  | target :: rest => make_rule i target :: build_rules (S i) rest
  end.

(** [enable_versioning], lines 64-76. *)
Definition enable_versioning (e : env) (bucket region : string) (log : list call)
  : outcome bool * list call :=
  let log' := log ++ [PutBucketVersioning bucket region] in
  match put_bucket_versioning e bucket region with
  | Ret _ => (Ret true, log')
  | Raise (ClientError _ _) => (Ret false, log')
  | Raise x => (Raise x, log')
  end.

(** [setup_replication_configuration], lines 78-125. *)
Definition setup_replication_configuration (e : env) (source_bucket : string)
    (target_configs : list target_config) (role_arn : string) (log : list call)
  : outcome bool * list call :=
  let config := ReplicationConfig role_arn (build_rules 0 target_configs) in
  let log' := log ++ [PutBucketReplication source_bucket config] in
  match put_bucket_replication e source_bucket config with
  | Ret _ => (Ret true, log')
  | Raise (ClientError _ _) => (Ret false, log')
  | Raise x => (Raise x, log')
  end.

(** The loop of lines 140-142: versioning on each target, until one
    fails. *)
Fixpoint enable_on_targets (e : env) (targets : list target_config) (log : list call)
  : outcome bool * list call :=
  match targets with
  | [] => (Ret true, log)
  | target :: rest =>
      match enable_versioning e (tc_bucket target) (tc_region target) log with
      | (Ret true, log') => enable_on_targets e rest log'
      | r => r
      end
  end.

(** Python's truth value of [role_arn]: [None] and the empty string are
    false. *)
Definition usable_arn (role_arn : option string) : option string :=
  match role_arn with
  | Some EmptyString => None
  | other => other
  end.

(** [setup_complete_replication], lines 127-155. *)
Definition setup_complete_replication (e : env) (source_bucket source_region : string)
    (target_configs : list target_config) : outcome bool * list call :=
  match ReplicationRole.create_replication_role (iam e) with
  | Raise x => (Raise x, [])
  | Ret role =>
      match usable_arn role with
      | None => (Ret false, [])
      | Some role_arn =>
          match enable_versioning e source_bucket source_region [] with
          | (Ret true, log1) =>
              match enable_on_targets e target_configs log1 with
              | (Ret true, log2) =>
                  setup_replication_configuration e source_bucket target_configs
                                                  role_arn log2
              | r => r
              end
          | r => r
          end
      end
  end.

(** [main], lines 157-188.  The [try] ends before [source_region] is read,
    so a file without a region line makes [main] raise; so does a region
    for which [__init__] cannot build its two clients. *)
Definition main (client : client_builder) (file : option string) (e : env)
  : outcome bool * list call :=
  match file with
  | None => (Ret false, [])
  | Some content =>
      match
        (vs ← Config.parse_bucket_info content;
         source_bucket ← read_var "source_bucket" (Config.v_first vs);
         Ret (source_bucket, Config.v_second vs,
              ReplicationMain.target_configs source_bucket))
      with
      | Raise _ => (Ret false, [])
      | Ret (source_bucket, region, target_configs) =>
          match
            (source_region ← read_var "source_region" region;
             _ ← client "s3" source_region;
             _ ← client "iam" source_region;
             Ret source_region)
          with
          | Raise x => (Raise x, [])
          | Ret source_region =>
              setup_complete_replication e source_bucket source_region target_configs
          end
      end
  end.

End ReplicationSetup.

(** ** scripts/validation/complete-migration-validation.py: the
       replication test, the report and [main] *)

Module ValidatorReport.

(** [self.results['s3_replication']]. *)
Record replication_results : Type := ReplicationResults {
  rp_status : string;
  rp_test_file : option string
}.

(** The object store as the replication test uses it: [put_object] and
    [head_object], by region, bucket and key. *)
Record s3_calls : Type := S3Calls {
  put_object : string -> string -> string -> outcome unit;
  head_object : string -> string -> string -> outcome unit
}.

(** [f"validation/replication-test-{int(time.time())}.txt"], for the
    clock reading [now]. *)
Definition test_key (now : Z) : string :=
  "validation/replication-test-" +:+ PyFmt.str_of_Z now +:+ ".txt".

(** The loop of lines 136-143: [head_object] on each target.  A
    [ClientError] marks the replication as failed and the loop goes on; any
    other exception leaves the loop.  [checked] records the targets
    asked. *)
Fixpoint check_replicas (s3 : s3_calls) (key : string) (targets : list target_config)
    (replication_success : bool) (checked : list target_config)
  : outcome bool * list target_config :=
  match targets with
  | [] => (Ret replication_success, checked)
  | target :: rest =>
      match head_object s3 (tc_region target) (tc_bucket target) key with
      | Ret _ => check_replicas s3 key rest replication_success (checked ++ [target])
      | Raise (ClientError _ _) => check_replicas s3 key rest false (checked ++ [target])
      | Raise x => (Raise x, checked ++ [target])
      end
  end.

(** [validate_s3_replication], lines 109-153, at clock reading [now]; the
    wait of line 132 passes before the targets are asked. *)
Definition validate_s3_replication (s3 : s3_calls) (now : Z) (c : Validator.config)
  : replication_results * bool * list target_config :=
  match Validator.source_region c with
  | None => (ReplicationResults "ERROR" None, false, [])
  | Some region =>
      match put_object s3 region (Validator.source_bucket c) (test_key now) with
      | Raise _ => (ReplicationResults "ERROR" None, false, [])
      | Ret _ =>
          match check_replicas s3 (test_key now) (Validator.s3_targets c) true [] with
          | (Ret replication_success, checked) =>
              (ReplicationResults (if replication_success then "WORKING" else "FAILED")
                                  (Some (test_key now)),
               replication_success, checked)
          | (Raise _, checked) => (ReplicationResults "ERROR" None, false, checked)
          end
      end
  end.

(** [self.results]: each part is [None] while it is the empty dict of
    [__init__]. *)
Record results : Type := Results {
  res_s3_bulk_migration : option Validator.s3_results;
  res_s3_replication : option replication_results;
  res_dynamodb_sync : option Validator.dynamodb_results;
  res_overall_status : string
}.

(** [__init__], lines 10-16. *)
Definition init_results : results := Results None None None "PENDING".

(** [d.get('status') == s]. *)
Definition status_is (status : option string) (s : string) : bool :=
  match status with
  | Some x => String.eqb x s
  | None => false
  end.

(** [all_systems_good] at the end of [generate_final_report], lines
    234-269. *)
Definition all_systems_good (r : results) : bool :=
  let s3_bulk := option_map Validator.s3_status (res_s3_bulk_migration r) in
  let dynamodb := option_map Validator.db_status (res_dynamodb_sync r) in
  let after_bulk := if status_is s3_bulk "COMPLETE" then true else false in
  if status_is dynamodb "SYNCED" then after_bulk
  else if negb (status_is dynamodb "ERROR") then false else after_bulk.

(** [generate_final_report], lines 227-295: what it leaves in
    [self.results] (the same value goes to the JSON file). *)
Definition generate_final_report (r : results) : results :=
  Results (res_s3_bulk_migration r) (res_s3_replication r) (res_dynamodb_sync r)
          (if all_systems_good r then "SUCCESS" else "PARTIAL_SUCCESS").

(** [main], lines 297-315, on the two configuration files: the value
    returned, and [self.results] at the end ([init_results] when the
    configuration does not load). *)
Definition main {Item} (client : client_builder) (bucket_info dynamodb_info : string)
    (s3 : Validator.s3_provider) (calls : s3_calls) (now : Z)
    (db : Validator.dynamodb_provider Item) : bool * results :=
  match Validator.load_configuration bucket_info dynamodb_info with
  | None => (false, init_results)
  | Some c =>
      let bulk := fst (Validator.validate_s3_bulk_migration client s3 c) in
      let repl := fst (fst (validate_s3_replication calls now c)) in
      let sync := fst (Validator.validate_dynamodb_sync db c) in
      (true, generate_final_report (Results (Some bulk) (Some repl) (Some sync) "PENDING"))
  end.

End ValidatorReport.

(** ** scripts/migration/dynamodb-stream-sync.py: streams and the
       simulated sync *)

Module StreamSyncRun.

(** The table service as the sync uses it. *)
Record env : Type := Env {
  update_table : outcome unit;
  wait_table_exists : outcome unit;
  describe_table : outcome (option string);      (* ['Table'].get('LatestStreamArn') *)
  source_resource : outcome unit;                (* [boto3.resource] for the source region *)
  scan : outcome (list StreamSync.value);        (* the ['Items'] of the first page *)
  (* [boto3.resource], [Table] and [batch_writer] for a target *)
  open_writer : target_config -> outcome unit;
  (* [batch.put_item] of an item, after the items already handed to the
     writer: it buffers the item and sends the buffer when it is full *)
  put_item : target_config -> list StreamSync.value -> StreamSync.value -> outcome unit;
  (* the writer's [__exit__], which sends what is left of the items handed
     to it, whether the block ended normally or not *)
  close_writer : target_config -> list StreamSync.value -> outcome unit
}.

(** [enable_streams], lines 16-47. *)
Definition enable_streams (e : env) : outcome (option string) :=
  match
    (_ ← update_table e;
     _ ← wait_table_exists e;
     stream_arn ← describe_table e;
     Ret (match stream_arn with
          | Some EmptyString => None
          | other => other
          end))
  with
  | Raise (ClientError _ _) => Ret None
  | r => r
  end.

(** The loop of lines 84-87 inside the writer: each item is converted and
    put; the first [put_item] that raises ends the loop.  [handed] are the
    converted items given to [put_item] so far. *)
Fixpoint put_items (e : env) (target : target_config) (items : list StreamSync.value)
    (handed : list StreamSync.value) : outcome unit * list StreamSync.value :=
  match items with
  | [] => (Ret tt, handed)
  | item :: rest =>
      let converted_item := StreamSync._convert_floats_to_decimal item in
      match put_item e target handed converted_item with
      | Ret _ => put_items e target rest (handed ++ [converted_item])
      | Raise x => (Raise x, handed ++ [converted_item])
      end
  end.

(** The [with] block of lines 83-87: the loop, then the writer's exit; an
    exception of the exit replaces the one of the loop. *)
Definition write_batch (e : env) (target : target_config) (items : list StreamSync.value)
  : outcome unit * list StreamSync.value :=
  let '(r, handed) := put_items e target items [] in
  match close_writer e target handed with
  | Ret _ => (r, handed)
  | Raise x => (Raise x, handed)
  end.

(** [_sync_to_target], lines 72-93.  [sent] records, per target, the
    items handed to its writer (none when the writer could not be
    opened).  A [ClientError] is caught and printed, any other exception
    leaves the function. *)
Definition _sync_to_target (e : env) (items : list StreamSync.value)
    (target : target_config) (sent : list (target_config * list StreamSync.value))
  : outcome unit * list (target_config * list StreamSync.value) :=
  let '(r, handed) :=
    match open_writer e target with
    | Ret _ => write_batch e target items
    | Raise x => (Raise x, [])
    end in
  let sent' := sent ++ [(target, handed)] in
  match r with
  | Ret _ => (Ret tt, sent')
  | Raise (ClientError _ _) => (Ret tt, sent')
  | Raise x => (Raise x, sent')
  end.

(** The items handed to the writer of a target. *)
Definition handed_to (e : env) (items : list StreamSync.value) (target : target_config)
  : list StreamSync.value :=
  match open_writer e target with
  | Ret _ => snd (write_batch e target items)
  | Raise _ => []
  end.

(** No call made for a target raises anything but a [ClientError]. *)
Definition writer_settles (e : env) (target : target_config) : Prop :=
  BulkMigration.settles (open_writer e target) = true /\
  (forall handed item, BulkMigration.settles (put_item e target handed item) = true) /\
  (forall handed, BulkMigration.settles (close_writer e target handed) = true).

(** The writer of a target opens and accepts every item. *)
Definition writer_accepts (e : env) (target : target_config) : Prop :=
  open_writer e target = Ret tt /\
  (forall handed item, put_item e target handed item = Ret tt).

(** The loop of lines 63-64. *)
Fixpoint sync_all (e : env) (items : list StreamSync.value)
    (targets : list target_config) (sent : list (target_config * list StreamSync.value))
  : outcome unit * list (target_config * list StreamSync.value) :=
  match targets with
  | [] => (Ret tt, sent)
  | target :: rest =>
      match _sync_to_target e items target sent with
      | (Ret _, sent') => sync_all e items rest sent'
      | r => r
      end
  end.

(** [simulate_real_time_sync], lines 49-70.  The source resource is
    built before the [try]. *)
Definition simulate_real_time_sync (e : env) (targets : list target_config)
  : outcome bool * list (target_config * list StreamSync.value) :=
  match source_resource e with
  | Raise x => (Raise x, [])
  | Ret _ =>
      match scan e with
      | Ret source_items =>
          match sync_all e source_items targets [] with
          | (Ret _, sent) => (Ret true, sent)
          | (Raise x, sent) => (Raise x, sent)
          end
      | Raise (ClientError _ _) => (Ret false, [])
      | Raise x => (Raise x, [])
      end
  end.

End StreamSyncRun.

(** ** cleanup-resources.py: the role and [main] *)

Module CleanupMain.

(** What [delete_iam_role] prints. *)
Inductive role_message : Type :=
| DeletedRole
| RoleAlreadyDeleted
| ErrorDeletingRole (text : string).

Record iam_calls : Type := IamCalls {
  detach_role_policy : outcome unit;
  delete_role : outcome unit
}.

(** [delete_iam_role], lines 44-64. *)
Definition delete_iam_role (iam : iam_calls) : outcome unit * list role_message :=
  match (_ ← detach_role_policy iam; delete_role iam) with
  | Ret _ => (Ret tt, [DeletedRole])
  | Raise (ClientError code text) =>
      if String.eqb code "NoSuchEntity"
      then (Ret tt, [RoleAlreadyDeleted])
      else (Ret tt, [ErrorDeletingRole text])
  | Raise x => (Raise x, [])
  end.

(** The buckets of [main], lines 70-74. *)
Definition buckets : list (string * string) :=
  [ ("migration-demo-source-36714", "us-east-1");
    ("migration-demo-target-us-west-2-36714", "us-west-2");
    ("migration-demo-target-eu-west-1-36714", "eu-west-1") ].

(** The loop of lines 76-77 over a list of buckets. *)
Fixpoint delete_buckets (s3 : string -> string -> Cleanup.provider)
    (l : list (string * string)) (log : list Cleanup.message)
  : outcome unit * list Cleanup.message :=
  match l with
  | [] => (Ret tt, log)
  | (bucket, region) :: rest =>
      match Cleanup.delete_all_object_versions (s3 bucket region) bucket with
      | (Ret _, log') => delete_buckets s3 rest (log ++ log')
      | (Raise x, log') => (Raise x, log ++ log')
      end
  end.

(** [main], lines 66-82: what is printed about the buckets and about the
    role. *)
Definition main (s3 : string -> string -> Cleanup.provider) (iam : iam_calls)
  : outcome unit * list Cleanup.message * list role_message :=
  match delete_buckets s3 buckets [] with
  | (Raise x, log) => (Raise x, log, [])
  | (Ret _, log) =>
      let '(r, role_log) := delete_iam_role iam in (r, log, role_log)
  end.

End CleanupMain.

(** ** scripts/setup/create-dynamodb-python.py: [main] *)

Module CreateTablesMain.

(** What [main] leaves behind: the [create_dynamodb_table] calls it made,
    in order, each with the value it returned, and the content of
    dynamodb-info.txt if it wrote it. *)
Record run : Type := Run {
  created : list (string * string * bool);
  written : option string
}.

(** [f"{project_name}-target-{region}-user-data"] *)
Definition target_table (region : string) : string :=
  CreateTables.project_name +:+ "-target-" +:+ region +:+ "-user-data".

(** [main], lines 71-114; [provider table region] is the table service as
    [create_dynamodb_table] meets it for that table.  The listing at the
    end only prints. *)
Definition main (provider : string -> string -> CreateTable.provider) : run :=
  let create table region :=
    (table, region, CreateTable.create_dynamodb_table (provider table region)) in
  let source := create CreateTables.source_table CreateTables.source_region in
  if snd source
  then
    Run (source :: map (fun region => create (target_table region) region)
                       CreateTables.target_regions)
        (Some (CreateTables.save_table_info CreateTables.source_table
                                            CreateTables.source_region))
  else Run [source] None.

End CreateTablesMain.

(** ** scripts/setup/populate-dynamodb-simple.py *)

Module PopulateSimple.

(** An item: a dict with string keys. *)
Definition item : Type := list (string * StreamSync.value).

(** [item[key]]; [None] is the [KeyError]. *)
Fixpoint get (key : string) (i : item) : option StreamSync.value :=
  match i with
  | [] => None
  | (k, v) :: rest => if String.eqb k key then Some v else get key rest
  end.

Definition user (id : string) (timestamp : Z) (name email department : string) : item :=
  [ ("UserID", StreamSync.VStr id);
    ("Timestamp", StreamSync.VInt timestamp);
    ("Name", StreamSync.VStr name);
    ("Email", StreamSync.VStr email);
    ("Department", StreamSync.VStr department) ].

(** [sample_users], lines 20-42. *)
Definition sample_users : list item :=
  [ user "user001" 1695020400 "John Doe" "john.doe@example.com" "Engineering";
    user "user002" 1695020401 "Jane Smith" "jane.smith@example.com" "Marketing";
    user "user003" 1695020402 "Bob Johnson" "bob.johnson@example.com" "Sales" ].

Record env : Type := Env {
  put_item : item -> outcome unit;
  scan : outcome (list item)           (* [response['Items']], at most 10 *)
}.

(** The loop of lines 45-50: each [put_item] has its own handler, which
    takes every exception.  The result records, for each user in order,
    whether it was added. *)
Fixpoint put_all (e : env) (users : list item) : list (item * bool) :=
  match users with
  | [] => []
  | u :: rest =>
      (u, match put_item e u with Ret _ => true | Raise _ => false end)
      :: put_all e rest
  end.

(** The loop of lines 57-58 reads two keys of every scanned item. *)
Fixpoint print_items (items : list item) : outcome unit :=
  match items with
  | [] => Ret tt
  | i :: rest =>
      match get "Name" i, get "UserID" i with
      | Some _, Some _ => print_items rest
      | _, _ => Raise (OtherException "KeyError")
      end
  end.

(** [populate_source_table], lines 8-66: the value returned, and what
    became of each insert. *)
Definition populate_source_table (e : env) : bool * list (item * bool) :=
  let puts := put_all e sample_users in
  match (items ← scan e; print_items items) with
  | Ret _ => (true, puts)
  | Raise _ => (false, puts)
  end.

End PopulateSimple.

(** ** Calls that fail only with the provider's error *)

(** A call returns, or raises a [ClientError]: the one exception class the
    scripts' handlers name. *)
Definition only_client_errors {A : Type} (o : outcome A) : Prop :=
  forall e, o = Raise e -> exists code text, e = ClientError code text.

(** Two scans end alike: both raise, or both return the same number of
    items. *)
Definition same_count {A B : Type} (o : outcome (list A)) (o' : outcome (list B)) : Prop :=
  match o, o' with
  | Ret items, Ret items' => length items = length items'
  | Raise _, Raise _ => True
  | _, _ => False
  end.

(** ** Sample runs *)

Module Samples.
Import PyStr.

Definition obj_a : BulkMigration.obj_info :=
  BulkMigration.ObjInfo "data/a.txt" 10 "2024-05-01T10:00:00" "etag-a".
Definition obj_b : BulkMigration.obj_info :=
  BulkMigration.ObjInfo "data/b.txt" 32 "2024-05-01T10:00:01" "etag-b".

Definition s3_a : s3_object := S3Object "data/a.txt" 10 "2024-05-01T10:00:00" "etag-a".
Definition s3_b : s3_object := S3Object "data/b.txt" 32 "2024-05-01T10:00:01" "etag-b".
Definition s3_extra : s3_object := S3Object "validation/probe.txt" 5 "2024-05-02T08:00:00" "etag-p".

Definition bucket : string := "migration-demo-source-36714".
Definition west : target_config :=
  TargetConfig "migration-demo-target-us-west-2-36714" "us-west-2".
Definition europe : target_config :=
  TargetConfig "migration-demo-target-eu-west-1-36714" "eu-west-1".

(** Every region name is accepted. *)
Definition any_region : client_builder := fun _ _ => Ret tt.

(** An empty region name is refused. *)
Definition named_region : client_builder :=
  fun _ region =>
    match region with
    | EmptyString => Raise (OtherException "Invalid endpoint")
    | _ => Ret tt
    end.

(** Every copy goes through. *)
Definition provider_ok : BulkMigration.provider := fun _ _ => Ret tt.

(** Copies into us-west-2 are refused by the provider. *)
Definition provider_west_denied : BulkMigration.provider := fun _ tc =>
  if String.eqb (tc_region tc) "us-west-2"
  then Raise (ClientError "AccessDenied" "An error occurred (AccessDenied)")
  else Ret tt.

(** us-west-2 cannot be reached: the client raises an exception that is
    not a [ClientError]. *)
Definition provider_west_unreachable : BulkMigration.provider := fun _ tc =>
  if String.eqb (tc_region tc) "us-west-2"
  then Raise (OtherException "EndpointConnectionError")
  else Ret tt.

Definition two_pages : list page_event :=
  [Page (Some [s3_a]); Page None; Page (Some [s3_b])].

(** The source holds [a] and [b]; us-west-2 holds both and one more;
    eu-west-1 holds only [a]. *)
Definition s3_west_complete : Validator.s3_provider := fun region _ =>
  if String.eqb region "us-east-1" then two_pages
  else if String.eqb region "us-west-2" then [Page (Some [s3_extra; s3_b; s3_a])]
  else [Page (Some [s3_a])].

(** The buckets of us-west-2 hold only [a]; every other bucket holds [a]
    and [b]. *)
Definition s3_west_behind : Validator.s3_provider := fun region _ =>
  if String.eqb region "us-west-2" then [Page (Some [s3_a])] else two_pages.

(** A bucket-info.txt whose bucket name does not contain [source]. *)
Definition file_other_name : string :=
  "SOURCE_BUCKET=my-data-bucket" +:+ nl +:+
  "SOURCE_REGION=us-east-1" +:+ nl.

Definition west_same_name : target_config := TargetConfig "my-data-bucket" "us-west-2".
Definition europe_same_name : target_config := TargetConfig "my-data-bucket" "eu-west-1".

(** The validator's configuration after [load_configuration] has read
    [file_other_name] and [dynamodb_file]. *)
Definition loaded_other_name : Validator.config :=
  Validator.ValidatorConfig "my-data-bucket" (Some "us-east-1")
                            (Some "migration-demo-user-data")
                            [west_same_name; europe_same_name]
                            Validator.dynamodb_target_configs.

(** A table name with a carriage return in it. *)
Definition table_with_cr : string :=
  String "a" (String TextFile.CR (String "b" EmptyString)).

(** Every bucket holds [a] and [b]. *)
Definition s3_all_complete : Validator.s3_provider := fun _ _ => two_pages.

Definition dynamodb_file : string := CreateTables.main_saved_file.

(** The source table has two items, us-west-2 two, eu-west-1 one. *)
Definition tables_west_synced : Validator.dynamodb_provider nat := fun region _ =>
  if String.eqb region "eu-west-1" then Ret [1%nat] else Ret [1%nat; 2%nat].

(** Every table has two items. *)
Definition tables_all_synced : Validator.dynamodb_provider nat := fun _ _ =>
  Ret [1%nat; 2%nat].

(** The validator's configuration after [load_configuration] has read
    [Config.file_plain] and [dynamodb_file]. *)
Definition loaded : Validator.config :=
  Validator.ValidatorConfig bucket (Some "us-east-1") (Some "migration-demo-user-data")
                            [west; europe] Validator.dynamodb_target_configs.

(** The table is there already. *)
Definition table_exists : CreateTable.provider :=
  CreateTable.Provider
    (Raise (ClientError "ResourceInUseException" "Table already exists")) (Ret tt).

(** The caller may not create tables. *)
Definition table_denied : CreateTable.provider :=
  CreateTable.Provider
    (Raise (ClientError "AccessDeniedException" "not authorized")) (Ret tt).

(** The bucket is gone already. *)
Definition bucket_gone : Cleanup.provider :=
  Cleanup.Provider (Raise (ClientError "NoSuchBucket" "The bucket does not exist"))
                   (fun _ _ => Ret tt) (Ret tt).


Definition role_arn : string := "arn:aws:iam::123456789012:role/S3-Replication-Role".

(** The role is there already. *)
Definition role_exists : ReplicationRole.provider :=
  ReplicationRole.Provider
    (Raise (ClientError "EntityAlreadyExists" "Role already exists"))
    (Ret tt) (Ret role_arn).


(** The float [1.5]. *)
Definition one_and_a_half : StreamSync.float := SpecFloat.S754_finite false 3 (-1).

(** An item with a float, a nested list, and a tuple of floats. *)
Definition item : StreamSync.value :=
  StreamSync.VDict
    [ ("UserID", StreamSync.VStr "user-001");
      ("Score", StreamSync.VFloat one_and_a_half);
      ("History", StreamSync.VList [StreamSync.VFloat one_and_a_half; StreamSync.VInt 2]);
      ("Range", StreamSync.VTuple [StreamSync.VFloat one_and_a_half]) ].

(** Thirty items of the source table. *)
Definition thirty_items : list StreamSync.value := repeat item 30.

(** A table service whose target tables refuse the first batch the writer
    sends: the put of the 25th item, which fills the buffer, raises. *)
Definition first_flush_refused : StreamSyncRun.env :=
  StreamSyncRun.Env (Ret tt) (Ret tt) (Ret None) (Ret tt) (Ret thirty_items)
    (fun _ => Ret tt)
    (fun _ handed _ =>
       if Nat.eqb (length handed) 24
       then Raise (ClientError "AccessDeniedException" "not authorized")
       else Ret tt)
    (fun _ _ => Raise (ClientError "AccessDeniedException" "not authorized")).

End Samples.

(** * Properties *)

(** ** Strings *)

Section StringFacts.
Import PyStr.

Lemma append_String (a : ascii) (s t : string) :
  String a s +:+ t = String a (s +:+ t).
Proof. reflexivity. Qed.

Lemma append_empty_l (s : string) : EmptyString +:+ s = s.
Proof. reflexivity. Qed.

Lemma append_assoc (a b c : string) : (a +:+ b) +:+ c = a +:+ (b +:+ c).
Proof.
  induction a as [|x a IH]; [reflexivity|].
  rewrite !append_String, IH. reflexivity.
Qed.

Lemma has_char_app (c : ascii) (a b : string) :
  has_char c (a +:+ b) = has_char c a || has_char c b.
Proof.
  induction a as [|x a IH]; [reflexivity|].
  rewrite append_String. simpl. destruct (Ascii.eqb x c); [reflexivity|apply IH].
Qed.

Lemma startswith_app (p s : string) : startswith (p +:+ s) p = true.
Proof.
  induction p as [|x p IH]; [reflexivity|].
  rewrite append_String. simpl. rewrite Ascii.eqb_refl. apply IH.
Qed.

Lemma startswith_inv (s p : string) :
  startswith s p = true -> exists v, s = p +:+ v.
Proof.
  revert s. induction p as [|x p IH]; intros s H.
  - exists s. reflexivity.
  - destruct s as [|y s]; simpl in H; [discriminate|].
    destruct (Ascii.eqb x y) eqn:E; [|discriminate].
    apply Ascii.eqb_eq in E. subst y.
    destruct (IH _ H) as [v ->]. exists v. reflexivity.
Qed.

Lemma split_head (sep : ascii) (s : string) :
  exists rest, split sep s = before sep s :: rest.
Proof.
  induction s as [|x s [rest IH]]; simpl.
  - exists []. reflexivity.
  - destruct (Ascii.eqb x sep).
    + eexists. reflexivity.
    + rewrite IH. eexists. reflexivity.
Qed.

Lemma split_app_sep (sep : ascii) (a b : string) :
  has_char sep a = false ->
  split sep (a +:+ String sep b) = a :: split sep b.
Proof.
  induction a as [|x a IH]; intros H.
  - simpl. rewrite Ascii.eqb_refl. reflexivity.
  - rewrite append_String. simpl in *.
    destruct (Ascii.eqb x sep); [discriminate|].
    rewrite (IH H). reflexivity.
Qed.

Lemma before_no_sep (sep : ascii) (s : string) :
  has_char sep s = false -> before sep s = s.
Proof.
  induction s as [|x s IH]; intros H; simpl in *; [reflexivity|].
  destruct (Ascii.eqb x sep); [discriminate|]. rewrite (IH H). reflexivity.
Qed.

Lemma before_has_no_sep (sep : ascii) (s : string) :
  has_char sep (before sep s) = false.
Proof.
  induction s as [|x s IH]; simpl; [reflexivity|].
  destruct (Ascii.eqb x sep) eqn:E; simpl; [reflexivity|]. rewrite E. exact IH.
Qed.

(** A written line, followed by the rest of the file. *)
Lemma line_then (k v rest : string) :
  (k +:+ v +:+ nl) +:+ rest = (k +:+ v) +:+ String LF rest.
Proof. rewrite !append_assoc. reflexivity. Qed.

(** [(name + '=' + v).split('=')[1]] is the text of [v] before its first
    ['=']. *)
Lemma split_eq_1_of_key (name v : string) :
  has_char EQ name = false ->
  Config.split_eq_1 (name +:+ String EQ v) = Ret (before EQ v).
Proof.
  intros H. unfold Config.split_eq_1.
  rewrite (split_app_sep _ _ _ H).
  destruct (split_head EQ v) as [rest ->]. reflexivity.
Qed.

End StringFacts.

(** ** The parsing loop *)

Section ParseFacts.
Import PyStr Config.

(** The two keys are a name without ['='] followed by ['=']. *)
Variables name1 name2 : string.
Hypothesis name1_plain : has_char EQ name1 = false.
Hypothesis name2_plain : has_char EQ name2 = false.

Let k1 : string := name1 +:+ String EQ EmptyString.
Let k2 : string := name2 +:+ String EQ EmptyString.

Lemma key_line (name v : string) :
  (name +:+ String EQ EmptyString) +:+ v = name +:+ String EQ v.
Proof. rewrite append_assoc. reflexivity. Qed.

Lemma parse_line_first (st : vars) (v : string) :
  parse_line k1 k2 st (k1 +:+ v) = Ret (Vars (Some (before EQ v)) (v_second st)).
Proof.
  unfold parse_line. rewrite startswith_app.
  unfold k1. rewrite key_line, split_eq_1_of_key by assumption. reflexivity.
Qed.

Lemma parse_line_second (st : vars) (v : string) :
  startswith (k2 +:+ v) k1 = false ->
  parse_line k1 k2 st (k2 +:+ v) = Ret (Vars (v_first st) (Some (before EQ v))).
Proof.
  intros H. unfold parse_line. rewrite H, startswith_app.
  unfold k2. rewrite key_line, split_eq_1_of_key by assumption. reflexivity.
Qed.

(** The subscript [[1]] never fails: a line that starts with a key has an
    ['=']. *)
Lemma parse_line_returns (st : vars) (line : string) :
  exists st', parse_line k1 k2 st line = Ret st'.
Proof.
  destruct (startswith line k1) eqn:E1.
  - destruct (startswith_inv _ _ E1) as [v ->].
    rewrite parse_line_first. eauto.
  - destruct (startswith line k2) eqn:E2.
    + destruct (startswith_inv _ _ E2) as [v ->].
      rewrite parse_line_second by assumption. eauto.
    + unfold parse_line. rewrite E1, E2. eauto.
Qed.

Lemma parse_lines_returns (lines : list string) (st : vars) :
  exists st', parse_lines k1 k2 st lines = Ret st'.
Proof.
  revert st. induction lines as [|line rest IH]; intros st; simpl.
  - eauto.
  - destruct (parse_line_returns st line) as [st1 ->]. apply IH.
Qed.

Lemma parse_lines_app (a b : list string) (st : vars) :
  parse_lines k1 k2 st (a ++ b) =
  (st' ← parse_lines k1 k2 st a; parse_lines k1 k2 st' b).
Proof.
  revert st. induction a as [|line a IH]; intros st; simpl; [reflexivity|].
  destruct (parse_line k1 k2 st line) as [st1|e]; simpl; [apply IH|reflexivity].
Qed.

Lemma parse_lines_keep_first (lines : list string) (st st' : vars) :
  Forall (fun l => startswith l k1 = false) lines ->
  parse_lines k1 k2 st lines = Ret st' ->
  v_first st' = v_first st.
Proof.
  intros HF. revert st. induction HF as [|line rest Hl _ IH]; intros st H; simpl in H.
  - injection H as <-. reflexivity.
  - unfold parse_line in H. rewrite Hl in H.
    destruct (startswith line k2).
    + destruct (split_eq_1 line) as [v|e]; simpl in H; [|discriminate].
      rewrite (IH _ H). reflexivity.
    + simpl in H. apply (IH _ H).
Qed.

Lemma parse_lines_keep_second (lines : list string) (st st' : vars) :
  Forall (fun l => startswith l k2 = false) lines ->
  parse_lines k1 k2 st lines = Ret st' ->
  v_second st' = v_second st.
Proof.
  intros HF. revert st. induction HF as [|line rest Hl _ IH]; intros st H; simpl in H.
  - injection H as <-. reflexivity.
  - unfold parse_line in H. rewrite Hl in H.
    destruct (startswith line k1).
    + destruct (split_eq_1 line) as [v|e]; simpl in H; [|discriminate].
      rewrite (IH _ H). reflexivity.
    + simpl in H. apply (IH _ H).
Qed.

(** The first name ends up bound to the value of the last line that
    starts with the first key. *)
Lemma parse_lines_first (pre post : list string) (v : string) (st0 : vars) :
  Forall (fun l => startswith l k1 = false) post ->
  exists st, parse_lines k1 k2 st0 (pre ++ (k1 +:+ v) :: post) = Ret st /\
             v_first st = Some (before EQ v).
Proof.
  intros HF. rewrite parse_lines_app.
  destruct (parse_lines_returns pre st0) as [st1 ->]. simpl.
  rewrite parse_line_first. simpl.
  destruct (parse_lines_returns post (Vars (Some (before EQ v)) (v_second st1)))
    as [st2 H2].
  exists st2. split; [exact H2|].
  rewrite (parse_lines_keep_first _ _ _ HF H2). reflexivity.
Qed.

Lemma parse_lines_second (pre post : list string) (v : string) (st0 : vars) :
  startswith (k2 +:+ v) k1 = false ->
  Forall (fun l => startswith l k2 = false) post ->
  exists st, parse_lines k1 k2 st0 (pre ++ (k2 +:+ v) :: post) = Ret st /\
             v_second st = Some (before EQ v).
Proof.
  intros Hk HF. rewrite parse_lines_app.
  destruct (parse_lines_returns pre st0) as [st1 ->]. simpl.
  rewrite parse_line_second by assumption. simpl.
  destruct (parse_lines_returns post (Vars (v_first st1) (Some (before EQ v))))
    as [st2 H2].
  exists st2. split; [exact H2|].
  rewrite (parse_lines_keep_second _ _ _ HF H2). reflexivity.
Qed.

End ParseFacts.

(** ** Configuration files: parsing, target names, the table hand-off *)

Section ConfigTheorems.
Import PyStr Config.

(** C6, as stated, fails: with the line [SOURCE_BUCKET=a=b] the value
    text after the first ['='] is [a=b], and the bulk-migration [main]
    binds [source_bucket] to [a]. *)
Lemma C6_value_with_equals_is_cut :
  PyStr.split LF file_with_equals =
    ["SOURCE_BUCKET=" +:+ "a=b"; "SOURCE_REGION=" +:+ "us-east-1"; EmptyString] /\
  BulkMigration.load file_with_equals =
    Ret ("a", "us-east-1", BulkMigration.target_configs "a") /\
  "a" <> "a=b".
Proof. split; [reflexivity|]. split; [reflexivity|discriminate]. Qed.

(** C6, amended: when the lines of the file include lines beginning
    [SOURCE_BUCKET=] and [SOURCE_REGION=], the loop returns, and it binds
    each name to the text between the first ['='] of the last such line
    and the next ['='] of that line (or its end).  That text is the full
    value exactly when the value has no ['='] of its own. *)
Theorem C6_value_ends_at_next_equals
    (content : string) (pre_b post_b pre_r post_r : list string) (vb vr : string) :
  PyStr.split LF content = pre_b ++ ("SOURCE_BUCKET=" +:+ vb) :: post_b ->
  Forall (fun l => startswith l "SOURCE_BUCKET=" = false) post_b ->
  PyStr.split LF content = pre_r ++ ("SOURCE_REGION=" +:+ vr) :: post_r ->
  Forall (fun l => startswith l "SOURCE_REGION=" = false) post_r ->
  parse_bucket_info content = Ret (Vars (Some (before EQ vb)) (Some (before EQ vr))) /\
  BulkMigration.load content =
    Ret (before EQ vb, before EQ vr, BulkMigration.target_configs (before EQ vb)) /\
  (before EQ vb = vb <-> has_char EQ vb = false) /\
  (before EQ vr = vr <-> has_char EQ vr = false).
Proof.
  intros Hb HFb Hr HFr.
  assert (Hparse : parse_bucket_info content =
                   Ret (Vars (Some (before EQ vb)) (Some (before EQ vr)))).
  { unfold parse_bucket_info, parse.
    destruct (parse_lines_first "SOURCE_BUCKET" "SOURCE_REGION" eq_refl eq_refl
                pre_b post_b vb unset HFb) as [st [H1 H1v]].
    destruct (parse_lines_second "SOURCE_BUCKET" "SOURCE_REGION" eq_refl eq_refl
                pre_r post_r vr unset eq_refl HFr) as [st' [H2 H2v]].
    change ("SOURCE_BUCKET" +:+ String EQ EmptyString) with "SOURCE_BUCKET=" in *.
    change ("SOURCE_REGION" +:+ String EQ EmptyString) with "SOURCE_REGION=" in *.
    rewrite <- Hb in H1. rewrite <- Hr in H2.
    rewrite H1 in H2. injection H2 as <-.
    rewrite H1. destruct st as [f s]. simpl in *. subst. reflexivity. }
  split; [exact Hparse|]. split.
  - unfold BulkMigration.load. rewrite Hparse. reflexivity.
  - split; split; intros H.
    + rewrite <- H. apply before_has_no_sep.
    + apply before_no_sep, H.
    + rewrite <- H. apply before_has_no_sep.
    + apply before_no_sep, H.
Qed.

Lemma C6_value_ends_at_next_equals_witness :
  BulkMigration.load file_plain =
    Ret ("migration-demo-source-36714", "us-east-1",
         BulkMigration.target_configs "migration-demo-source-36714") /\
  BulkMigration.load file_with_equals =
    Ret ("a", "us-east-1", BulkMigration.target_configs "a").
Proof.
  split.
  - apply (C6_value_ends_at_next_equals file_plain
             [] ["SOURCE_REGION=us-east-1"; EmptyString]
             ["SOURCE_BUCKET=migration-demo-source-36714"] [EmptyString]
             "migration-demo-source-36714" "us-east-1").
    + reflexivity.
    + repeat constructor.
    + reflexivity.
    + repeat constructor.
  - apply (C6_value_ends_at_next_equals file_with_equals
             [] ["SOURCE_REGION=us-east-1"; EmptyString]
             ["SOURCE_BUCKET=a=b"] [EmptyString] "a=b" "us-east-1").
    + reflexivity.
    + repeat constructor.
    + reflexivity.
    + repeat constructor.
Defined.

(** C7: for every source bucket name the three scripts compute the same
    list of (target bucket, target region) pairs, built by replacing
    [source] in the name with [target-us-west-2] and [target-eu-west-1]. *)
Theorem C7_target_configs_agree (source_bucket : string) :
  BulkMigration.target_configs source_bucket =
    ReplicationMain.target_configs source_bucket /\
  ReplicationMain.target_configs source_bucket =
    Validator.s3_target_configs source_bucket /\
  Validator.s3_target_configs source_bucket =
    [ TargetConfig (replace source_bucket "source" "target-us-west-2") "us-west-2";
      TargetConfig (replace source_bucket "source" "target-eu-west-1") "eu-west-1" ].
Proof. repeat split. Qed.

(** The same at the level of the loaders: from one bucket-info.txt, the
    scripts that load it end with the same source bucket and targets. *)
Lemma loaders_agree (bucket_info dynamodb_info : string)
    (b r : string) (tcs : list target_config) :
  BulkMigration.load bucket_info = Ret (b, r, tcs) ->
  ReplicationMain.load bucket_info = Ret (b, tcs) /\
  forall c, Validator.load_configuration bucket_info dynamodb_info = Some c ->
            Validator.source_bucket c = b /\ Validator.s3_targets c = tcs.
Proof.
  unfold BulkMigration.load, ReplicationMain.load, Validator.load_configuration.
  destruct (parse_bucket_info bucket_info) as [[[f|] [s|]]|e]; simpl; try discriminate.
  intros H. injection H as <- <- <-. split; [reflexivity|].
  intros c. destruct (parse_dynamodb_table_only dynamodb_info); simpl; [|discriminate].
  intros H. injection H as <-. split; reflexivity.
Qed.

Example replace_source_name :
  replace "migration-demo-source-36714" "source" "target-eu-west-1" =
  "migration-demo-target-eu-west-1-36714".
Proof. reflexivity. Qed.

(** A source bucket name that contains [source] gives two different
    target bucket names: the replacements differ at the first
    occurrence. *)
Lemma replace_from_step (old new : string) (a : ascii) (s : string) :
  replace_from old new O (String a s) =
  if startswith (String a s) old
  then new +:+ replace_from old new (Nat.pred (String.length old)) s
  else String a (replace_from old new O s).
Proof. reflexivity. Qed.

Lemma target_names_differ (source_bucket : string) :
  contains source_bucket "source" = true ->
  replace source_bucket "source" "target-us-west-2" <>
  replace source_bucket "source" "target-eu-west-1".
Proof.
  unfold replace. induction source_bucket as [|a s IH]; intros H.
  - discriminate.
  - rewrite !replace_from_step.
    cbn [contains] in H.
    destruct (startswith (String a s) "source") eqn:E.
    + simpl. congruence.
    + simpl in H. intros Heq. injection Heq as Heq. exact (IH H Heq).
Qed.

Lemma configured_targets_distinct (source_bucket : string) :
  contains source_bucket "source" = true ->
  NoDup (map tc_bucket (Validator.s3_target_configs source_bucket)).
Proof.
  intros H. simpl. apply NoDup_cons. split; [|apply NoDup_singleton].
  intros Hin. apply list_elem_of_singleton in Hin.
  exact (target_names_differ source_bucket H Hin).
Qed.

(** The text the create-tables script hands to [f.write] is parsed back
    to the two values by the stream-sync script. *)
Lemma saved_text_parses_back (table region : string) :
  has_char EQ table = false -> has_char LF table = false ->
  has_char EQ region = false -> has_char LF region = false ->
  StreamSyncMain.load (CreateTables.save_table_info table region) =
    Ret (Vars (Some table) (Some region)).
Proof.
  intros Ht Htl Hr Hrl.
  unfold StreamSyncMain.load, parse_dynamodb_info, parse, CreateTables.save_table_info.
  rewrite !line_then.
  rewrite split_app_sep by (rewrite has_char_app, Htl; reflexivity).
  rewrite split_app_sep by (rewrite has_char_app, Hrl; reflexivity).
  change (PyStr.split LF _) with
    ["TARGET_TABLES=("; "    migration-demo-target-us-west-2-user-data";
     "    migration-demo-target-eu-west-1-user-data"; ")"; EmptyString].
  cbn [parse_lines].
  change "SOURCE_TABLE=" with ("SOURCE_TABLE" +:+ String EQ EmptyString).
  change "SOURCE_REGION=" with ("SOURCE_REGION" +:+ String EQ EmptyString).
  rewrite (parse_line_first "SOURCE_TABLE" "SOURCE_REGION" eq_refl).
  cbn [mbind outcome_bind].
  rewrite (parse_line_second "SOURCE_TABLE" "SOURCE_REGION" eq_refl) by reflexivity.
  rewrite !before_no_sep by assumption.
  reflexivity.
Qed.

(** A text without carriage return is read back as it was written, on
    either platform. *)
Lemma read_written_text (p : TextFile.platform) (text : string) :
  has_char TextFile.CR text = false ->
  TextFile.read_text (TextFile.write_text p text) = text.
Proof.
  induction text as [|a rest IH]; intros H; [reflexivity|].
  cbn [has_char] in H. destruct (Ascii.eqb a TextFile.CR) eqn:Ecr; [discriminate|].
  cbn [TextFile.write_text]. destruct (Ascii.eqb_spec a LF) as [->|Hlf].
  - destruct p; simpl; rewrite (IH H); reflexivity.
  - cbn [TextFile.read_text]. rewrite Ecr, (IH H). reflexivity.
Qed.

Lemma saved_text_has_no_cr (table region : string) :
  has_char TextFile.CR table = false -> has_char TextFile.CR region = false ->
  has_char TextFile.CR (CreateTables.save_table_info table region) = false.
Proof.
  intros Ht Hr. unfold CreateTables.save_table_info.
  rewrite !has_char_app, Ht, Hr. reflexivity.
Qed.

(** C8, as stated, fails: a table name with a carriage return holds no
    ['='] and no line feed, yet it comes back cut at the carriage return,
    which the reading script receives as a line feed. *)
Lemma C8_carriage_return_is_read_as_newline :
  has_char EQ Samples.table_with_cr = false /\
  has_char LF Samples.table_with_cr = false /\
  StreamSyncMain.load
    (TextFile.read_text
       (TextFile.write_text TextFile.Posix
          (CreateTables.save_table_info Samples.table_with_cr "us-east-1"))) =
    Ret (Vars (Some "a") (Some "us-east-1")) /\
  "a" <> Samples.table_with_cr.
Proof. split; [|split; [|split]]; [reflexivity..|discriminate]. Qed.

(** C8, amended: for a table name and a region without ['='], without
    line feed and without carriage return, the file the create-tables
    script saves is parsed by the stream-sync script back to the same two
    values, whatever the line separator of the platform. *)
Theorem C8_table_info_round_trip (p : TextFile.platform) (table region : string) :
  has_char EQ table = false -> has_char LF table = false ->
  has_char TextFile.CR table = false ->
  has_char EQ region = false -> has_char LF region = false ->
  has_char TextFile.CR region = false ->
  StreamSyncMain.load
    (TextFile.read_text (TextFile.write_text p (CreateTables.save_table_info table region))) =
    Ret (Vars (Some table) (Some region)).
Proof.
  intros Ht Htl Htc Hr Hrl Hrc.
  rewrite read_written_text by (by apply saved_text_has_no_cr).
  by apply saved_text_parses_back.
Qed.

Lemma C8_table_info_round_trip_witness :
  StreamSyncMain.load
    (TextFile.read_text (TextFile.write_text TextFile.Windows CreateTables.main_saved_file)) =
    Ret (Vars (Some "migration-demo-user-data") (Some "us-east-1")).
Proof.
  apply (C8_table_info_round_trip TextFile.Windows
           CreateTables.source_table CreateTables.source_region);
    reflexivity.
Defined.

End ConfigTheorems.

(** ** The bulk migrator *)

Section MigratorTheorems.
Import BulkMigration.

Variable prov : provider.

(** What one call does to the statistics and to the record of calls. *)
Lemma copy_cases (obj : obj_info) (tc : target_config) (st : state) :
  let s := st_stats st in
  let calls := st_calls st ++ [(obj, tc)] in
  (copies (prov obj tc) = true /\
   copy_object_to_target prov obj tc st =
     (Ret true,
      State (Stats (total_objects s) (successful_copies s + 1) (failed_copies s)
                   (bytes_transferred s + size obj) (errors s)) calls)) \/
  (exists code text,
     prov obj tc = Raise (ClientError code text) /\
     copy_object_to_target prov obj tc st =
       (Ret false,
        State (Stats (total_objects s) (successful_copies s) (failed_copies s + 1)
                     (bytes_transferred s) (errors s ++ [error_msg obj tc text])) calls)) \/
  (exists e,
     settles (prov obj tc) = false /\
     copy_object_to_target prov obj tc st = (Raise e, State s calls)).
Proof.
  unfold copy_object_to_target.
  destruct (prov obj tc) as [[]|[code text| |name|text]]; simpl; eauto 10.
Qed.

(** The counters after a sequence of calls, from any starting state. *)
Lemma call_sequence_counters (calls : list (obj_info * target_config)) (st : state) :
  let rs := fst (call_sequence prov calls st) in
  let s := st_stats st in
  let s' := st_stats (snd (call_sequence prov calls st)) in
  successful_copies s' + failed_copies s' =
    successful_copies s + failed_copies s + Z.of_nat (length (List.filter completed rs)) /\
  bytes_transferred s' = bytes_transferred s + sum_sizes (List.filter succeeded rs) /\
  failed_copies s' - failed_copies s =
    Z.of_nat (length (errors s')) - Z.of_nat (length (errors s)).
Proof.
  revert st. induction calls as [|[obj tc] rest IH]; intros st; cbn zeta.
  - simpl. lia.
  - simpl.
    destruct (copy_cases obj tc st) as [[_ E]|[(code & text & _ & E)|(e & _ & E)]];
      rewrite E; clear E;
      match goal with |- context [call_sequence prov rest ?st1] =>
        specialize (IH st1); destruct (call_sequence prov rest st1) as [rs st2]
      end; simpl in *; rewrite ?length_app in *; simpl in *;
      lia.
Qed.

(** C9: after any sequence of [copy_object_to_target] calls on a fresh
    migrator, the successes and failures counted add up to the number of
    calls that completed, the bytes counted are the sizes of the objects
    whose copy succeeded, and there is one recorded error per failure. *)
Theorem C9_statistics_invariant (calls : list (obj_info * target_config)) :
  let history := fst (call_sequence prov calls init_state) in
  let s := st_stats (snd (call_sequence prov calls init_state)) in
  successful_copies s + failed_copies s = Z.of_nat (length (List.filter completed history)) /\
  bytes_transferred s = sum_sizes (List.filter succeeded history) /\
  Z.of_nat (length (errors s)) = failed_copies s.
Proof.
  pose proof (call_sequence_counters calls init_state) as H.
  cbn zeta in *. simpl in H. lia.
Qed.

End MigratorTheorems.

Section MigrationRun.
Import BulkMigration.

Variable prov : provider.

Lemma all_app (a b : list bool) : all (a ++ b) = all a && all b.
Proof. unfold all. apply forallb_app. Qed.


(** A call returns [True] exactly when the provider's copy went through. *)
Lemma copy_returns_true_iff (obj : obj_info) (tc : target_config) (st : state) :
  fst (copy_object_to_target prov obj tc st) = Ret true <-> copies (prov obj tc) = true.
Proof.
  unfold copy_object_to_target, copies.
  destruct (prov obj tc) as [[]|[code text| |name|text]]; simpl; split; congruence.
Qed.



(** An exception that [copy_object_to_target] does not catch ends the
    loop at that target: the later targets are not tried, and the
    exception leaves [migrate_object_to_all_targets]. *)
Lemma migrate_stops_at_uncaught
    (tc : target_config) (rest : list target_config) (obj : obj_info) (st : state) :
  settles (prov obj tc) = false ->
  exists e,
    fst (migrate_object_to_all_targets prov (tc :: rest) obj st) = Raise e /\
    st_calls (snd (migrate_object_to_all_targets prov (tc :: rest) obj st)) =
      st_calls st ++ [(obj, tc)].
Proof.
  intros H. unfold migrate_object_to_all_targets. simpl.
  destruct (copy_cases prov obj tc st) as [[Hc E]|[(code & text & Hp & E)|(e & Hs & E)]].
  - unfold settles, copies in *. destruct (prov obj tc); discriminate.
  - rewrite Hp in H. discriminate.
  - rewrite E. exists e. split; reflexivity.
Qed.

Lemma list_all_objects_calls (events : list page_event) (st : state) :
  st_calls (snd (list_all_objects events st)) = st_calls st.
Proof.
  unfold list_all_objects.
  destruct (collect_pages events []) as [objs|[code text| |name|text]]; reflexivity.
Qed.

(** C1: [run_migration] returns [True] exactly when the listing gave at
    least one object and, once every task has run, [failed_copies] is
    zero, however the pool schedules the tasks.  With an empty listing it
    returns [False] and no copy has been tried; a [ClientError] during the
    listing is an empty listing.  It returns whenever the listing does. *)
Theorem C1_run_migration_result
    (events : list page_event) (targets : list target_config)
    (schedule : list nat) (st : state) :
  let listed := fst (list_all_objects events st) in
  let result := fst (run_migration events prov targets schedule st) in
  let final := snd (run_migration events prov targets schedule st) in
  (result = Ret true <->
     exists objects, listed = Ret objects /\ objects <> [] /\
                     failed_copies (st_stats final) = 0) /\
  (listed = Ret [] -> result = Ret false /\ st_calls final = st_calls st) /\
  (forall code text,
     collect_pages events [] = Raise (ClientError code text) -> listed = Ret []) /\
  (forall objects, listed = Ret objects -> exists b, result = Ret b).
Proof.
  cbn zeta. unfold run_migration.
  pose proof (list_all_objects_calls events st) as Hcalls.
  destruct (list_all_objects events st) as [[[|o objs]|e] st1] eqn:El; simpl in *;
    (split; [split|split; [|split]]).
  - discriminate.
  - intros (objects & H & Hne & _). injection H as <-. congruence.
  - intros _. split; [reflexivity|exact Hcalls].
  - reflexivity.
  - eauto.
  - intros H. injection H as H. apply Z.eqb_eq in H.
    exists (o :: objs). split; [reflexivity|]. split; [discriminate|exact H].
  - intros (objects & _ & _ & H). rewrite H. reflexivity.
  - discriminate.
  - intros code text Hc. unfold list_all_objects in El. rewrite Hc in El.
    discriminate.
  - eauto.
  - discriminate.
  - intros (objects & H & _). discriminate.
  - discriminate.
  - intros code text Hc. unfold list_all_objects in El. rewrite Hc in El.
    discriminate.
  - intros objects H. discriminate.
Qed.

End MigrationRun.

(** ** The validator: object store *)

Section S3Validation.
Import Validator.

Variable client : client_builder.
Variable s3 : s3_provider.

Lemma dom_foldl_add_object (contents : list s3_object) (m : gmap string object_meta) :
  dom (foldl add_object m contents) = dom m ∪ list_to_set (map Key contents).
Proof.
  revert m. induction contents as [|o cs IH]; intros m; simpl.
  - set_solver.
  - rewrite IH. unfold add_object. rewrite dom_insert_L. set_solver.
Qed.

(** The keys of the dict [_get_bucket_objects] returns are the listed
    keys. *)
Lemma dom_get_bucket_objects (events : list page_event) (m : gmap string object_meta) :
  dom (_get_bucket_objects events m) = dom m ∪ list_to_set (listed_keys events).
Proof.
  revert m. induction events as [|[[cs|]|e] rest IH]; intros m; simpl.
  - set_solver.
  - rewrite IH, dom_foldl_add_object, list_to_set_app_L. set_solver.
  - apply IH.
  - set_solver.
Qed.

Lemma get_bucket_objects_keys (events : list page_event) (k : string) :
  k ∈ dom (_get_bucket_objects events ∅) <-> k ∈ listed_keys events.
Proof. rewrite dom_get_bucket_objects. set_solver. Qed.

Lemma missing_none_iff (X Y : gset string) : size (X ∖ Y) = 0%nat <-> X ⊆ Y.
Proof.
  rewrite size_empty_iff. split.
  - intros H x Hx. destruct (decide (x ∈ Y)) as [|Hn]; [done|].
    exfalso. apply (not_elem_of_empty (C:=gset string) x), H, elem_of_difference. done.
  - set_solver.
Qed.

(** One target is reported complete exactly when no listed source key is
    absent from it. *)
Lemma check_target_complete (source_objects : gmap string object_meta)
    (target : target_config) :
  tr_status (check_target s3 source_objects target) = "COMPLETE" <->
  dom source_objects ⊆
    dom (_get_bucket_objects (s3 (tc_region target) (tc_bucket target)) ∅).
Proof.
  unfold check_target. simpl. rewrite <- missing_none_iff.
  destruct (Nat.eqb_spec
    (size (dom source_objects ∖
           dom (_get_bucket_objects (s3 (tc_region target) (tc_bucket target)) ∅))) 0)
    as [E|E]; split; intros H; try done.
Qed.

Lemma check_target_missing (source_objects : gmap string object_meta)
    (target : target_config) :
  Nat.ltb 0 (tr_missing (check_target s3 source_objects target)) = false <->
  tr_status (check_target s3 source_objects target) = "COMPLETE".
Proof.
  unfold check_target. simpl.
  destruct (size _) as [|n]; simpl; split; intros H; done.
Qed.

(** The loop returns exactly when the client of every target is built. *)
Lemma check_targets_returns (source_objects : gmap string object_meta)
    (targets : list target_config) (report : gmap string target_report) (valid : bool) :
  (exists b, snd (check_targets client s3 source_objects targets report valid) = Ret b) <->
  forallb (fun t => builds (client "s3" (tc_region t))) targets = true.
Proof.
  revert report valid. induction targets as [|t rest IH]; intros report valid;
    cbn [check_targets forallb].
  - simpl. split; eauto.
  - destruct (client "s3" (tc_region t)) as [[]|e]; cbn [builds andb snd].
    + apply IH.
    + split; [intros [b H]|intros H]; discriminate.
Qed.

(** The flag the loop returns. *)
Lemma check_targets_flag (source_objects : gmap string object_meta)
    (targets : list target_config) (report : gmap string target_report) (valid : bool) :
  snd (check_targets client s3 source_objects targets report valid) = Ret true <->
  valid = true /\
  forallb (fun t => builds (client "s3" (tc_region t))) targets = true /\
  forall t, t ∈ targets -> tr_status (check_target s3 source_objects t) = "COMPLETE".
Proof.
  revert report valid. induction targets as [|t rest IH]; intros report valid;
    cbn [check_targets forallb].
  - cbn [snd]. split.
    + intros H. injection H as ->. split; [done|]. split; [done|].
      intros t Ht. by apply elem_of_nil in Ht.
    + intros [-> _]. reflexivity.
  - destruct (client "s3" (tc_region t)) as [[]|e]; cbn [builds andb snd].
    + rewrite IH. split.
      * intros [Hv [Hb Hall]].
        destruct (Nat.ltb 0 (tr_missing (check_target s3 source_objects t))) eqn:E;
          simpl in Hv; [discriminate|].
        split; [exact Hv|]. split; [exact Hb|].
        intros t' Ht'. apply elem_of_cons in Ht' as [->|Ht'].
        -- by apply check_target_missing.
        -- by apply Hall.
      * intros [-> [Hb Hall]]. split; [|split; [exact Hb|]].
        -- assert (Ht : t ∈ t :: rest) by apply list_elem_of_here.
           apply Hall, check_target_missing in Ht. by rewrite Ht.
        -- intros t' Ht'. apply Hall. by apply list_elem_of_further.
    + split; [discriminate|]. intros [_ [H _]]. discriminate.
Qed.

(** Buckets that are no target keep their entry. *)
Lemma check_targets_other (source_objects : gmap string object_meta)
    (targets : list target_config) (report : gmap string target_report) (valid : bool)
    (b : string) :
  b ∉ map tc_bucket targets ->
  fst (check_targets client s3 source_objects targets report valid) !! b = report !! b.
Proof.
  revert report valid. induction targets as [|t rest IH]; intros report valid Hb;
    cbn [check_targets].
  - reflexivity.
  - simpl in Hb. apply not_elem_of_cons in Hb as [Hne Hb].
    destruct (client "s3" (tc_region t)) as [[]|e]; [|reflexivity].
    rewrite IH by exact Hb. by apply lookup_insert_ne.
Qed.

(** With distinct target buckets and clients that are built, each
    target's entry is its own report. *)
Lemma check_targets_report (source_objects : gmap string object_meta)
    (targets : list target_config) (report : gmap string target_report) (valid : bool) :
  NoDup (map tc_bucket targets) ->
  forallb (fun t => builds (client "s3" (tc_region t))) targets = true ->
  forall t, t ∈ targets ->
    fst (check_targets client s3 source_objects targets report valid) !! tc_bucket t =
    Some (check_target s3 source_objects t).
Proof.
  revert report valid. induction targets as [|t rest IH];
    intros report valid Hnd Hb t' Ht'; cbn [check_targets].
  - by apply elem_of_nil in Ht'.
  - simpl in Hnd. apply NoDup_cons in Hnd as [Hfresh Hnd].
    cbn [forallb] in Hb. apply andb_true_iff in Hb as [Hbt Hb].
    destruct (client "s3" (tc_region t)) as [[]|e]; [|discriminate].
    apply elem_of_cons in Ht' as [->|Ht'].
    + rewrite check_targets_other by exact Hfresh. apply lookup_insert_eq.
    + by apply IH.
Qed.

(** With distinct target buckets, a loop that an exception ended has left
    some target without an entry. *)
Lemma check_targets_raised (source_objects : gmap string object_meta)
    (targets : list target_config) (report : gmap string target_report) (valid : bool)
    (e : exn) :
  NoDup (map tc_bucket targets) ->
  (forall t, t ∈ targets -> report !! tc_bucket t = None) ->
  snd (check_targets client s3 source_objects targets report valid) = Raise e ->
  exists t, t ∈ targets /\
    fst (check_targets client s3 source_objects targets report valid) !! tc_bucket t = None.
Proof.
  revert report valid. induction targets as [|t rest IH];
    intros report valid Hnd Hfree; cbn [check_targets].
  - discriminate.
  - simpl in Hnd. apply NoDup_cons in Hnd as [Hfresh Hnd].
    destruct (client "s3" (tc_region t)) as [[]|e'].
    + intros H. edestruct IH as (t' & Ht' & Hnone); [exact Hnd| |exact H|].
      * intros t' Ht'. rewrite lookup_insert_ne.
        -- apply Hfree. by apply list_elem_of_further.
        -- intros Heq. apply Hfresh. rewrite Heq.
           change (map tc_bucket rest) with (tc_bucket <$> rest).
           by apply list_elem_of_fmap_2.
      * exists t'. split; [by apply list_elem_of_further|exact Hnone].
    + intros _. exists t. split; [apply list_elem_of_here|].
      apply Hfree, list_elem_of_here.
Qed.

(** What the function stores and returns when the loop returns. *)
Lemma validate_when_clients_build (c : config) (region : string) :
  source_region c = Some region ->
  clients_build client c = true ->
  let src := _get_bucket_objects (s3 region (source_bucket c)) ∅ in
  exists valid,
    snd (check_targets client s3 src (s3_targets c) ∅ true) = Ret valid /\
    validate_s3_bulk_migration client s3 c =
      (S3Results (Some (size src))
                 (fst (check_targets client s3 src (s3_targets c) ∅ true))
                 (if valid then "COMPLETE" else "INCOMPLETE"),
       valid).
Proof.
  intros Hreg Hb. cbn zeta. unfold clients_build in Hb. rewrite Hreg in Hb.
  apply andb_true_iff in Hb as [Hsrc Htargets].
  unfold validate_s3_bulk_migration. rewrite Hreg.
  destruct (client "s3" region) as [[]|e]; [|discriminate].
  destruct (proj2 (check_targets_returns
                     (_get_bucket_objects (s3 region (source_bucket c)) ∅)
                     (s3_targets c) ∅ true) Htargets) as [valid Hv].
  exists valid.
  destruct (check_targets client s3 _ (s3_targets c) ∅ true) as [report r].
  simpl in *. subst r. split; reflexivity.
Qed.

(** A client that cannot be built, or a region that was never read, gives
    the status ERROR and the result [False]. *)
Lemma validate_without_clients (c : config) :
  clients_build client c = false ->
  s3_status (fst (validate_s3_bulk_migration client s3 c)) = "ERROR" /\
  snd (validate_s3_bulk_migration client s3 c) = false.
Proof.
  intros Hb. unfold clients_build in Hb. unfold validate_s3_bulk_migration.
  destruct (source_region c) as [region|]; [|split; reflexivity].
  destruct (client "s3" region) as [[]|e]; [|split; reflexivity].
  simpl in Hb.
  pose proof (check_targets_returns
                (_get_bucket_objects (s3 region (source_bucket c)) ∅)
                (s3_targets c) ∅ true) as Hret.
  destruct (check_targets client s3 _ (s3_targets c) ∅ true) as [report [valid|e]].
  - simpl in Hret. rewrite Hb in Hret.
    assert (H : false = true) by (apply Hret; eauto). discriminate.
  - split; reflexivity.
Qed.

(** C3, amended: when the target buckets have distinct names, and a
    client can be built for the source region and for the region of every
    target, a target bucket is marked COMPLETE exactly when every key
    listed in the source bucket is among the keys listed in the target
    (keys that only the target has play no part).  With distinct names
    the function returns [True] exactly when every target bucket is
    marked COMPLETE.  When the source region is unbound or a client
    cannot be built, the status is ERROR and the function returns
    [False]. *)
Theorem C3_complete_iff_no_source_key_missing (c : config) :
  NoDup (map tc_bucket (s3_targets c)) ->
  s3_targets c <> [] ->
  let results := fst (validate_s3_bulk_migration client s3 c) in
  let returned := snd (validate_s3_bulk_migration client s3 c) in
  (clients_build client c = true ->
   forall region t,
     source_region c = Some region -> t ∈ s3_targets c ->
     (marked_complete results t <->
      forall k, k ∈ listed_keys (s3 region (source_bucket c)) ->
                k ∈ listed_keys (s3 (tc_region t) (tc_bucket t)))) /\
  (returned = true <-> forall t, t ∈ s3_targets c -> marked_complete results t) /\
  (clients_build client c = false -> s3_status results = "ERROR" /\ returned = false).
Proof.
  intros Hnd Hne. cbn zeta.
  split; [|split; [|apply validate_without_clients]].
  - intros Hb region t Hreg Ht.
    destruct (validate_when_clients_build c region Hreg Hb) as (valid & Hv & ->).
    cbn zeta in *. unfold clients_build in Hb. rewrite Hreg in Hb.
    apply andb_true_iff in Hb as [_ Hb].
    unfold marked_complete. cbn [fst s3_targets_report].
    rewrite (check_targets_report _ _ ∅ true Hnd Hb t Ht).
    transitivity (tr_status (check_target s3
                    (_get_bucket_objects (s3 region (source_bucket c)) ∅) t) = "COMPLETE").
    { split; [intros (r & Hr & Hs); by injection Hr as <-|eauto]. }
    rewrite check_target_complete. split.
    + intros Hsub k Hk. apply get_bucket_objects_keys, Hsub, get_bucket_objects_keys, Hk.
    + intros Hsub k Hk. apply get_bucket_objects_keys, Hsub, get_bucket_objects_keys, Hk.
  - assert (Hnone : forall results : s3_results,
              s3_targets_report results = ∅ ->
              ~ (forall t, t ∈ s3_targets c -> marked_complete results t)).
    { intros results Hempty Hall. destruct (s3_targets c) as [|t rest]; [done|].
      destruct (Hall t (list_elem_of_here _ _)) as (r & Hr & _).
      rewrite Hempty, lookup_empty in Hr. discriminate. }
    unfold validate_s3_bulk_migration.
    destruct (source_region c) as [region|];
      [|split; [discriminate|]; intros H; by apply Hnone in H].
    destruct (client "s3" region) as [[]|e];
      [|split; [discriminate|]; intros H; by apply Hnone in H].
    set (src := _get_bucket_objects (s3 region (source_bucket c)) ∅).
    pose proof (check_targets_flag src (s3_targets c) ∅ true) as Hflag.
    pose proof (check_targets_returns src (s3_targets c) ∅ true) as Hret.
    pose proof (check_targets_report src (s3_targets c) ∅ true Hnd) as Hrep.
    pose proof (fun e => check_targets_raised src (s3_targets c) ∅ true e Hnd
                           (fun t _ => lookup_empty (tc_bucket t))) as Hraised.
    destruct (check_targets client s3 src (s3_targets c) ∅ true) as [report [valid|e]];
      cbn [fst snd] in *.
    + assert (Hb : forallb (fun t => builds (client "s3" (tc_region t))) (s3_targets c) = true)
        by (apply Hret; eauto).
      specialize (Hrep Hb). unfold marked_complete. cbn [s3_targets_report]. split.
      * intros ->. destruct (proj1 Hflag eq_refl) as (_ & _ & Hall).
        intros t Ht. rewrite (Hrep t Ht). eauto.
      * intros Hall. assert (H : Ret valid = Ret true); [|by injection H].
        apply Hflag. split; [done|]. split; [exact Hb|].
        intros t Ht. destruct (Hall t Ht) as (r & Hr & Hs).
        rewrite (Hrep t Ht) in Hr. by injection Hr as <-.
    + split; [discriminate|]. intros Hall.
      destruct (Hraised e eq_refl) as (t & Ht & Hnone').
      destruct (Hall t Ht) as (r & Hr & _). cbn [s3_targets_report] in Hr.
      rewrite Hnone' in Hr. discriminate.
Qed.

End S3Validation.

Section S3ValidationRun.
Import Validator Samples.

Example load_configuration_sample :
  load_configuration Config.file_plain dynamodb_file = Some loaded.
Proof. reflexivity. Qed.

(** C3, as stated, fails: the source bucket name does not contain
    [source], so both targets carry the name of the source bucket and
    share one entry of the report.  The target in us-west-2 lacks a key
    and the function returns [False], but the entry is overwritten by the
    target in eu-west-1: every target bucket is marked COMPLETE, among
    them one that lacks a key of the source. *)
Lemma C3_shared_bucket_name_hides_missing_key :
  load_configuration file_other_name dynamodb_file = Some loaded_other_name /\
  (forall t, t ∈ s3_targets loaded_other_name ->
     marked_complete
       (fst (validate_s3_bulk_migration any_region s3_west_behind loaded_other_name)) t) /\
  snd (validate_s3_bulk_migration any_region s3_west_behind loaded_other_name) = false /\
  "data/b.txt" ∈ listed_keys (s3_west_behind "us-east-1" "my-data-bucket") /\
  "data/b.txt" ∉ listed_keys (s3_west_behind "us-west-2" "my-data-bucket").
Proof.
  split; [reflexivity|]. split; [|split; [reflexivity|split]].
  - intros t Ht. unfold marked_complete.
    exists (TargetReport 2 0 "COMPLETE"). split; [|reflexivity].
    apply elem_of_cons in Ht as [->|Ht]; [reflexivity|].
    apply list_elem_of_singleton in Ht as ->. reflexivity.
  - simpl. apply list_elem_of_further, list_elem_of_here.
  - simpl. intros H. apply list_elem_of_singleton in H. discriminate.
Qed.

(** On the sample store us-west-2 is marked COMPLETE although it holds an
    extra object, eu-west-1 is not, and the function returns [False]. *)
Lemma C3_complete_iff_no_source_key_missing_witness :
  NoDup (map tc_bucket (s3_targets loaded)) /\
  s3_targets loaded <> [] /\
  clients_build any_region loaded = true /\
  marked_complete (fst (validate_s3_bulk_migration any_region s3_west_complete loaded)) west /\
  ~ marked_complete
      (fst (validate_s3_bulk_migration any_region s3_west_complete loaded)) europe /\
  snd (validate_s3_bulk_migration any_region s3_west_complete loaded) = false.
Proof.
  assert (Hnd : NoDup (map tc_bucket (s3_targets loaded))).
  { simpl. apply NoDup_cons. split; [|apply NoDup_singleton].
    intros H. apply list_elem_of_singleton in H. discriminate. }
  assert (Hne : s3_targets loaded <> []) by discriminate.
  destruct (C3_complete_iff_no_source_key_missing any_region s3_west_complete loaded Hnd Hne)
    as (Hmark & Hret & _).
  assert (Hb : clients_build any_region loaded = true) by reflexivity.
  specialize (Hmark Hb).
  assert (Hwest : west ∈ s3_targets loaded) by (simpl; apply list_elem_of_here).
  assert (Heurope : europe ∈ s3_targets loaded)
    by (simpl; apply list_elem_of_further, list_elem_of_here).
  assert (Hno : ~ marked_complete
                  (fst (validate_s3_bulk_migration any_region s3_west_complete loaded))
                  europe).
  { intros H0. pose proof (proj1 (Hmark "us-east-1" europe eq_refl Heurope) H0) as H.
    specialize (H "data/b.txt"). simpl in H.
    assert (Hk : "data/b.txt" ∈ ["data/a.txt"; "data/b.txt"])
      by apply list_elem_of_further, list_elem_of_here.
    apply H, list_elem_of_singleton in Hk. discriminate. }
  split; [exact Hnd|]. split; [exact Hne|]. split; [exact Hb|].
  split; [|split; [exact Hno|]].
  - apply (proj2 (Hmark "us-east-1" west eq_refl Hwest)). simpl. intros k Hk.
    apply elem_of_cons in Hk as [->|Hk]; [|apply list_elem_of_singleton in Hk as ->].
    + apply list_elem_of_further, list_elem_of_further, list_elem_of_here.
    + apply list_elem_of_further, list_elem_of_here.
  - destruct (snd (validate_s3_bulk_migration any_region s3_west_complete loaded));
      [|reflexivity].
    exfalso. apply Hno. apply (proj1 Hret); [reflexivity|exact Heurope].
Defined.

End S3ValidationRun.

(** ** The validator: table service *)

Section DynamoValidation.
Import Validator.

Context {Item : Type}.
Variable db : dynamodb_provider Item.

Lemma check_tables_flag (n : nat) (targets : list target_config)
    (report : gmap string table_report) (ok : bool) :
  snd (check_tables db n targets report ok) = true <->
  ok = true /\ forall t, t ∈ targets -> target_synced db n t = true.
Proof.
  revert report ok. induction targets as [|t rest IH]; intros report ok;
    cbn [check_tables snd].
  - split; [intros ->; split; [done|]; intros t Ht; by apply elem_of_nil in Ht|tauto].
  - assert (Hstep : forall t', t' ∈ t :: rest <-> t' = t \/ t' ∈ rest)
      by (intros t'; apply elem_of_cons).
    unfold target_synced in *.
    destruct (db (tc_region t) (tc_bucket t)) as [items|e] eqn:E; rewrite IH.
    + destruct (Nat.eqb (length items) n) eqn:En; simpl; split.
      * intros [-> Hall]. split; [done|]. intros t' [->|Ht']%Hstep; [by rewrite E|auto].
      * intros [-> Hall]. split; [done|]. intros t' Ht'. apply Hall, Hstep. auto.
      * intros [? _]. discriminate.
      * intros [_ Hall]. specialize (Hall t (proj2 (Hstep t) (or_introl eq_refl))).
        rewrite E, En in Hall. discriminate.
    + split.
      * intros [? _]. discriminate.
      * intros [_ Hall]. specialize (Hall t (proj2 (Hstep t) (or_introl eq_refl))).
        rewrite E in Hall. discriminate.
Qed.

Lemma check_tables_other (n : nat) (targets : list target_config)
    (report : gmap string table_report) (ok : bool) (b : string) :
  b ∉ map tc_bucket targets ->
  fst (check_tables db n targets report ok) !! b = report !! b.
Proof.
  revert report ok. induction targets as [|t rest IH]; intros report ok Hb;
    cbn [check_tables]; [reflexivity|].
  simpl in Hb. apply not_elem_of_cons in Hb as [Hne Hb].
  destruct (db (tc_region t) (tc_bucket t)) as [items|e].
  - rewrite IH by exact Hb. by apply lookup_insert_ne.
  - by apply IH.
Qed.

(** With distinct target tables, a target has an entry exactly when its
    scan returned, and the entry holds its own count and status. *)
Lemma check_tables_report (n : nat) (targets : list target_config)
    (report : gmap string table_report) (ok : bool) :
  NoDup (map tc_bucket targets) ->
  forall t, t ∈ targets ->
    fst (check_tables db n targets report ok) !! tc_bucket t =
    match db (tc_region t) (tc_bucket t) with
    | Ret items =>
        Some (TableReport (length items)
                (if Nat.eqb (length items) n then "SYNCED" else "OUT_OF_SYNC"))
    | Raise _ => report !! tc_bucket t
    end.
Proof.
  revert report ok. induction targets as [|t rest IH];
    intros report ok Hnd t' Ht'; cbn [check_tables].
  - by apply elem_of_nil in Ht'.
  - simpl in Hnd. apply NoDup_cons in Hnd as [Hfresh Hnd].
    apply elem_of_cons in Ht' as [->|Ht'].
    + destruct (db (tc_region t) (tc_bucket t)) as [items|e].
      * rewrite check_tables_other by exact Hfresh. apply lookup_insert_eq.
      * by apply check_tables_other.
    + assert (Hne : tc_bucket t <> tc_bucket t').
      { intros Heq. apply Hfresh. rewrite Heq.
        apply list_elem_of_In, in_map, list_elem_of_In, Ht'. }
      destruct (db (tc_region t) (tc_bucket t)) as [items|e].
      * rewrite (IH _ _ Hnd t' Ht').
        destruct (db (tc_region t') (tc_bucket t')); [reflexivity|].
        by apply lookup_insert_ne.
      * by apply IH.
Qed.

End DynamoValidation.

Section DynamoValidationRun.
Import Validator.

Context {Item : Type}.
Variable db : dynamodb_provider Item.

Lemma marked_synced_empty (count : option nat) (status : string) (t : target_config) :
  ~ marked_synced (DynamoResults count ∅ status) t.
Proof. intros (r & Hr & _). simpl in Hr. by rewrite lookup_empty in Hr. Qed.

(** C4: a target table is marked SYNCED exactly when its scan returned as
    many items as the scan of the source table, and the function returns
    [True] exactly when every target table is marked SYNCED and no scan
    of a target raised.  The target tables are the (distinct) configured
    ones. *)
Theorem C4_synced_iff_counts_equal (c : config) :
  NoDup (map tc_bucket (dynamodb_targets c)) ->
  dynamodb_targets c <> [] ->
  let results := fst (validate_dynamodb_sync db c) in
  let returned := snd (validate_dynamodb_sync db c) in
  (forall t, t ∈ dynamodb_targets c ->
     (marked_synced results t <->
      exists region table source_items target_items,
        source_region c = Some region /\ source_table c = Some table /\
        db region table = Ret source_items /\
        db (tc_region t) (tc_bucket t) = Ret target_items /\
        length target_items = length source_items)) /\
  (returned = true <->
     (forall t, t ∈ dynamodb_targets c -> marked_synced results t) /\
     (forall t, t ∈ dynamodb_targets c ->
        exists target_items, db (tc_region t) (tc_bucket t) = Ret target_items)).
Proof.
  intros Hnd Hne. cbn zeta. unfold validate_dynamodb_sync.
  assert (Herr : forall count status,
    (forall t, t ∈ dynamodb_targets c ->
               marked_synced (DynamoResults count ∅ status) t) -> False).
  { intros count status Hall. destruct (dynamodb_targets c) as [|t rest]; [done|].
    apply (marked_synced_empty count status t), Hall, list_elem_of_here. }
  destruct (source_region c) as [region|];
    [destruct (source_table c) as [table|];
     [destruct (db region table) as [source_items|e] eqn:Esrc|]|].
  - pose proof (check_tables_report db (length source_items) (dynamodb_targets c)
                  ∅ true Hnd) as Hrep.
    pose proof (check_tables_flag db (length source_items) (dynamodb_targets c)
                  ∅ true) as Hflag.
    destruct (check_tables db (length source_items) (dynamodb_targets c) ∅ true)
      as [report ok]. simpl in *.
    assert (Hmark : forall t, t ∈ dynamodb_targets c ->
              (marked_synced
                 (DynamoResults (Some (length source_items)) report
                                (if ok then "SYNCED" else "OUT_OF_SYNC")) t <->
               target_synced db (length source_items) t = true)).
    { intros t Ht. unfold marked_synced, target_synced. simpl. rewrite (Hrep t Ht).
      destruct (db (tc_region t) (tc_bucket t)) as [items|e].
      - destruct (Nat.eqb (length items) (length source_items)); split.
        + done.
        + intros _. eauto.
        + intros (r & Hr & Hs). injection Hr as <-. discriminate.
        + discriminate.
      - rewrite lookup_empty. split; [intros (r & Hr & _)|]; discriminate. }
    split.
    + intros t Ht. rewrite (Hmark t Ht). unfold target_synced. split.
      * destruct (db (tc_region t) (tc_bucket t)) as [items|e] eqn:Et; [|discriminate].
        intros Hn%Nat.eqb_eq. exists region, table, source_items, items. done.
      * intros (region' & table' & src & tgt & Hr & Ht' & Hs & Htgt & Hlen).
        injection Hr as <-. injection Ht' as <-.
        rewrite Esrc in Hs. injection Hs as <-.
        rewrite Htgt. by apply Nat.eqb_eq.
    + rewrite Hflag. split.
      * intros [_ Hall]. split.
        -- intros t Ht. apply (Hmark t Ht), Hall, Ht.
        -- intros t Ht. specialize (Hall t Ht). unfold target_synced in Hall.
           destruct (db (tc_region t) (tc_bucket t)) as [items|e]; [eauto|discriminate].
      * intros [Hall _]. split; [done|]. intros t Ht. apply (Hmark t Ht), Hall, Ht.
  - split.
    + intros t Ht. split.
      * intros H. by apply marked_synced_empty in H.
      * intros (region' & table' & src & tgt & Hr & Ht' & Hs & _).
        injection Hr as <-. injection Ht' as <-. rewrite Esrc in Hs. discriminate.
    + split; [discriminate|]. intros [Hall _]. exfalso. eapply Herr, Hall.
  - split.
    + intros t Ht. split.
      * intros H. by apply marked_synced_empty in H.
      * intros (region' & table' & src & tgt & _ & Ht' & _). discriminate.
    + split; [discriminate|]. intros [Hall _]. exfalso. eapply Herr, Hall.
  - split.
    + intros t Ht. split.
      * intros H. by apply marked_synced_empty in H.
      * intros (region' & table' & src & tgt & Hr & _). discriminate.
    + split; [discriminate|]. intros [Hall _]. exfalso. eapply Herr, Hall.
Qed.

End DynamoValidationRun.

Section DynamoValidationSample.
Import Validator Samples.

(** On the sample tables us-west-2 is marked SYNCED, eu-west-1 is not,
    and the function returns [False]. *)
Lemma C4_synced_iff_counts_equal_witness :
  NoDup (map tc_bucket (dynamodb_targets loaded)) /\
  dynamodb_targets loaded <> [] /\
  marked_synced (fst (validate_dynamodb_sync tables_west_synced loaded))
    (TargetConfig "migration-demo-target-us-west-2-user-data" "us-west-2") /\
  snd (validate_dynamodb_sync tables_west_synced loaded) = false /\
  snd (validate_dynamodb_sync tables_all_synced loaded) = true.
Proof.
  assert (Hnd : NoDup (map tc_bucket (dynamodb_targets loaded))).
  { simpl. apply NoDup_cons. split; [|apply NoDup_singleton].
    intros H. apply list_elem_of_singleton in H. discriminate. }
  assert (Hne : dynamodb_targets loaded <> []) by discriminate.
  destruct (C4_synced_iff_counts_equal tables_west_synced loaded Hnd Hne)
    as [Hmark Hret].
  split; [exact Hnd|]. split; [exact Hne|]. split; [|split].
  - apply (proj2 (Hmark _ (list_elem_of_here _ _))).
    exists "us-east-1", "migration-demo-user-data", [1%nat; 2%nat], [1%nat; 2%nat].
    repeat split.
  - destruct (snd (validate_dynamodb_sync tables_west_synced loaded)); [|reflexivity].
    exfalso. destruct (proj1 Hret eq_refl) as [Hall _].
    assert (Heu : TargetConfig "migration-demo-target-eu-west-1-user-data" "eu-west-1"
                    ∈ dynamodb_targets loaded)
      by (simpl; apply list_elem_of_further, list_elem_of_here).
    destruct (proj1 (Hmark _ Heu) (Hall _ Heu))
      as (region & table & src & tgt & Hr & Ht & Hs & Htgt & Hlen).
    injection Hr as <-. injection Ht as <-.
    injection Hs as <-. injection Htgt as <-. discriminate.
  - reflexivity.
Defined.

End DynamoValidationSample.

(** ** Expected error codes *)

Section ErrorCodes.



(** The handlers take provider errors only: any other exception raised
    while deleting leaves [delete_all_object_versions], and so does one
    raised by [get_role] inside the handler of
    [create_replication_role]; [create_dynamodb_table] turns every
    exception into [False]. *)
Lemma other_exceptions (text : string) :
  (forall p, CreateTable.try_block p = Raise (OtherException text) ->
             CreateTable.create_dynamodb_table p = false) /\
  (forall p bucket log,
     Cleanup.try_block p bucket = (Raise (OtherException text), log) ->
     Cleanup.delete_all_object_versions p bucket = (Raise (OtherException text), log)) /\
  (forall p code text' e,
     ReplicationRole.try_block p = Raise (ClientError code text') ->
     code = "EntityAlreadyExists" ->
     ReplicationRole.get_role p = Raise e ->
     ReplicationRole.create_replication_role p = Raise e).
Proof.
  split; [|split].
  - intros p H. unfold CreateTable.create_dynamodb_table. by rewrite H.
  - intros p bucket log H. unfold Cleanup.delete_all_object_versions. by rewrite H.
  - intros p code text' e H -> Hg. unfold ReplicationRole.create_replication_role.
    rewrite H, Hg. reflexivity.
Qed.

End ErrorCodes.

(** ** Floats to Decimals *)

Section Conversion.
Import StreamSync.

(** Induction over values, with the hypothesis for every value held by
    a dict or a list. *)
Lemma value_deep_ind (P : value -> Prop) :
  (forall entries, Forall (fun kv => P (snd kv)) entries -> P (VDict entries)) ->
  (forall elems, Forall P elems -> P (VList elems)) ->
  (forall v, is_dict v = false -> is_list v = false -> P v) ->
  forall v, P v.
Proof.
  intros Hdict Hlist Hleaf. fix rec 1. intros [entries|elems|x|d|s|n|b| |elems].
  - apply Hdict. induction entries as [|kv entries IH]; constructor; [apply rec|exact IH].
  - apply Hlist. induction elems as [|v elems IH]; constructor; [apply rec|exact IH].
  - by apply Hleaf.
  - by apply Hleaf.
  - by apply Hleaf.
  - by apply Hleaf.
  - by apply Hleaf.
  - by apply Hleaf.
  - by apply Hleaf.
Qed.

Lemma convert_leaf (v : value) :
  is_dict v = false -> is_list v = false -> is_float v = false ->
  _convert_floats_to_decimal v = v.
Proof. destruct v; simpl; intros; done. Qed.

Lemma convert_idempotent (v : value) :
  _convert_floats_to_decimal (_convert_floats_to_decimal v) =
  _convert_floats_to_decimal v.
Proof.
  induction v as [entries IH|elems IH|v Hd Hl] using value_deep_ind.
  - simpl. f_equal. rewrite List.map_map. apply List.map_ext_Forall.
    eapply Forall_impl; [exact IH|]. intros kv H. simpl in *. by rewrite H.
  - simpl. f_equal. rewrite List.map_map. apply List.map_ext_Forall. exact IH.
  - destruct v; try done.
Qed.

Lemma convert_no_reachable_float (v : value) :
  reachable_float (_convert_floats_to_decimal v) = false.
Proof.
  induction v as [entries IH|elems IH|v Hd Hl] using value_deep_ind.
  - simpl. induction IH as [|kv entries Hkv _ IHe]; simpl; [done|].
    by rewrite Hkv, IHe.
  - simpl. induction IH as [|x elems Hx _ IHe]; simpl; [done|].
    by rewrite Hx, IHe.
  - destruct v; try done.
Qed.

Lemma convert_same_shape (v : value) :
  same_shape v (_convert_floats_to_decimal v).
Proof.
  induction v as [entries IH|elems IH|v Hd Hl] using value_deep_ind.
  - simpl. split.
    + rewrite List.map_map. simpl. reflexivity.
    + induction IH as [|kv entries Hkv _ IHe]; simpl; [done|]. split; [exact Hkv|exact IHe].
  - simpl. induction IH as [|x elems Hx _ IHe]; simpl; [done|]. split; [exact Hx|exact IHe].
  - destruct v; try done.
Qed.

(** C10, as stated, fails: a float held by a tuple stays a float, so the
    output can contain one. *)
Lemma C10_float_in_tuple_survives :
  _convert_floats_to_decimal (VTuple [VFloat Samples.one_and_a_half]) =
    VTuple [VFloat Samples.one_and_a_half] /\
  contains_float (_convert_floats_to_decimal (VTuple [VFloat Samples.one_and_a_half])) = true.
Proof. split; reflexivity. Qed.

(** C10, amended: the function keeps the structure and is idempotent.
    For every value, the output has the same dict keys in the same
    order, the same list lengths and order, a Decimal for each float
    reached through dicts and lists, and every other leaf unchanged; a
    value that is no float, dict or list is returned as it is; the output
    has no float at a position reached through dicts and lists only; and
    converting twice equals converting once. *)
Theorem C10_structure_preserving_idempotent (v : value) :
  same_shape v (_convert_floats_to_decimal v) /\
  (forall x, v = VFloat x -> _convert_floats_to_decimal v = VDecimal (DecimalOfStr x)) /\
  (is_float v = false -> is_dict v = false -> is_list v = false ->
   _convert_floats_to_decimal v = v) /\
  (forall entries, v = VDict entries ->
     exists entries', _convert_floats_to_decimal v = VDict entries' /\
                      map fst entries' = map fst entries /\
                      map snd entries' = map _convert_floats_to_decimal (map snd entries)) /\
  (forall elems, v = VList elems ->
     _convert_floats_to_decimal v = VList (map _convert_floats_to_decimal elems) /\
     length (map _convert_floats_to_decimal elems) = length elems) /\
  reachable_float (_convert_floats_to_decimal v) = false /\
  _convert_floats_to_decimal (_convert_floats_to_decimal v) =
    _convert_floats_to_decimal v.
Proof.
  split; [apply convert_same_shape|].
  split; [intros x ->; reflexivity|].
  split; [intros Hf Hd Hl; by apply convert_leaf|].
  split.
  { intros entries ->. eexists. split; [reflexivity|].
    rewrite !List.map_map. split; reflexivity. }
  split; [intros elems ->; split; [reflexivity|apply List.length_map]|].
  split; [apply convert_no_reachable_float|apply convert_idempotent].
Qed.

Lemma C10_structure_preserving_idempotent_witness :
  _convert_floats_to_decimal (VStr "user-001") = VStr "user-001" /\
  _convert_floats_to_decimal Samples.item =
    VDict [ ("UserID", VStr "user-001");
            ("Score", VDecimal (DecimalOfStr Samples.one_and_a_half));
            ("History", VList [VDecimal (DecimalOfStr Samples.one_and_a_half); VInt 2]);
            ("Range", VTuple [VFloat Samples.one_and_a_half]) ] /\
  _convert_floats_to_decimal (_convert_floats_to_decimal Samples.item) =
    _convert_floats_to_decimal Samples.item.
Proof.
  split; [|split].
  - apply (C10_structure_preserving_idempotent (VStr "user-001")); reflexivity.
  - reflexivity.
  - apply (C10_structure_preserving_idempotent Samples.item).
Defined.

End Conversion.

(** ** Sample runs of the migrator *)

Section MigratorSamples.
Import BulkMigration Samples.



(** The tasks one after the other. *)
Example run_all_copied :
  run_migration two_pages provider_ok [west; europe] [] init_state =
    (Ret true,
     State (Stats 2 4 0 84 [])
           [(obj_a, west); (obj_a, europe); (obj_b, west); (obj_b, europe)]).
Proof. reflexivity. Qed.

(** Two workers taking turns: the calls of the two objects interleave,
    the counters are the same. *)
Example run_all_copied_interleaved :
  run_migration two_pages provider_ok [west; europe] [0; 1; 1; 0]%nat init_state =
    (Ret true,
     State (Stats 2 4 0 84 [])
           [(obj_a, west); (obj_b, west); (obj_b, europe); (obj_a, europe)]).
Proof. reflexivity. Qed.

Example run_west_denied :
  fst (run_migration two_pages provider_west_denied [west; europe] [] init_state) =
    Ret false /\
  st_stats (snd (run_migration two_pages provider_west_denied [west; europe] []
                   init_state)) =
    Stats 2 2 2 42
      ["Failed to copy data/a.txt to migration-demo-target-us-west-2-36714: An error occurred (AccessDenied)";
       "Failed to copy data/b.txt to migration-demo-target-us-west-2-36714: An error occurred (AccessDenied)"].
Proof. split; reflexivity. Qed.

(** The recorded errors come in the order in which the copies failed. *)
Example run_west_denied_interleaved :
  errors (st_stats (snd (run_migration two_pages provider_west_denied [west; europe]
                           [1; 0]%nat init_state))) =
    ["Failed to copy data/b.txt to migration-demo-target-us-west-2-36714: An error occurred (AccessDenied)";
     "Failed to copy data/a.txt to migration-demo-target-us-west-2-36714: An error occurred (AccessDenied)"].
Proof. reflexivity. Qed.

(** An exception that is not a [ClientError] is counted nowhere: the
    task stops at us-west-2, [failed_copies] stays zero, and
    [run_migration] returns [True]. *)
Example run_west_unreachable :
  run_migration two_pages provider_west_unreachable [west; europe] [] init_state =
    (Ret true, State (Stats 2 0 0 0 []) [(obj_a, west); (obj_b, west)]).
Proof. reflexivity. Qed.

Example run_listing_denied :
  run_migration [Page (Some [s3_a]); PageRaises (ClientError "AccessDenied" "denied")]
                provider_ok [west; europe] [0; 1]%nat init_state =
    (Ret false, init_state).
Proof. reflexivity. Qed.

(** A bucket-info.txt with an empty region line: the migrator cannot be
    built, and the exception leaves [main]. *)
Example main_empty_region_raises :
  BulkMain.main named_region
    (Some ("SOURCE_BUCKET=" +:+ bucket +:+ PyStr.nl +:+ "SOURCE_REGION=" +:+ PyStr.nl))
    (fun _ _ => two_pages) (fun _ _ => provider_ok) [] =
    (Raise (OtherException "Invalid endpoint"), init_state).
Proof. reflexivity. Qed.

End MigratorSamples.

(** ** The order in which the pool runs the tasks *)

Section Schedule.
Import BulkMigration.

Variable prov : provider.

Lemma add3_comm (a b : Z * Z * Z) : add3 a b = add3 b a.
Proof. destruct a as [[? ?] ?], b as [[? ?] ?]. unfold add3. simpl. f_equal; [f_equal|]; lia. Qed.

Lemma add3_assoc (a b c : Z * Z * Z) : add3 (add3 a b) c = add3 a (add3 b c).
Proof.
  destruct a as [[? ?] ?], b as [[? ?] ?], c as [[? ?] ?].
  unfold add3. simpl. f_equal; [f_equal|]; lia.
Qed.

Lemma add3_zero_l (a : Z * Z * Z) : add3 (0, 0, 0) a = a.
Proof. destruct a as [[? ?] ?]. reflexivity. Qed.

Lemma add3_zero_r (a : Z * Z * Z) : add3 a (0, 0, 0) = a.
Proof. rewrite add3_comm. apply add3_zero_l. Qed.

(** The loop adds the same amounts whatever the state it starts from. *)
Lemma migrate_loop_shift (obj : obj_info) (tcs : list target_config) :
  forall (results results' : list bool) (st st' : state) (d : Z * Z * Z),
    counters (st_stats st) = add3 d (counters (st_stats st')) ->
    counters (st_stats (snd (migrate_loop prov obj tcs results st))) =
    add3 d (counters (st_stats (snd (migrate_loop prov obj tcs results' st')))).
Proof.
  induction tcs as [|tc rest IH]; intros results results' st st' d H; simpl; [exact H|].
  unfold copy_object_to_target.
  destruct (prov obj tc) as [[]|[code text| |name|text]]; simpl; try exact H.
  - apply IH. simpl. unfold counters, add3 in *. simpl in *.
    injection H as H1 H2 H3. f_equal; [f_equal|]; lia.
  - apply IH. simpl. unfold counters, add3 in *. simpl in *.
    injection H as H1 H2 H3. f_equal; [f_equal|]; lia.
Qed.

Lemma migrate_state (targets : list target_config) (obj : obj_info) (st : state) :
  snd (migrate_object_to_all_targets prov targets obj st) =
  snd (migrate_loop prov obj targets [] st).
Proof.
  unfold migrate_object_to_all_targets.
  destruct (migrate_loop prov obj targets [] st) as [[r|e] st1]; reflexivity.
Qed.

Lemma migrate_shift (targets : list target_config) (obj : obj_info) (st : state) :
  counters (st_stats (snd (migrate_object_to_all_targets prov targets obj st))) =
  add3 (counters (st_stats st)) (task_effect prov targets obj).
Proof.
  unfold task_effect. rewrite !migrate_state.
  apply migrate_loop_shift. symmetry. apply add3_zero_r.
Qed.

(** A task is its first copy, then the task of the targets left. *)
Lemma migrate_first_copy (tc : target_config) (rest : list target_config)
    (obj : obj_info) (st : state) :
  counters (st_stats (snd (migrate_object_to_all_targets prov (tc :: rest) obj st))) =
  match copy_object_to_target prov obj tc st with
  | (Ret _, st') =>
      counters (st_stats (snd (migrate_object_to_all_targets prov rest obj st')))
  | (Raise _, st') => counters (st_stats st')
  end.
Proof.
  rewrite migrate_state. cbn [migrate_loop].
  destruct (copy_object_to_target prov obj tc st) as [[success|e] st']; [|reflexivity].
  rewrite migrate_state.
  rewrite (migrate_loop_shift obj rest ([] ++ [success]) [] st' st' (0, 0, 0)).
  - apply add3_zero_l.
  - symmetry. apply add3_zero_l.
Qed.

(** Taking a task out of the pending ones leaves the others in place. *)
Lemma pick_spec (i : nat) (pending before after : pool)
    (task : obj_info * list target_config) :
  pick i pending = Some (before, task, after) -> pending = before ++ task :: after.
Proof.
  revert i before. induction pending as [|t rest IH]; intros i before H; simpl in H.
  - discriminate.
  - destruct i as [|j].
    + injection H as <- <- <-. reflexivity.
    + destruct (pick j rest) as [[[b c] a]|] eqn:E; [|discriminate].
      injection H as <- <- <-. rewrite (IH j b E). reflexivity.
Qed.

Lemma pool_effect_app (a b : pool) :
  pool_effect prov (a ++ b) = add3 (pool_effect prov a) (pool_effect prov b).
Proof.
  induction a as [|t a IH]; simpl.
  - symmetry. apply add3_zero_l.
  - rewrite IH, add3_assoc. reflexivity.
Qed.

Lemma pool_effect_task (before after : pool) (obj : obj_info) (todo : list target_config)
    (c : Z * Z * Z) :
  add3 c (pool_effect prov (before ++ (obj, todo) :: after)) =
  add3 (add3 c (task_effect prov todo obj)) (pool_effect prov (before ++ after)).
Proof.
  rewrite !pool_effect_app. simpl.
  generalize (pool_effect prov before) as x. generalize (pool_effect prov after) as y.
  generalize (task_effect prov todo obj) as d. intros d y x.
  rewrite (add3_assoc c d), <- (add3_assoc d x y), (add3_comm d x), (add3_assoc x d y).
  reflexivity.
Qed.

Lemma finish_counters (pending : pool) (st : state) :
  counters (st_stats (finish prov pending st)) =
  add3 (counters (st_stats st)) (pool_effect prov pending).
Proof.
  revert st. induction pending as [|[obj todo] rest IH]; intros st; simpl.
  - symmetry. apply add3_zero_r.
  - rewrite IH, migrate_shift, add3_assoc. reflexivity.
Qed.

(** The counters at the end of the pool's work are those of the start
    plus what each task adds, whatever the schedule. *)
Lemma run_pool_counters (schedule : list nat) (pending : pool) (st : state) :
  counters (st_stats (run_pool prov schedule pending st)) =
  add3 (counters (st_stats st)) (pool_effect prov pending).
Proof.
  revert pending st. induction schedule as [|i later IH]; intros pending st;
    cbn [run_pool].
  - apply finish_counters.
  - destruct (pick i pending) as [[[before [obj todo]] after]|] eqn:E; [|apply IH].
    apply pick_spec in E. subst pending.
    rewrite pool_effect_task, <- migrate_shift.
    destruct todo as [|tc rest].
    + rewrite IH. reflexivity.
    + rewrite migrate_first_copy.
      destruct (copy_object_to_target prov obj tc st) as [[success|e] st'].
      * rewrite IH, pool_effect_task, <- migrate_shift. reflexivity.
      * apply IH.
Qed.

Lemma pool_effect_submitted (targets : list target_config)
    (objects objects' : list obj_info) :
  Permutation objects objects' ->
  pool_effect prov (submitted targets objects) =
  pool_effect prov (submitted targets objects').
Proof.
  intros HP. induction HP as [|x l l' _ IH|x y l|l l' l'' _ IH1 _ IH2]; simpl.
  - reflexivity.
  - by rewrite IH.
  - rewrite <- !add3_assoc, (add3_comm (task_effect prov targets y)). reflexivity.
  - by rewrite IH1.
Qed.

(** The counters at the end, and with them the result of
    [run_migration], depend neither on the schedule of the pool nor on the
    order of the listing. *)
Lemma run_pool_schedule_irrelevant (targets : list target_config)
    (objects objects' : list obj_info) (schedule schedule' : list nat) (st : state) :
  Permutation objects objects' ->
  counters (st_stats (run_pool prov schedule (submitted targets objects) st)) =
  counters (st_stats (run_pool prov schedule' (submitted targets objects') st)).
Proof.
  intros HP. rewrite !run_pool_counters, (pool_effect_submitted _ _ _ HP). reflexivity.
Qed.

End Schedule.

(** * Further properties of the scripts *)

(** ** Target names *)

Section TargetNames.
Import PyStr.

Lemma contains_cons (a : ascii) (s p : string) :
  contains (String a s) p = startswith (String a s) p || contains s p.
Proof. reflexivity. Qed.

(** Replacing a text that does not occur changes nothing. *)
Lemma replace_absent (s old new : string) :
  contains s old = false -> replace s old new = s.
Proof.
  unfold replace. induction s as [|a s IH]; intros H; [reflexivity|].
  rewrite contains_cons in H. apply orb_false_iff in H as [Hs Hc].
  rewrite replace_from_step, Hs, (IH Hc). reflexivity.
Qed.

(** Replacing [source] by a text that starts with [t] changes the name. *)
Lemma replace_changes (s rest : string) :
  contains s "source" = true ->
  replace s "source" (String "t" rest) <> s.
Proof.
  unfold replace. induction s as [|a s IH]; intros H; [discriminate|].
  rewrite replace_from_step. rewrite contains_cons in H.
  destruct (startswith (String a s) "source") eqn:E.
  - destruct (startswith_inv _ _ E) as [v Hv]. injection Hv as -> _.
    simpl. discriminate.
  - simpl in H. intros Heq. injection Heq as Heq. exact (IH H Heq).
Qed.

(** X1: when the source bucket name does not contain [source], the
    replacement finds nothing, and both target configurations name the
    source bucket itself. *)
Theorem X1_targets_are_the_source_bucket (source_bucket : string) :
  contains source_bucket "source" = false ->
  BulkMigration.target_configs source_bucket =
    [TargetConfig source_bucket "us-west-2"; TargetConfig source_bucket "eu-west-1"] /\
  ReplicationMain.target_configs source_bucket =
    [TargetConfig source_bucket "us-west-2"; TargetConfig source_bucket "eu-west-1"] /\
  Validator.s3_target_configs source_bucket =
    [TargetConfig source_bucket "us-west-2"; TargetConfig source_bucket "eu-west-1"].
Proof.
  intros H.
  unfold BulkMigration.target_configs, ReplicationMain.target_configs,
    Validator.s3_target_configs.
  rewrite !(replace_absent _ _ _ H). repeat split.
Qed.

Lemma X1_targets_are_the_source_bucket_witness :
  contains "my-data-bucket" "source" = false /\
  BulkMigration.target_configs "my-data-bucket" =
    [TargetConfig "my-data-bucket" "us-west-2"; TargetConfig "my-data-bucket" "eu-west-1"].
Proof.
  split; [reflexivity|].
  apply (X1_targets_are_the_source_bucket "my-data-bucket"). reflexivity.
Defined.

(** X2: when the source bucket name contains [source], the source bucket
    and the two target buckets are three different names. *)
Theorem X2_source_and_targets_pairwise_distinct (source_bucket : string) :
  contains source_bucket "source" = true ->
  NoDup (source_bucket :: map tc_bucket (BulkMigration.target_configs source_bucket)).
Proof.
  intros H. simpl. repeat (apply NoDup_cons; split);
    [| |apply not_elem_of_nil|apply NoDup_nil_2].
  - intros Hin. apply elem_of_cons in Hin as [Heq|Hin].
    + exact (replace_changes source_bucket _ H (eq_sym Heq)).
    + apply list_elem_of_singleton in Hin.
      exact (replace_changes source_bucket _ H (eq_sym Hin)).
  - intros Hin. apply list_elem_of_singleton in Hin.
    exact (target_names_differ source_bucket H Hin).
Qed.

Lemma X2_source_and_targets_pairwise_distinct_witness :
  contains Samples.bucket "source" = true /\
  NoDup [Samples.bucket; tc_bucket Samples.west; tc_bucket Samples.europe].
Proof.
  split; [reflexivity|].
  apply (X2_source_and_targets_pairwise_distinct Samples.bucket). reflexivity.
Defined.

End TargetNames.

(** ** Configuration files that are incomplete *)

Section IncompleteFiles.
Import PyStr Config.

Lemma parse_returns (name1 name2 content : string) :
  has_char EQ name1 = false -> has_char EQ name2 = false ->
  exists vs, parse (name1 +:+ String EQ EmptyString) (name2 +:+ String EQ EmptyString)
                   content = Ret vs.
Proof. intros H1 H2. unfold parse. apply parse_lines_returns; assumption. Qed.

(** X15: the parsing loops never raise.  A line that starts with a key
    has an ['='], so the subscript [[1]] of its split is always there;
    the configuration of the bulk-migration [main] can only fail for a
    name that no line has bound. *)
Theorem X15_parsing_never_raises (content : string) :
  (exists vs, parse_bucket_info content = Ret vs) /\
  (exists vs, parse_dynamodb_info content = Ret vs) /\
  (exists vs, parse_dynamodb_table_only content = Ret vs) /\
  (forall e, BulkMigration.load content = Raise e ->
             e = UnboundName "source_bucket" \/ e = UnboundName "source_region").
Proof.
  pose proof (parse_returns "SOURCE_BUCKET" "SOURCE_REGION" content eq_refl eq_refl) as Hb.
  pose proof (parse_returns "SOURCE_TABLE" "SOURCE_REGION" content eq_refl eq_refl) as Hd.
  pose proof (parse_returns "SOURCE_TABLE" "SOURCE_TABLE" content eq_refl eq_refl) as Ht.
  split; [exact Hb|]. split; [exact Hd|]. split; [exact Ht|].
  intros e. unfold BulkMigration.load. destruct Hb as [[[b|] [r|]] Hb];
    change (parse_bucket_info content = Ret (Vars None None)) in Hb
    || change (parse_bucket_info content = Ret (Vars None (Some r))) in Hb
    || change (parse_bucket_info content = Ret (Vars (Some b) None)) in Hb
    || change (parse_bucket_info content = Ret (Vars (Some b) (Some r))) in Hb;
    rewrite Hb; simpl; intros H; try discriminate; injection H as <-; auto.
Qed.

(** A file with a bucket line and no region line. *)
Lemma parse_bucket_only (content : string) (pre post : list string) (v : string) :
  PyStr.split LF content = pre ++ ("SOURCE_BUCKET=" +:+ v) :: post ->
  Forall (fun l => startswith l "SOURCE_BUCKET=" = false) post ->
  Forall (fun l => startswith l "SOURCE_REGION=" = false) (PyStr.split LF content) ->
  parse_bucket_info content = Ret (Vars (Some (before EQ v)) None).
Proof.
  intros Hsplit Hpost Hnone. unfold parse_bucket_info, parse.
  destruct (parse_lines_first "SOURCE_BUCKET" "SOURCE_REGION" eq_refl eq_refl
              pre post v unset Hpost) as [st [H1 H1v]].
  change ("SOURCE_BUCKET" +:+ String EQ EmptyString) with "SOURCE_BUCKET=" in *.
  change ("SOURCE_REGION" +:+ String EQ EmptyString) with "SOURCE_REGION=" in *.
  rewrite <- Hsplit in H1.
  pose proof (parse_lines_keep_second "SOURCE_BUCKET" "SOURCE_REGION" _ _ _ Hnone H1) as H2.
  rewrite H1. destruct st as [f s]. simpl in *. subst. reflexivity.
Qed.

(** X3: on a bucket-info.txt that has a [SOURCE_BUCKET=] line and no
    [SOURCE_REGION=] line the three scripts part ways.  The bulk
    migration returns [False] and calls nothing; the replication set-up
    raises the unbound name, outside its handler; the validator loads the
    configuration, its bulk check ends in ERROR, and its [main] still
    returns [True], with the report at PARTIAL_SUCCESS. *)
Theorem X3_file_without_region {Item : Type} (client : client_builder)
    (content dynamodb_info : string) (pre post : list string) (v : string)
    (list_objects : string -> string -> list page_event)
    (copy : string -> string -> BulkMigration.provider) (schedule : list nat)
    (e : ReplicationSetup.env)
    (s3 : Validator.s3_provider) (calls : ValidatorReport.s3_calls) (now : Z)
    (db : Validator.dynamodb_provider Item) :
  PyStr.split LF content = pre ++ ("SOURCE_BUCKET=" +:+ v) :: post ->
  Forall (fun l => startswith l "SOURCE_BUCKET=" = false) post ->
  Forall (fun l => startswith l "SOURCE_REGION=" = false) (PyStr.split LF content) ->
  BulkMain.main client (Some content) list_objects copy schedule =
    (Ret false, BulkMigration.init_state) /\
  ReplicationSetup.main client (Some content) e =
    (Raise (UnboundName "source_region"), []) /\
  exists c,
    Validator.load_configuration content dynamodb_info = Some c /\
    Validator.source_region c = None /\
    Validator.validate_s3_bulk_migration client s3 c =
      (Validator.S3Results None ∅ "ERROR", false) /\
    fst (ValidatorReport.main client content dynamodb_info s3 calls now db) = true /\
    ValidatorReport.res_overall_status
      (snd (ValidatorReport.main client content dynamodb_info s3 calls now db)) =
      "PARTIAL_SUCCESS".
Proof.
  intros H1 H2 H3. pose proof (parse_bucket_only content pre post v H1 H2 H3) as Hp.
  split; [|split].
  - unfold BulkMain.main, BulkMigration.load. rewrite Hp. reflexivity.
  - unfold ReplicationSetup.main. rewrite Hp. reflexivity.
  - destruct (parse_returns "SOURCE_TABLE" "SOURCE_TABLE" dynamodb_info eq_refl eq_refl)
      as [ts Ht].
    change (parse_dynamodb_table_only dynamodb_info = Ret ts) in Ht.
    eexists. unfold ValidatorReport.main, Validator.load_configuration.
    rewrite Hp, Ht. simpl. repeat split.
Qed.

Lemma X3_file_without_region_witness :
  BulkMain.main Samples.named_region (Some ("SOURCE_BUCKET=" +:+ Samples.bucket +:+ nl))
                (fun _ _ => Samples.two_pages) (fun _ _ => Samples.provider_ok) [] =
    (Ret false, BulkMigration.init_state).
Proof.
  apply (X3_file_without_region (Item:=nat) Samples.named_region
           ("SOURCE_BUCKET=" +:+ Samples.bucket +:+ nl) Samples.dynamodb_file
           [] [EmptyString] Samples.bucket
           (fun _ _ => Samples.two_pages) (fun _ _ => Samples.provider_ok) []
           (ReplicationSetup.Env Samples.role_exists (fun _ _ => Ret tt) (fun _ _ => Ret tt))
           Samples.s3_all_complete
           (ValidatorReport.S3Calls (fun _ _ _ => Ret tt) (fun _ _ _ => Ret tt)) 0
           Samples.tables_all_synced).
  - reflexivity.
  - repeat constructor.
  - repeat constructor.
Defined.

End IncompleteFiles.

(** ** The migrator's totals *)

Section MigratorTotals.
Import BulkMigration.

Variable prov : provider.

(** Every provider call returns or raises the [ClientError] that is
    caught. *)
Hypothesis all_settle : forall obj tc, settles (prov obj tc) = true.

Lemma copy_totals (obj : obj_info) (tc : target_config) (st : state) :
  let s := st_stats st in
  exists success st',
    copy_object_to_target prov obj tc st = (Ret success, st') /\
    st_calls st' = st_calls st ++ [(obj, tc)] /\
    successful_copies (st_stats st') + failed_copies (st_stats st') =
      successful_copies s + failed_copies s + 1 /\
    total_objects (st_stats st') = total_objects s.
Proof.
  cbn zeta.
  destruct (copy_cases prov obj tc st) as [[Hc E]|[(code & text & Hp & E)|(e & Hs & E)]].
  - rewrite E. eexists _, _. split; [reflexivity|]. simpl. split; [reflexivity|].
    split; [lia|reflexivity].
  - rewrite E. eexists _, _. split; [reflexivity|]. simpl. split; [reflexivity|].
    split; [lia|reflexivity].
  - rewrite all_settle in Hs. discriminate.
Qed.

Lemma migrate_loop_totals (obj : obj_info) (tcs : list target_config) :
  forall (results : list bool) (st : state),
    let s := st_stats st in
    let st' := snd (migrate_loop prov obj tcs results st) in
    st_calls st' = st_calls st ++ map (fun tc => (obj, tc)) tcs /\
    successful_copies (st_stats st') + failed_copies (st_stats st') =
      successful_copies s + failed_copies s + Z.of_nat (length tcs) /\
    total_objects (st_stats st') = total_objects s.
Proof.
  induction tcs as [|tc rest IH]; intros results st; cbn zeta; cbn [migrate_loop].
  - simpl. rewrite app_nil_r. split; [reflexivity|]. split; [lia|reflexivity].
  - destruct (copy_totals obj tc st) as (success & st1 & E & Hc & Hs & Ht).
    rewrite E. destruct (IH (results ++ [success]) st1) as (Hc' & Hs' & Ht').
    cbn zeta in *. rewrite Hc', Hs', Ht', Hc, Hs, Ht, <- app_assoc.
    split; [reflexivity|]. split; [|reflexivity].
    change (length (tc :: rest)) with (S (length rest)). lia.
Qed.

Lemma migrate_totals (targets : list target_config) (obj : obj_info) (st : state) :
  let s := st_stats st in
  let st' := snd (migrate_object_to_all_targets prov targets obj st) in
  st_calls st' = st_calls st ++ map (fun tc => (obj, tc)) targets /\
  successful_copies (st_stats st') + failed_copies (st_stats st') =
    successful_copies s + failed_copies s + Z.of_nat (length targets) /\
  total_objects (st_stats st') = total_objects s.
Proof.
  cbn zeta. rewrite migrate_state. apply migrate_loop_totals.
Qed.

(** Tasks run one after the other make their calls task by task. *)
Lemma finish_totals (pending : pool) (st : state) :
  let s := st_stats st in
  let st' := finish prov pending st in
  st_calls st' = st_calls st ++ pool_calls pending /\
  successful_copies (st_stats st') + failed_copies (st_stats st') =
    successful_copies s + failed_copies s + Z.of_nat (length (pool_calls pending)) /\
  total_objects (st_stats st') = total_objects s.
Proof.
  revert st. induction pending as [|[obj todo] rest IH]; intros st; cbn zeta;
    cbn [finish].
  - simpl. rewrite app_nil_r. split; [reflexivity|]. split; [lia|reflexivity].
  - destruct (migrate_totals todo obj st) as (Hc & Hs & Ht).
    destruct (IH (snd (migrate_object_to_all_targets prov todo obj st)))
      as (Hc' & Hs' & Ht').
    cbn zeta in *. rewrite Hc', Hs', Ht', Hc, Hs, Ht, <- app_assoc.
    unfold pool_calls. cbn [flat_map fst snd]. rewrite length_app, length_map.
    split; [reflexivity|]. split; [lia|reflexivity].
Qed.

Lemma pool_calls_app (a b : pool) : pool_calls (a ++ b) = pool_calls a ++ pool_calls b.
Proof. unfold pool_calls. apply flat_map_app. Qed.

Lemma pool_calls_task (before after : pool) (obj : obj_info) (todo : list target_config) :
  pool_calls (before ++ (obj, todo) :: after) =
  pool_calls before ++ map (fun tc => (obj, tc)) todo ++ pool_calls after.
Proof. rewrite pool_calls_app. reflexivity. Qed.

(** Whatever the schedule, the pool makes the calls of its tasks, each
    once, and counts each of them. *)
Lemma run_pool_totals (schedule : list nat) (pending : pool) (st : state) :
  let s := st_stats st in
  let st' := run_pool prov schedule pending st in
  Permutation (st_calls st') (st_calls st ++ pool_calls pending) /\
  successful_copies (st_stats st') + failed_copies (st_stats st') =
    successful_copies s + failed_copies s + Z.of_nat (length (pool_calls pending)) /\
  total_objects (st_stats st') = total_objects s.
Proof.
  revert pending st. induction schedule as [|i later IH]; intros pending st;
    cbn zeta; cbn [run_pool].
  - destruct (finish_totals pending st) as (Hc & Hs & Ht). cbn zeta in *.
    rewrite Hc. split; [reflexivity|]. split; [exact Hs|exact Ht].
  - destruct (pick i pending) as [[[before [obj todo]] after]|] eqn:E; [|apply IH].
    apply pick_spec in E. subst pending.
    destruct todo as [|tc rest].
    + specialize (IH (before ++ after) st). cbn zeta in IH.
      rewrite pool_calls_task. rewrite pool_calls_app in IH. exact IH.
    + destruct (copy_totals obj tc st) as (success & st1 & E & Hc & Hs & Ht).
      rewrite E. destruct (IH (before ++ (obj, rest) :: after) st1) as (Hc' & Hs' & Ht').
      cbn zeta in *. rewrite Hs', Ht', Hs, Ht. rewrite Hc in Hc'.
      rewrite !pool_calls_task in *. cbn [map].
      rewrite !length_app. cbn [length]. rewrite ?length_app.
      split; [|split; [lia|reflexivity]].
      rewrite Hc', <- app_assoc. apply Permutation_app_head.
      cbn [app]. apply Permutation_middle.
Qed.

Lemma pool_calls_submitted (targets : list target_config) (objects : list obj_info) :
  pool_calls (submitted targets objects) =
  flat_map (fun obj => map (fun tc => (obj, tc)) targets) objects.
Proof.
  induction objects as [|obj rest IH]; [reflexivity|].
  unfold pool_calls, submitted in *. simpl. rewrite IH. reflexivity.
Qed.

Lemma length_pairs (targets : list target_config) (objects : list obj_info) :
  length (flat_map (fun obj => map (fun tc => (obj, tc)) targets) objects) =
  (length objects * length targets)%nat.
Proof.
  induction objects as [|obj rest IH]; simpl; [reflexivity|].
  rewrite length_app, length_map, IH. reflexivity.
Qed.

End MigratorTotals.

Section MigratorRun.
Import BulkMigration.

Variable prov : provider.
Variable targets : list target_config.

(** The objects of a listing that ends without an exception. *)
Lemma list_all_objects_returns (events : list page_event) (objects : list obj_info)
    (st : state) :
  collect_pages events [] = Ret objects ->
  list_all_objects events st =
    (Ret objects,
     State (Stats (length objects) (successful_copies (st_stats st))
                  (failed_copies (st_stats st)) (bytes_transferred (st_stats st))
                  (errors (st_stats st)))
           (st_calls st)).
Proof. intros H. unfold list_all_objects. rewrite H. reflexivity. Qed.

(** X16: when every provider call returns or raises the [ClientError]
    that is caught, [run_migration] on a fresh migrator calls
    [copy_object_to_target] exactly once for every listed object and
    every target, however the pool interleaves the calls of its tasks; at
    the end [total_objects] is the number of listed objects and
    [successful_copies + failed_copies] is that number times the number of
    targets. *)
Theorem X16_every_pair_is_counted (events : list page_event) (objects : list obj_info)
    (schedule : list nat) :
  (forall obj tc, settles (prov obj tc) = true) ->
  collect_pages events [] = Ret objects ->
  let final := snd (run_migration events prov targets schedule init_state) in
  Permutation (st_calls final)
              (flat_map (fun obj => map (fun tc => (obj, tc)) targets) objects) /\
  total_objects (st_stats final) = length objects /\
  successful_copies (st_stats final) + failed_copies (st_stats final) =
    Z.of_nat (length objects * length targets).
Proof.
  intros Hall Hlist. cbn zeta. unfold run_migration.
  rewrite (list_all_objects_returns events objects init_state Hlist).
  destruct objects as [|o objs]; [simpl; split; [constructor|split; reflexivity]|].
  cbv beta iota zeta.
  match goal with |- context [run_pool prov schedule ?l ?st0] =>
    destruct (run_pool_totals prov Hall schedule l st0) as (Hc & Hs & Ht) end.
  cbn zeta in *. cbn [snd]. rewrite Hs, Ht, pool_calls_submitted, length_pairs in *.
  split; [exact Hc|]. split; [reflexivity|]. simpl. lia.
Qed.

End MigratorRun.

Section MigratorTotalsSample.
Import BulkMigration Samples.

Lemma X16_every_pair_is_counted_witness :
  (forall obj tc, settles (provider_west_denied obj tc) = true) /\
  Permutation
    (st_calls (snd (run_migration two_pages provider_west_denied [west; europe]
                      [0; 1; 1; 0]%nat init_state)))
    [(obj_a, west); (obj_a, europe); (obj_b, west); (obj_b, europe)].
Proof.
  assert (H : forall obj tc, settles (provider_west_denied obj tc) = true).
  { intros obj tc. unfold provider_west_denied.
    destruct (String.eqb (tc_region tc) "us-west-2"); reflexivity. }
  split; [exact H|].
  exact (proj1 (X16_every_pair_is_counted provider_west_denied [west; europe]
                  two_pages [obj_a; obj_b] [0; 1; 1; 0]%nat H eq_refl)).
Defined.

End MigratorTotalsSample.

(** ** Exceptions the migrator does not count *)

Section UncountedExceptions.
Import BulkMigration.

Variable prov : provider.
Variable targets : list target_config.

(** No provider call raises a [ClientError]. *)
Hypothesis no_client_error :
  forall obj tc code text, prov obj tc <> Raise (ClientError code text).

Lemma copy_keeps_failures (obj : obj_info) (tc : target_config) (st : state) :
  let st' := snd (copy_object_to_target prov obj tc st) in
  failed_copies (st_stats st') = failed_copies (st_stats st) /\
  errors (st_stats st') = errors (st_stats st).
Proof.
  cbn zeta.
  destruct (copy_cases prov obj tc st) as [[_ E]|[(code & text & Hp & _)|(e & _ & E)]].
  - rewrite E. split; reflexivity.
  - exfalso. exact (no_client_error obj tc code text Hp).
  - rewrite E. split; reflexivity.
Qed.

Lemma migrate_loop_keeps_failures (obj : obj_info) (tcs : list target_config) :
  forall (results : list bool) (st : state),
    let st' := snd (migrate_loop prov obj tcs results st) in
    failed_copies (st_stats st') = failed_copies (st_stats st) /\
    errors (st_stats st') = errors (st_stats st).
Proof.
  induction tcs as [|tc rest IH]; intros results st; cbn zeta; simpl; [split; reflexivity|].
  pose proof (copy_keeps_failures obj tc st) as Hc. cbn zeta in Hc.
  destruct (copy_object_to_target prov obj tc st) as [[success|e] st1]; simpl in *.
  - destruct (IH (results ++ [success]) st1) as [H1 H2]. cbn zeta in *.
    rewrite H1, H2. exact Hc.
  - exact Hc.
Qed.

Lemma finish_keeps_failures (pending : pool) (st : state) :
  let st' := finish prov pending st in
  failed_copies (st_stats st') = failed_copies (st_stats st) /\
  errors (st_stats st') = errors (st_stats st).
Proof.
  revert st. induction pending as [|[obj todo] rest IH]; intros st; cbn zeta;
    cbn [finish]; [split; reflexivity|].
  destruct (IH (snd (migrate_object_to_all_targets prov todo obj st))) as [H1 H2].
  cbn zeta in *. rewrite H1, H2, migrate_state.
  apply migrate_loop_keeps_failures.
Qed.

Lemma run_pool_keeps_failures (schedule : list nat) (pending : pool) (st : state) :
  let st' := run_pool prov schedule pending st in
  failed_copies (st_stats st') = failed_copies (st_stats st) /\
  errors (st_stats st') = errors (st_stats st).
Proof.
  revert pending st. induction schedule as [|i later IH]; intros pending st;
    cbn zeta; cbn [run_pool].
  - apply finish_keeps_failures.
  - destruct (pick i pending) as [[[before [obj todo]] after]|]; [|apply IH].
    destruct todo as [|tc rest]; [apply IH|].
    pose proof (copy_keeps_failures obj tc st) as Hc. cbn zeta in Hc.
    destruct (copy_object_to_target prov obj tc st) as [[success|e] st1];
      cbn [snd] in Hc.
    + destruct (IH (before ++ (obj, rest) :: after) st1) as [H1 H2]. cbn zeta in *.
      rewrite H1, H2. exact Hc.
    + destruct (IH (before ++ after) st1) as [H1 H2]. cbn zeta in *.
      rewrite H1, H2. exact Hc.
Qed.

(** X17: only a [ClientError] is counted as a failed copy.  When the
    listing gives at least one object and no provider call raises a
    [ClientError], [run_migration] on a fresh migrator returns [True] with
    [failed_copies] at zero and no recorded error, whatever other
    exceptions the copies raised and however few objects were copied. *)
Theorem X17_other_exceptions_are_not_failures
    (events : list page_event) (objects : list obj_info) (schedule : list nat) :
  collect_pages events [] = Ret objects ->
  objects <> [] ->
  let r := run_migration events prov targets schedule init_state in
  fst r = Ret true /\
  failed_copies (st_stats (snd r)) = 0 /\
  errors (st_stats (snd r)) = [].
Proof.
  intros Hlist Hne. cbn zeta. unfold run_migration.
  rewrite (list_all_objects_returns events objects init_state Hlist).
  destruct objects as [|o objs]; [congruence|].
  cbv beta iota zeta.
  match goal with |- context [run_pool prov schedule ?l ?st0] =>
    destruct (run_pool_keeps_failures schedule l st0) as [H1 H2] end.
  cbn zeta in *. cbn [fst snd]. rewrite H1, H2. repeat split.
Qed.

End UncountedExceptions.

Section UncountedExceptionsSample.
Import BulkMigration Samples.

(** With us-west-2 unreachable nothing is copied there, the copies to
    eu-west-1 are never tried, and the run still returns [True]. *)
Lemma X17_other_exceptions_are_not_failures_witness :
  fst (run_migration two_pages provider_west_unreachable [west; europe] [1; 0]%nat
         init_state) =
    Ret true /\
  successful_copies
    (st_stats (snd (run_migration two_pages provider_west_unreachable [west; europe]
                      [1; 0]%nat init_state))) = 0.
Proof.
  split; [|reflexivity].
  apply (X17_other_exceptions_are_not_failures provider_west_unreachable [west; europe])
    with (objects := [obj_a; obj_b]).
  - intros obj tc code text. unfold provider_west_unreachable.
    destruct (String.eqb (tc_region tc) "us-west-2"); discriminate.
  - reflexivity.
  - discriminate.
Defined.

End UncountedExceptionsSample.

(** ** The two listings *)

Section Listings.

Lemma collect_pages_keys (events : list page_event)
    (acc objects : list BulkMigration.obj_info) :
  BulkMigration.collect_pages events acc = Ret objects ->
  map BulkMigration.key objects =
    map BulkMigration.key acc ++ Validator.listed_keys events.
Proof.
  revert acc. induction events as [|[[cs|]|e] rest IH]; intros acc H; simpl in *.
  - injection H as <-. by rewrite app_nil_r.
  - rewrite (IH _ H), List.map_app, List.map_map, <- app_assoc. reflexivity.
  - exact (IH _ H).
  - discriminate.
Qed.

(** X18: on a listing that ends without an exception, the migrator and
    the validator see the same keys: the objects [list_all_objects]
    returns carry, in order, the keys of the pages, and these are the keys
    of the dict [_get_bucket_objects] builds. *)
Theorem X18_listings_agree (events : list page_event)
    (objects : list BulkMigration.obj_info) (st : BulkMigration.state) :
  fst (BulkMigration.list_all_objects events st) = Ret objects ->
  (forall code text, ~ In (PageRaises (ClientError code text)) events) ->
  map BulkMigration.key objects = Validator.listed_keys events /\
  dom (Validator._get_bucket_objects events ∅) =
    list_to_set (map BulkMigration.key objects).
Proof.
  intros H Hnc. unfold BulkMigration.list_all_objects in H.
  destruct (BulkMigration.collect_pages events []) as [objs|e] eqn:E.
  - simpl in H. injection H as <-.
    pose proof (collect_pages_keys events [] objs E) as Hk. simpl in Hk.
    split; [exact Hk|]. rewrite dom_get_bucket_objects, Hk. set_solver.
  - exfalso. destruct e as [code text| | |]; try discriminate.
    assert (Hin : forall evs acc, BulkMigration.collect_pages evs acc =
                    Raise (ClientError code text) ->
                  In (PageRaises (ClientError code text)) evs).
    { induction evs as [|[[cs|]|e'] rest IH]; intros acc H'; simpl in *.
      - discriminate.
      - right. exact (IH _ H').
      - right. exact (IH _ H').
      - left. congruence. }
    exact (Hnc code text (Hin _ _ E)).
Qed.

Lemma X18_listings_agree_witness :
  map BulkMigration.key [Samples.obj_a; Samples.obj_b] =
    Validator.listed_keys Samples.two_pages.
Proof.
  apply (X18_listings_agree Samples.two_pages [Samples.obj_a; Samples.obj_b]
           BulkMigration.init_state).
  - reflexivity.
  - intros code text [H|[H|[H|[]]]]; discriminate.
Defined.

Lemma collect_pages_interrupted (pages : list (option (list s3_object)))
    (e : exn) (rest : list page_event) (acc : list BulkMigration.obj_info) :
  BulkMigration.collect_pages (map Page pages ++ PageRaises e :: rest) acc = Raise e.
Proof.
  revert acc. induction pages as [|[cs|] pages IH]; intros acc; simpl; auto.
Qed.

Lemma listed_keys_interrupted (pages : list (option (list s3_object)))
    (e : exn) (rest : list page_event) :
  Validator.listed_keys (map Page pages ++ PageRaises e :: rest) =
  Validator.listed_keys (map Page pages).
Proof.
  induction pages as [|[cs|] pages IH]; simpl; [reflexivity| |exact IH].
  by rewrite IH.
Qed.

(** X19: a [ClientError] in the middle of a listing is treated in two
    ways.  [list_all_objects] drops the pages it has read and returns
    the empty list, leaving the statistics as they were;
    [_get_bucket_objects] keeps the keys of the pages read before the
    failure. *)
Theorem X19_interrupted_listing (pages : list (option (list s3_object)))
    (code text : string) (rest : list page_event) (st : BulkMigration.state) :
  let events := map Page pages ++ PageRaises (ClientError code text) :: rest in
  BulkMigration.list_all_objects events st = (Ret [], st) /\
  dom (Validator._get_bucket_objects events ∅) =
    list_to_set (Validator.listed_keys (map Page pages)).
Proof.
  cbn zeta. split.
  - unfold BulkMigration.list_all_objects. by rewrite collect_pages_interrupted.
  - rewrite dom_get_bucket_objects, listed_keys_interrupted. set_solver.
Qed.

End Listings.

(** ** The validator when the source listing is empty *)

Section EmptySource.
Import Validator.

Variable client : client_builder.
Variable s3 : s3_provider.

(** When every target passes, every target bucket has an entry that
    says COMPLETE, also when two targets share a bucket. *)
Lemma check_targets_entries (src : gmap string object_meta)
    (targets : list target_config) (report : gmap string target_report) (valid : bool) :
  (forall t, tr_status (check_target s3 src t) = "COMPLETE") ->
  forallb (fun t => builds (client "s3" (tc_region t))) targets = true ->
  forall t, t ∈ targets ->
    exists r, fst (check_targets client s3 src targets report valid) !! tc_bucket t = Some r /\
              tr_status r = "COMPLETE".
Proof.
  intros Hcomplete. revert report valid.
  induction targets as [|t rest IH]; intros report valid Hb t' Ht'.
  - by apply elem_of_nil in Ht'.
  - cbn [forallb] in Hb. apply andb_true_iff in Hb as [Hbt Hb].
    cbn [check_targets]. destruct (client "s3" (tc_region t)) as [[]|e]; [|discriminate].
    destruct (decide (tc_bucket t' ∈ map tc_bucket rest)) as [Hin|Hout].
    + change (map tc_bucket rest) with (tc_bucket <$> rest) in Hin.
      apply list_elem_of_fmap in Hin as (t'' & Heq & Hin). rewrite Heq.
      apply IH; assumption.
    + rewrite check_targets_other by exact Hout.
      apply elem_of_cons in Ht' as [->|Ht'].
      * rewrite lookup_insert_eq. eauto.
      * exfalso. apply Hout. change (map tc_bucket rest) with (tc_bucket <$> rest).
        by apply list_elem_of_fmap_2.
Qed.

(** X20: when a client can be built for the source region and for the
    region of every target, and the listing of the source bucket delivers
    no key (the bucket is empty, or the first page already fails), every
    target is reported COMPLETE and [validate_s3_bulk_migration] returns
    [True], with a source count of zero, whatever the targets hold.  (A
    region for which no client can be built gives ERROR and [False]
    instead.) *)
Theorem X20_empty_source_listing_validates (c : config) (region : string) :
  source_region c = Some region ->
  clients_build client c = true ->
  listed_keys (s3 region (source_bucket c)) = [] ->
  snd (validate_s3_bulk_migration client s3 c) = true /\
  s3_status (fst (validate_s3_bulk_migration client s3 c)) = "COMPLETE" /\
  s3_source_count (fst (validate_s3_bulk_migration client s3 c)) = Some 0%nat /\
  forall t, t ∈ s3_targets c ->
    exists r, s3_targets_report (fst (validate_s3_bulk_migration client s3 c))
                !! tc_bucket t = Some r /\
              tr_status r = "COMPLETE".
Proof.
  intros Hr Hb Hk.
  destruct (validate_when_clients_build client s3 c region Hr Hb) as (valid & Hv & ->).
  cbn zeta in *.
  set (src := _get_bucket_objects (s3 region (source_bucket c)) ∅) in *.
  assert (Hdom : dom src = ∅).
  { subst src. rewrite dom_get_bucket_objects, Hk. set_solver. }
  assert (Hsrc : src = ∅) by (by apply dom_empty_iff_L).
  assert (Hcomplete : forall t, tr_status (check_target s3 src t) = "COMPLETE").
  { intros t. apply check_target_complete. rewrite Hdom. set_solver. }
  unfold clients_build in Hb. rewrite Hr in Hb. apply andb_true_iff in Hb as [_ Hb].
  assert (Hvalid : Ret valid = Ret true).
  { rewrite <- Hv. apply check_targets_flag. split; [reflexivity|].
    split; [exact Hb|]. intros t _. apply Hcomplete. }
  injection Hvalid as ->. cbn [fst snd s3_status s3_source_count s3_targets_report].
  split; [reflexivity|]. split; [reflexivity|]. split; [by rewrite Hsrc|].
  intros t Ht. apply check_targets_entries; [exact Hcomplete|exact Hb|exact Ht].
Qed.

End EmptySource.

Section EmptySourceSample.
Import Validator Samples.

(** The source bucket cannot be listed; the targets are empty. *)
Lemma X20_empty_source_listing_validates_witness :
  snd (validate_s3_bulk_migration named_region
         (fun _ _ => [PageRaises (ClientError "AccessDenied" "Access Denied")])
         loaded) = true.
Proof.
  apply (X20_empty_source_listing_validates named_region
           (fun _ _ => [PageRaises (ClientError "AccessDenied" "Access Denied")])
           loaded "us-east-1"); reflexivity.
Defined.

(** The same store read with a configuration whose region line is empty:
    no client is built, and the check ends in ERROR. *)
Example empty_region_is_an_error :
  validate_s3_bulk_migration named_region
    (fun _ _ => [PageRaises (ClientError "AccessDenied" "Access Denied")])
    (ValidatorConfig (source_bucket loaded) (Some EmptyString) (source_table loaded)
                     (s3_targets loaded) (dynamodb_targets loaded)) =
    (S3Results None ∅ "ERROR", false).
Proof. reflexivity. Qed.

End EmptySourceSample.

(** ** The report *)

Section Report.
Import ValidatorReport.

Lemma status_is_true (status : option string) (s : string) :
  status_is status s = true <-> status = Some s.
Proof.
  destruct status as [x|]; simpl; [|split; discriminate].
  destruct (String.eqb_spec x s) as [->|Hne]; split; intros H; try done.
  injection H as ->. done.
Qed.

Lemma all_systems_good_iff (r : results) :
  all_systems_good r = true <->
  option_map Validator.s3_status (res_s3_bulk_migration r) = Some "COMPLETE" /\
  (option_map Validator.db_status (res_dynamodb_sync r) = Some "SYNCED" \/
   option_map Validator.db_status (res_dynamodb_sync r) = Some "ERROR").
Proof.
  unfold all_systems_good. rewrite <- !status_is_true.
  destruct (status_is (option_map Validator.s3_status (res_s3_bulk_migration r)) "COMPLETE"),
    (status_is (option_map Validator.db_status (res_dynamodb_sync r)) "SYNCED"),
    (status_is (option_map Validator.db_status (res_dynamodb_sync r)) "ERROR");
    simpl; split; try (intros H; discriminate H); try tauto;
    intros [H1 [H2|H2]]; discriminate.
Qed.

(** X6: [generate_final_report] sets the overall status to SUCCESS
    exactly when the bulk-migration status is COMPLETE and the DynamoDB
    status is SYNCED or ERROR; otherwise to PARTIAL_SUCCESS.  The result
    of the replication test plays no part, and the three parts of the
    results are left as they are. *)
Theorem X6_overall_status (r : results) :
  let bulk := option_map Validator.s3_status (res_s3_bulk_migration r) in
  let sync := option_map Validator.db_status (res_dynamodb_sync r) in
  (res_overall_status (generate_final_report r) = "SUCCESS" <->
     bulk = Some "COMPLETE" /\ (sync = Some "SYNCED" \/ sync = Some "ERROR")) /\
  (res_overall_status (generate_final_report r) = "SUCCESS" \/
   res_overall_status (generate_final_report r) = "PARTIAL_SUCCESS") /\
  (forall repl overall,
     res_overall_status
       (generate_final_report
          (Results (res_s3_bulk_migration r) repl (res_dynamodb_sync r) overall)) =
     res_overall_status (generate_final_report r)) /\
  res_s3_bulk_migration (generate_final_report r) = res_s3_bulk_migration r /\
  res_s3_replication (generate_final_report r) = res_s3_replication r /\
  res_dynamodb_sync (generate_final_report r) = res_dynamodb_sync r.
Proof.
  cbn zeta. pose proof (all_systems_good_iff r) as Hgood.
  unfold generate_final_report. simpl.
  split; [|split; [|split; [|repeat split]]].
  - rewrite <- Hgood. destruct (all_systems_good r); split; intros H; done.
  - destruct (all_systems_good r); auto.
  - intros repl overall. unfold all_systems_good. reflexivity.
Qed.

End Report.

(** ** The replication test and [main] of the validator *)

Section ReplicationTest.
Import ValidatorReport.

Variable s3 : s3_calls.
Variable now : Z.

(** Whether the test object is found in a target. *)
Let found (t : target_config) : bool :=
  BulkMigration.copies (head_object s3 (tc_region t) (tc_bucket t) (test_key now)).

Lemma check_replicas_settled (targets : list target_config) :
  Forall (fun t => BulkMigration.settles
                     (head_object s3 (tc_region t) (tc_bucket t) (test_key now)) = true)
         targets ->
  forall (ok : bool) (checked : list target_config),
    check_replicas s3 (test_key now) targets ok checked =
      (Ret (ok && forallb found targets), checked ++ targets).
Proof.
  induction 1 as [|t rest Ht _ IH]; intros ok checked; simpl.
  - by rewrite andb_true_r, app_nil_r.
  - unfold found at 1. unfold BulkMigration.settles, BulkMigration.copies in *.
    destruct (head_object s3 (tc_region t) (tc_bucket t) (test_key now))
      as [[]|[code text| |name|text]]; try discriminate;
      rewrite IH, <- app_assoc; simpl; [reflexivity|].
    by rewrite andb_false_r.
Qed.

(** X8: the replication test.  If the upload of the test object raises,
    the result is ERROR and no target is asked.  Otherwise, when every
    [head_object] returns or raises a [ClientError], every target is asked
    once, in order, also after one has failed; the result is [True] and
    WORKING exactly when the object was found in every target, and
    [False] and FAILED when one target lacks it. *)
Theorem X8_replication_test (c : Validator.config) (region : string) :
  Validator.source_region c = Some region ->
  (forall e, put_object s3 region (Validator.source_bucket c) (test_key now) = Raise e ->
     validate_s3_replication s3 now c = (ReplicationResults "ERROR" None, false, [])) /\
  (put_object s3 region (Validator.source_bucket c) (test_key now) = Ret tt ->
   Forall (fun t => BulkMigration.settles
                      (head_object s3 (tc_region t) (tc_bucket t) (test_key now)) = true)
          (Validator.s3_targets c) ->
   let all_found := forallb found (Validator.s3_targets c) in
   validate_s3_replication s3 now c =
     (ReplicationResults (if all_found then "WORKING" else "FAILED") (Some (test_key now)),
      all_found, Validator.s3_targets c)).
Proof.
  intros Hr. unfold validate_s3_replication. rewrite Hr. split.
  - intros e ->. reflexivity.
  - intros -> Hall. cbn zeta.
    rewrite (check_replicas_settled _ Hall true []). reflexivity.
Qed.

End ReplicationTest.

Section ReplicationTestSample.
Import ValidatorReport Samples.

(** The test object reaches us-west-2 and not eu-west-1. *)
Lemma X8_replication_test_witness :
  validate_s3_replication
    (S3Calls (fun _ _ _ => Ret tt)
             (fun region _ _ =>
                if String.eqb region "eu-west-1"
                then Raise (ClientError "404" "Not Found") else Ret tt))
    1700000000 loaded =
  (ReplicationResults "FAILED" (Some "validation/replication-test-1700000000.txt"),
   false, [west; europe]).
Proof.
  apply (X8_replication_test
           (S3Calls (fun _ _ _ => Ret tt)
                    (fun region _ _ =>
                       if String.eqb region "eu-west-1"
                       then Raise (ClientError "404" "Not Found") else Ret tt))
           1700000000 loaded "us-east-1" eq_refl).
  - reflexivity.
  - repeat constructor.
Defined.

End ReplicationTestSample.

Section ValidatorMain.
Import ValidatorReport.

Context {Item : Type}.
Variable client : client_builder.
Variable s3 : Validator.s3_provider.
Variable calls : s3_calls.
Variable now : Z.
Variable db : Validator.dynamodb_provider Item.

Lemma bulk_status_complete (c : Validator.config) :
  Validator.s3_status (fst (Validator.validate_s3_bulk_migration client s3 c)) =
    "COMPLETE" <->
  snd (Validator.validate_s3_bulk_migration client s3 c) = true.
Proof.
  unfold Validator.validate_s3_bulk_migration.
  destruct (Validator.source_region c) as [region|]; [|simpl; split; discriminate].
  destruct (client "s3" region) as [[]|e]; [|simpl; split; discriminate].
  destruct (Validator.check_targets _ _ _ _ _ _) as [report [[|]|e]]; simpl; split; done.
Qed.

Lemma sync_status_synced (c : Validator.config) :
  Validator.db_status (fst (Validator.validate_dynamodb_sync db c)) = "SYNCED" <->
  snd (Validator.validate_dynamodb_sync db c) = true.
Proof.
  unfold Validator.validate_dynamodb_sync.
  destruct (Validator.source_region c) as [region|]; [|simpl; split; discriminate].
  destruct (Validator.source_table c) as [table|]; [|simpl; split; discriminate].
  destruct (db region table) as [items|e]; [|simpl; split; discriminate].
  destruct (Validator.check_tables _ _ _ _ _) as [report [|]]; simpl; split; done.
Qed.

(** X7: [main] of the validator returns [False] only when the
    configuration does not load.  Once it loads, [main] returns [True]
    whatever the three validations find, and the report says SUCCESS
    exactly when the bulk check returned [True] and the DynamoDB check
    either returned [True] or ended in ERROR. *)
Theorem X7_validator_main (bucket_info dynamodb_info : string) :
  let m := main client bucket_info dynamodb_info s3 calls now db in
  (Validator.load_configuration bucket_info dynamodb_info = None ->
   m = (false, init_results)) /\
  (forall c, Validator.load_configuration bucket_info dynamodb_info = Some c ->
     fst m = true /\
     (res_overall_status (snd m) = "SUCCESS" <->
        snd (Validator.validate_s3_bulk_migration client s3 c) = true /\
        (snd (Validator.validate_dynamodb_sync db c) = true \/
         Validator.db_status (fst (Validator.validate_dynamodb_sync db c)) = "ERROR"))).
Proof.
  cbn zeta. unfold main. split.
  - intros ->. reflexivity.
  - intros c ->. split; [reflexivity|]. cbn [snd].
    match goal with |- context [generate_final_report ?r] =>
      pose proof (all_systems_good_iff r) as H;
      assert (Hgood : res_overall_status (generate_final_report r) = "SUCCESS" <->
                      all_systems_good r = true)
        by (unfold generate_final_report; simpl;
            destruct (all_systems_good r); split; intros; done);
      rewrite Hgood, H end.
    simpl. rewrite <- bulk_status_complete, <- sync_status_synced.
    split.
    + intros [Hb [Hs|He]]; injection Hb as Hb; (split; [exact Hb|]);
        [left; by injection Hs|right; by injection He].
    + intros [Hb [Hs|He]]; rewrite Hb; (split; [reflexivity|]);
        [left; by rewrite Hs|right; by rewrite He].
Qed.

End ValidatorMain.

(** ** The replication rules and the order of the set-up *)

Section ReplicationRules.
Import ReplicationSetup.

Lemma str_of_nat_inj (a b : nat) : PyFmt.str_of_nat a = PyFmt.str_of_nat b -> a = b.
Proof.
  unfold PyFmt.str_of_nat. intros H.
  apply DecimalNat.Unsigned.to_uint_inj.
  pose proof (f_equal DecimalString.NilEmpty.uint_of_string H) as H'.
  rewrite !DecimalString.NilEmpty.usu in H'. by injection H'.
Qed.

Lemma append_inj_l (p a b : string) : p +:+ a = p +:+ b -> a = b.
Proof.
  induction p as [|x p IH]; simpl; intros H; [exact H|].
  injection H as H. exact (IH H).
Qed.

Lemma build_rules_length (targets : list target_config) (i : nat) :
  length (build_rules i targets) = length targets.
Proof. revert i. induction targets as [|t rest IH]; intros i; simpl; [|rewrite IH]; done. Qed.

Lemma build_rules_priorities (targets : list target_config) (i : nat) :
  map rule_priority (build_rules i targets) = seq (i + 1) (length targets).
Proof.
  revert i. induction targets as [|t rest IH]; intros i; simpl; [done|].
  rewrite IH. repeat f_equal; lia.
Qed.

Lemma build_rules_ids (targets : list target_config) (i : nat) :
  map rule_id (build_rules i targets) =
  map (fun k => "ReplicationRule" +:+ PyFmt.str_of_nat k) (seq (i + 1) (length targets)).
Proof.
  revert i. induction targets as [|t rest IH]; intros i; simpl; [done|].
  rewrite IH. repeat f_equal; lia.
Qed.

Lemma build_rules_destinations (targets : list target_config) (i : nat) :
  map (fun r => dest_bucket (rule_destination r)) (build_rules i targets) =
  map (fun t => "arn:aws:s3:::" +:+ tc_bucket t) targets.
Proof.
  revert i. induction targets as [|t rest IH]; intros i; simpl; [done|].
  by rewrite IH.
Qed.

Lemma build_rules_enabled (targets : list target_config) (i : nat) :
  Forall (fun r => rule_status r = "Enabled" /\
                   rule_filter_prefix r = EmptyString /\
                   rule_delete_marker_replication r = "Enabled")
         (build_rules i targets).
Proof.
  revert i. induction targets as [|t rest IH]; intros i; simpl; constructor.
  - repeat split.
  - apply IH.
Qed.

(** X4: the replication configuration handed to the provider has one
    rule per target, in the order of the targets; the rule for the k-th
    target (from 1) has priority k, the id [ReplicationRule] followed by
    the decimal digits of k, and the ARN of that target's bucket as
    destination; every rule is enabled, has the empty prefix as filter and
    replicates delete markers.  So no two rules share a priority or an
    id. *)
Theorem X4_one_rule_per_target (e : env) (source_bucket role_arn : string)
    (targets : list target_config) (log : list call) :
  let rules := build_rules 0 targets in
  snd (setup_replication_configuration e source_bucket targets role_arn log) =
    log ++ [PutBucketReplication source_bucket (ReplicationConfig role_arn rules)] /\
  length rules = length targets /\
  map rule_priority rules = seq 1 (length targets) /\
  map rule_id rules =
    map (fun k => "ReplicationRule" +:+ PyFmt.str_of_nat k) (seq 1 (length targets)) /\
  map (fun r => dest_bucket (rule_destination r)) rules =
    map (fun t => "arn:aws:s3:::" +:+ tc_bucket t) targets /\
  Forall (fun r => rule_status r = "Enabled" /\
                   rule_filter_prefix r = EmptyString /\
                   rule_delete_marker_replication r = "Enabled") rules /\
  NoDup (map rule_priority rules) /\
  NoDup (map rule_id rules).
Proof.
  cbn zeta. split; [|split; [|split; [|split; [|split; [|split; [|split]]]]]].
  - unfold setup_replication_configuration.
    destruct (put_bucket_replication e source_bucket _) as [[]|[code text| |name|text]];
      reflexivity.
  - apply build_rules_length.
  - apply (build_rules_priorities targets 0).
  - apply (build_rules_ids targets 0).
  - apply build_rules_destinations.
  - apply build_rules_enabled.
  - rewrite (build_rules_priorities targets 0). apply NoDup_seq.
  - rewrite (build_rules_ids targets 0).
    change (NoDup ((fun k => "ReplicationRule" +:+ PyFmt.str_of_nat k)
                     <$> seq (0 + 1) (length targets))).
    apply NoDup_fmap_2; [|apply NoDup_seq].
    intros a b H. apply str_of_nat_inj. exact (append_inj_l _ _ _ H).
Qed.

Example rules_for_two_targets :
  map rule_id (build_rules 0 [Samples.west; Samples.europe]) =
    ["ReplicationRule1"; "ReplicationRule2"].
Proof. reflexivity. Qed.

End ReplicationRules.

Section ReplicationOrder.
Import ReplicationSetup.

Variable e : env.

(** The versioning call for a target. *)
Let versioning (t : target_config) : call :=
  PutBucketVersioning (tc_bucket t) (tc_region t).

Lemma enable_versioning_cases (bucket region : string) (log : list call) :
  let log' := log ++ [PutBucketVersioning bucket region] in
  (put_bucket_versioning e bucket region = Ret tt /\
   enable_versioning e bucket region log = (Ret true, log')) \/
  (exists r, r <> Ret true /\ enable_versioning e bucket region log = (r, log')).
Proof.
  cbn zeta. unfold enable_versioning.
  destruct (put_bucket_versioning e bucket region) as [[]|[code text| |name|text]];
    [left; split; reflexivity|right; eexists; split; [|reflexivity]; discriminate..].
Qed.

Lemma enable_on_targets_cases (targets : list target_config) (log : list call) :
  (Forall (fun t => put_bucket_versioning e (tc_bucket t) (tc_region t) = Ret tt) targets /\
   enable_on_targets e targets log = (Ret true, log ++ map versioning targets)) \/
  (exists r tried, r <> Ret true /\
     enable_on_targets e targets log = (r, log ++ map versioning tried)).
Proof.
  revert log. induction targets as [|t rest IH]; intros log; simpl.
  - left. split; [constructor|]. by rewrite app_nil_r.
  - destruct (enable_versioning_cases (tc_bucket t) (tc_region t) log)
      as [[Hok E]|(r & Hr & E)]; rewrite E.
    + destruct (IH (log ++ [PutBucketVersioning (tc_bucket t) (tc_region t)]))
        as [[Hall E']|(r & tried & Hr & E')]; rewrite E', <- app_assoc.
      * left. split; [by constructor|reflexivity].
      * right. exists r, (t :: tried). split; [exact Hr|reflexivity].
    + right. exists r, [t]. split; [exact Hr|].
      destruct r as [[|]|x]; try reflexivity. congruence.
Qed.

Lemma no_replication_among_versioning (l : list target_config)
    (bucket : string) (config : replication_config) :
  ~ In (PutBucketReplication bucket config) (map versioning l).
Proof.
  induction l as [|t l IH]; simpl; [tauto|]. intros [H|H]; [discriminate|tauto].
Qed.

(** X5: [setup_complete_replication] configures replication last.  If
    [put_bucket_replication] was called at all, then the role was
    obtained with a non-empty ARN, versioning had been switched on with
    success on the source bucket and on every target, in that order, and
    nothing else was called; and [True] is returned only if the
    replication call itself returned. *)
Theorem X5_replication_is_configured_last (source_bucket source_region : string)
    (targets : list target_config) :
  let r := setup_complete_replication e source_bucket source_region targets in
  (forall bucket config,
     In (PutBucketReplication bucket config) (snd r) ->
     bucket = source_bucket /\
     cfg_rules config = build_rules 0 targets /\
     cfg_role config <> EmptyString /\
     ReplicationRole.create_replication_role (iam e) = Ret (Some (cfg_role config)) /\
     put_bucket_versioning e source_bucket source_region = Ret tt /\
     Forall (fun t => put_bucket_versioning e (tc_bucket t) (tc_region t) = Ret tt)
            targets /\
     snd r = PutBucketVersioning source_bucket source_region
               :: map (fun t => PutBucketVersioning (tc_bucket t) (tc_region t)) targets
               ++ [PutBucketReplication bucket config]) /\
  (fst r = Ret true ->
   exists config, In (PutBucketReplication source_bucket config) (snd r) /\
                  put_bucket_replication e source_bucket config = Ret tt).
Proof.
  cbn zeta. unfold setup_complete_replication.
  destruct (ReplicationRole.create_replication_role (iam e)) as [role|x] eqn:Erole;
    [|split; [intros ? ? []|discriminate]].
  destruct (usable_arn role) as [arn|] eqn:Earn;
    [|split; [intros ? ? []|discriminate]].
  assert (Hrole : role = Some arn /\ arn <> EmptyString).
  { destruct role as [[|a s]|]; simpl in Earn; try discriminate;
      injection Earn as <-; split; done. }
  destruct Hrole as [-> Hne].
  destruct (enable_versioning_cases source_bucket source_region [])
    as [[Hsrc E]|(r & Hr & E)]; rewrite E; simpl app.
  - destruct (enable_on_targets_cases targets
                [PutBucketVersioning source_bucket source_region])
      as [[Hall E']|(r & tried & Hr & E')]; rewrite E'.
    + unfold setup_replication_configuration.
      set (config := ReplicationConfig arn (build_rules 0 targets)).
      assert (Hlast : forall res bucket cfg,
        In (PutBucketReplication bucket cfg)
           (snd (res : outcome bool,
                 ([PutBucketVersioning source_bucket source_region]
                    ++ map versioning targets)
                 ++ [PutBucketReplication source_bucket config])) ->
        bucket = source_bucket /\ cfg = config).
      { intros res bucket cfg Hin. simpl in Hin.
        destruct Hin as [Hin|Hin]; [discriminate|].
        apply in_app_or in Hin as [Hin|[Hin|[]]].
        - by apply no_replication_among_versioning in Hin.
        - by injection Hin as <- <-. }
      destruct (put_bucket_replication e source_bucket config)
        as [[]|[code text| |name|text]] eqn:Eput;
        (split;
         [intros bucket cfg Hin; destruct (Hlast _ _ _ Hin) as [-> ->];
          repeat split; done
         |try discriminate]).
      intros _. exists config. split; [|exact Eput].
      simpl. right. apply in_or_app. right. by left.
    + split.
      * intros bucket cfg Hin. exfalso.
        destruct r as [[|]|x]; try congruence; simpl in Hin;
          (destruct Hin as [Hin|Hin]; [discriminate|];
           by apply no_replication_among_versioning in Hin).
      * destruct r as [[|]|x]; try congruence; discriminate.
  - split.
    + intros bucket cfg Hin. exfalso.
      destruct r as [[|]|x]; try congruence; simpl in Hin;
        destruct Hin as [Hin|[]]; discriminate.
    + destruct r as [[|]|x]; try congruence; discriminate.
Qed.

End ReplicationOrder.

(** ** The simulated sync *)

Section SimulatedSync.
Import StreamSync StreamSyncRun.

(** X21: on a value with no float at a position reached through dicts and
    lists, in particular on an item as the table service returns it,
    [_convert_floats_to_decimal] is the identity. *)
Theorem X21_float_free_values_are_unchanged (v : value) :
  reachable_float v = false -> _convert_floats_to_decimal v = v.
Proof.
  induction v as [entries IH|elems IH|v Hd Hl] using value_deep_ind; intros H.
  - simpl in *. f_equal. induction IH as [|[k x] entries Hkv _ IHe]; [done|].
    simpl in *. apply orb_false_iff in H as [H1 H2].
    by rewrite (Hkv H1), (IHe H2).
  - simpl in *. f_equal. induction IH as [|x elems Hx _ IHe]; [done|].
    simpl in *. apply orb_false_iff in H as [H1 H2].
    by rewrite (Hx H1), (IHe H2).
  - destruct v; try done.
Qed.

Lemma X21_float_free_values_are_unchanged_witness :
  _convert_floats_to_decimal (VDict (PopulateSimple.user "user001" 1695020400 "John Doe"
                                       "john.doe@example.com" "Engineering")) =
  VDict (PopulateSimple.user "user001" 1695020400 "John Doe"
           "john.doe@example.com" "Engineering").
Proof. apply X21_float_free_values_are_unchanged. reflexivity. Defined.

Variable e : env.

(** The loop hands over a prefix of the converted items: all of them when
    every put returns, and those up to the first put that raises
    otherwise. *)
Lemma put_items_prefix (t : target_config) (items handed : list value) :
  exists n,
    snd (put_items e t items handed) =
      handed ++ map _convert_floats_to_decimal (firstn n items) /\
    (fst (put_items e t items handed) = Ret tt -> n = length items).
Proof.
  revert handed. induction items as [|item rest IH]; intros handed; cbn [put_items].
  - exists 0%nat. simpl. rewrite app_nil_r. split; reflexivity.
  - destruct (put_item e t handed (_convert_floats_to_decimal item)) as [[]|x].
    + destruct (IH (handed ++ [_convert_floats_to_decimal item])) as (n & Hn & Hall).
      exists (S n). rewrite Hn, <- app_assoc. split; [reflexivity|].
      intros H. simpl. f_equal. exact (Hall H).
    + exists 1%nat. split; [reflexivity|discriminate].
Qed.

Lemma put_items_accepted (t : target_config) (items handed : list value) :
  (forall handed item, put_item e t handed item = Ret tt) ->
  put_items e t items handed = (Ret tt, handed ++ map _convert_floats_to_decimal items).
Proof.
  intros Hput. revert handed. induction items as [|item rest IH]; intros handed;
    cbn [put_items].
  - simpl. by rewrite app_nil_r.
  - rewrite Hput, IH, <- app_assoc. reflexivity.
Qed.

Lemma put_items_refused (t : target_config) (items handed : list value)
    (n : nat) (item : value) (x : exn) :
  nth_error items n = Some item ->
  (forall k item_k, (k < n)%nat -> nth_error items k = Some item_k ->
     put_item e t (handed ++ map _convert_floats_to_decimal (firstn k items))
              (_convert_floats_to_decimal item_k) = Ret tt) ->
  put_item e t (handed ++ map _convert_floats_to_decimal (firstn n items))
           (_convert_floats_to_decimal item) = Raise x ->
  put_items e t items handed =
    (Raise x, handed ++ map _convert_floats_to_decimal (firstn (S n) items)).
Proof.
  revert handed n. induction items as [|i0 rest IH]; intros handed n Hn Hbefore Hput.
  - destruct n; discriminate.
  - cbn [put_items]. destruct n as [|m].
    + injection Hn as ->. simpl in Hput. rewrite app_nil_r in Hput.
      rewrite Hput. reflexivity.
    + pose proof (Hbefore 0%nat i0 (Nat.lt_0_succ m) eq_refl) as H0.
      simpl in H0. rewrite app_nil_r in H0. rewrite H0.
      rewrite (IH (handed ++ [_convert_floats_to_decimal i0]) m Hn).
      * rewrite <- app_assoc. reflexivity.
      * intros k item_k Hk Hnth. rewrite <- app_assoc.
        apply (Hbefore (S k) item_k); [lia|exact Hnth].
      * rewrite <- app_assoc. exact Hput.
Qed.

Lemma handed_to_refused (items : list value) (t : target_config)
    (n : nat) (item : value) (x : exn) :
  open_writer e t = Ret tt ->
  nth_error items n = Some item ->
  (forall k item_k, (k < n)%nat -> nth_error items k = Some item_k ->
     put_item e t (map _convert_floats_to_decimal (firstn k items))
              (_convert_floats_to_decimal item_k) = Ret tt) ->
  put_item e t (map _convert_floats_to_decimal (firstn n items))
           (_convert_floats_to_decimal item) = Raise x ->
  handed_to e items t = map _convert_floats_to_decimal (firstn (S n) items).
Proof.
  intros Hopen Hn Hbefore Hput. unfold handed_to, write_batch.
  rewrite Hopen, (put_items_refused t items [] n item x Hn Hbefore Hput).
  cbn [app]. destruct (close_writer e t _); reflexivity.
Qed.

Lemma put_items_settle (t : target_config) (items handed : list value) :
  (forall handed item, BulkMigration.settles (put_item e t handed item) = true) ->
  BulkMigration.settles (fst (put_items e t items handed)) = true.
Proof.
  intros Hput. revert handed. induction items as [|item rest IH]; intros handed;
    cbn [put_items]; [reflexivity|].
  specialize (Hput handed (_convert_floats_to_decimal item)).
  destruct (put_item e t handed (_convert_floats_to_decimal item)) as [[]|x].
  - apply IH.
  - exact Hput.
Qed.

Lemma handed_to_prefix (items : list value) (t : target_config) :
  exists n, handed_to e items t = map _convert_floats_to_decimal (firstn n items).
Proof.
  unfold handed_to, write_batch.
  destruct (open_writer e t) as [[]|x]; [|by exists 0%nat].
  destruct (put_items_prefix t items []) as (n & Hn & _).
  destruct (put_items e t items []) as [r handed]. simpl in Hn. subst handed.
  exists n. destruct (close_writer e t _); reflexivity.
Qed.

Lemma handed_to_accepted (items : list value) (t : target_config) :
  writer_accepts e t -> handed_to e items t = map _convert_floats_to_decimal items.
Proof.
  intros [Hopen Hput]. unfold handed_to, write_batch.
  rewrite Hopen, (put_items_accepted t items [] Hput). simpl.
  destruct (close_writer e t _); reflexivity.
Qed.

Lemma sync_to_target_settled (items : list value) (t : target_config)
    (sent : list (target_config * list value)) :
  writer_settles e t ->
  _sync_to_target e items t sent = (Ret tt, sent ++ [(t, handed_to e items t)]).
Proof.
  intros (Hopen & Hput & Hclose). unfold _sync_to_target, handed_to, write_batch.
  destruct (open_writer e t) as [[]|[code text| |name|text]]; try discriminate;
    [|reflexivity].
  pose proof (put_items_settle t items [] Hput) as Hr.
  destruct (put_items e t items []) as [r handed]. simpl in Hr.
  specialize (Hclose handed).
  destruct (close_writer e t handed) as [[]|[code text| |name|text]]; try discriminate;
    [|reflexivity].
  destruct r as [[]|[code text| |name|text]]; try discriminate; reflexivity.
Qed.

Lemma sync_all_settled (items : list value) (targets : list target_config) :
  Forall (writer_settles e) targets ->
  forall sent,
    sync_all e items targets sent =
      (Ret tt, sent ++ map (fun t => (t, handed_to e items t)) targets).
Proof.
  induction 1 as [|t rest Ht _ IH]; intros sent; cbn [sync_all map].
  - by rewrite app_nil_r.
  - rewrite (sync_to_target_settled items t sent Ht), IH, <- app_assoc. reflexivity.
Qed.

(** X9: [simulate_real_time_sync] returns [True] as soon as the scan of
    the source returns, also when a target refused what was written to
    it.  Provided no call raises anything but a [ClientError], every
    target gets its turn, in order, and its writer is handed converted
    source items in scan order, none with a float reached through dicts
    and lists: all the items when the writer opens and every put returns,
    only those up to the first put that raised otherwise, since the
    [ClientError] of a put ends the loop over the items, and none when the
    writer could not be opened.  When the scan raises a [ClientError] the
    function returns [False] and writes nothing. *)
Theorem X9_sync_reports_success_after_scan (targets : list target_config) :
  source_resource e = Ret tt ->
  (forall code text, scan e = Raise (ClientError code text) ->
     simulate_real_time_sync e targets = (Ret false, [])) /\
  (forall items,
     scan e = Ret items ->
     Forall (writer_settles e) targets ->
     simulate_real_time_sync e targets =
       (Ret true, map (fun t => (t, handed_to e items t)) targets) /\
     (forall t, exists n,
        handed_to e items t = map _convert_floats_to_decimal (firstn n items)) /\
     (forall t, writer_accepts e t ->
        handed_to e items t = map _convert_floats_to_decimal items) /\
     (forall t n item x,
        open_writer e t = Ret tt ->
        nth_error items n = Some item ->
        (forall k item_k, (k < n)%nat -> nth_error items k = Some item_k ->
           put_item e t (map _convert_floats_to_decimal (firstn k items))
                    (_convert_floats_to_decimal item_k) = Ret tt) ->
        put_item e t (map _convert_floats_to_decimal (firstn n items))
                 (_convert_floats_to_decimal item) = Raise x ->
        handed_to e items t = map _convert_floats_to_decimal (firstn (S n) items)) /\
     (forall t x, open_writer e t = Raise x -> handed_to e items t = []) /\
     (forall t, Forall (fun v => reachable_float v = false) (handed_to e items t))).
Proof.
  intros Hsrc. unfold simulate_real_time_sync. rewrite Hsrc. split.
  - intros code text ->. reflexivity.
  - intros items -> Hall. rewrite (sync_all_settled items targets Hall []).
    split; [reflexivity|]. split; [apply handed_to_prefix|].
    split; [apply handed_to_accepted|].
    split; [apply handed_to_refused|].
    split; [intros t x Hopen; unfold handed_to; by rewrite Hopen|].
    intros t. destruct (handed_to_prefix items t) as [n ->].
    apply Forall_forall. intros v Hv. apply list_elem_of_In, in_map_iff in Hv.
    destruct Hv as (x & <- & _). apply convert_no_reachable_float.
Qed.

(** X13: [enable_streams] returns an ARN only if the three calls
    returned and the description carries a non-empty [LatestStreamArn],
    which is then the value returned; a [ClientError] from any of the
    calls gives [None]. *)
Theorem X13_enable_streams :
  (forall arn, enable_streams e = Ret (Some arn) ->
     update_table e = Ret tt /\ wait_table_exists e = Ret tt /\
     describe_table e = Ret (Some arn) /\ arn <> EmptyString) /\
  (forall code text,
     update_table e = Raise (ClientError code text) \/
     (update_table e = Ret tt /\ wait_table_exists e = Raise (ClientError code text)) \/
     (update_table e = Ret tt /\ wait_table_exists e = Ret tt /\
      describe_table e = Raise (ClientError code text)) ->
     enable_streams e = Ret None).
Proof.
  unfold enable_streams. split.
  - intros arn.
    destruct (update_table e) as [[]|[c t| |n|t]]; simpl; try discriminate.
    destruct (wait_table_exists e) as [[]|[c t| |n|t]]; simpl; try discriminate.
    destruct (describe_table e) as [[[|a s]|]|[c t| |n|t]]; simpl; try discriminate.
    intros H. injection H as <-. repeat split. discriminate.
  - intros code text [H|[[H1 H2]|(H1 & H2 & H3)]].
    + rewrite H. reflexivity.
    + rewrite H1, H2. reflexivity.
    + rewrite H1, H2, H3. reflexivity.
Qed.

End SimulatedSync.

Section SimulatedSyncSample.
Import StreamSync StreamSyncRun Samples.

(** Both target tables refuse the first batch of 25 items: the last five
    items are never handed to a writer, and the sync still returns
    [True]. *)
Lemma X9_sync_reports_success_after_scan_witness :
  source_resource first_flush_refused = Ret tt /\
  Forall (writer_settles first_flush_refused) StreamSyncMain.target_configs /\
  fst (simulate_real_time_sync first_flush_refused StreamSyncMain.target_configs) =
    Ret true /\
  map (fun sent => length (snd sent))
      (snd (simulate_real_time_sync first_flush_refused StreamSyncMain.target_configs)) =
    [25; 25]%nat.
Proof.
  assert (Hsettle : forall t, writer_settles first_flush_refused t).
  { intros t. split; [reflexivity|]. split; [|reflexivity].
    intros handed v. simpl. destruct (Nat.eqb (length handed) 24); reflexivity. }
  assert (Hall : Forall (writer_settles first_flush_refused) StreamSyncMain.target_configs)
    by (repeat constructor; apply Hsettle).
  split; [reflexivity|]. split; [exact Hall|].
  destruct (proj2 (X9_sync_reports_success_after_scan first_flush_refused
                     StreamSyncMain.target_configs eq_refl)
                  thirty_items eq_refl Hall) as [-> _].
  split; reflexivity.
Defined.

Lemma X13_enable_streams_witness :
  enable_streams (Env (Ret tt) (Ret tt) (Ret (Some EmptyString)) (Ret tt) (Ret [])
                      (fun _ => Ret tt) (fun _ _ _ => Ret tt) (fun _ _ => Ret tt)) =
    Ret None /\
  enable_streams (Env (Raise (ClientError "ResourceNotFoundException" "no table"))
                      (Ret tt) (Ret None) (Ret tt) (Ret [])
                      (fun _ => Ret tt) (fun _ _ _ => Ret tt) (fun _ _ => Ret tt)) =
    Ret None.
Proof.
  split; [reflexivity|].
  apply (proj2 (X13_enable_streams _) "ResourceNotFoundException" "no table").
  left. reflexivity.
Defined.

End SimulatedSyncSample.

(** ** Cleaning up *)

Section CleanupOrder.
Import Cleanup.

Variable p : provider.

(** The line printed for a deleted version or marker. *)
Let line (mk : string -> string -> message) (kv : string * string) : message :=
  mk (fst kv) (snd kv).

Lemma delete_each_cases (mk : string -> string -> message)
    (entries : list (string * string)) (log : list message) :
  (Forall (fun kv => delete_object p (fst kv) (snd kv) = Ret tt) entries /\
   delete_each p mk entries log = (Ret tt, log ++ map (line mk) entries)) \/
  (exists e tried failed,
     delete_object p (fst failed) (snd failed) = Raise e /\
     delete_each p mk entries log = (Raise e, log ++ map (line mk) tried)).
Proof.
  revert log. induction entries as [|[k v] rest IH]; intros log; simpl.
  - left. split; [constructor|]. by rewrite app_nil_r.
  - destruct (delete_object p k v) as [[]|e] eqn:E.
    + destruct (IH (log ++ [mk k v])) as [[Hall E']|(e & tried & failed & Hf & E')];
        rewrite E', <- app_assoc.
      * left. split; [by constructor|reflexivity].
      * right. exists e, ((k, v) :: tried), failed. split; [exact Hf|reflexivity].
    + right. exists e, [], (k, v). split; [exact E|]. by rewrite app_nil_r.
Qed.

(** A line that reports a deleted bucket. *)
Let bucket_line (m : message) : bool :=
  match m with DeletedBucket _ => true | _ => false end.

Lemma no_bucket_line_in_entries (mk : string -> string -> message)
    (entries : list (string * string)) :
  (forall k v, bucket_line (mk k v) = false) ->
  forallb (fun m => negb (bucket_line m)) (map (line mk) entries) = true.
Proof.
  intros Hmk. induction entries as [|[k v] rest IH]; simpl; [done|].
  unfold line at 1. simpl. by rewrite Hmk, IH.
Qed.

Lemma bucket_line_absent (l : list message) (b : string) :
  forallb (fun m => negb (bucket_line m)) l = true -> ~ In (DeletedBucket b) l.
Proof.
  intros H Hin. rewrite forallb_forall in H. specialize (H _ Hin). discriminate.
Qed.

(** The [try] block ends in one of two ways. *)
Lemma try_block_cases (bucket : string) :
  (exists response,
     list_object_versions p = Ret response /\
     Forall (fun kv => delete_object p (fst kv) (snd kv) = Ret tt)
            (entries_of (Versions response) ++ entries_of (DeleteMarkers response)) /\
     delete_bucket p = Ret tt /\
     try_block p bucket =
       (Ret tt,
        map (line DeletedVersion) (entries_of (Versions response)) ++
        map (line DeletedMarker) (entries_of (DeleteMarkers response)) ++
        [DeletedBucket bucket])) \/
  (exists e log,
     try_block p bucket = (Raise e, log) /\
     forallb (fun m => negb (bucket_line m)) log = true /\
     (list_object_versions p = Raise e \/
      (exists k v, delete_object p k v = Raise e) \/
      delete_bucket p = Raise e)).
Proof.
  unfold try_block.
  destruct (list_object_versions p) as [response|e] eqn:El;
    [|right; exists e, []; repeat split; auto].
  destruct (delete_each_cases DeletedVersion (entries_of (Versions response)) [])
    as [[H1 E1]|(e & tried & [k v] & Hf & E1)]; rewrite E1; simpl app.
  - destruct (delete_each_cases DeletedMarker (entries_of (DeleteMarkers response))
                (map (line DeletedVersion) (entries_of (Versions response))))
      as [[H2 E2]|(e & tried & [k v] & Hf & E2)]; rewrite E2.
    + destruct (delete_bucket p) as [[]|e] eqn:Eb.
      * left. exists response. repeat split; try done.
        -- apply Forall_app. by split.
        -- by rewrite <- app_assoc.
      * right. exists e. eexists. split; [reflexivity|]. split; [|auto].
        rewrite forallb_app, !no_bucket_line_in_entries; done.
    + right. exists e. eexists. split; [reflexivity|]. split; [|eauto].
      rewrite forallb_app, !no_bucket_line_in_entries; done.
  - right. exists e. eexists. split; [reflexivity|]. split; [|eauto].
    by rewrite no_bucket_line_in_entries.
Qed.

(** X10: [delete_all_object_versions] prints [Deleted bucket] only at
    the very end of a full clean-up: the listing returned, every listed
    version and then every listed delete marker was deleted and reported,
    in listing order, the bucket was deleted, and the function returned. *)
Theorem X10_bucket_deleted_last (bucket b : string) :
  In (DeletedBucket b) (snd (delete_all_object_versions p bucket)) ->
  exists response,
    b = bucket /\
    list_object_versions p = Ret response /\
    Forall (fun kv => delete_object p (fst kv) (snd kv) = Ret tt)
           (entries_of (Versions response) ++ entries_of (DeleteMarkers response)) /\
    delete_bucket p = Ret tt /\
    delete_all_object_versions p bucket =
      (Ret tt,
       map (fun kv => DeletedVersion (fst kv) (snd kv)) (entries_of (Versions response)) ++
       map (fun kv => DeletedMarker (fst kv) (snd kv)) (entries_of (DeleteMarkers response)) ++
       [DeletedBucket bucket]).
Proof.
  unfold delete_all_object_versions.
  destruct (try_block_cases bucket)
    as [(response & Hl & Hd & Hb & E)|(e & log & E & Hno & _)]; rewrite E.
  - intros Hin. exists response. repeat split; try done.
    simpl in Hin. apply in_app_or in Hin as [Hin|Hin].
    + exfalso. revert Hin. apply bucket_line_absent.
      by apply no_bucket_line_in_entries.
    + apply in_app_or in Hin as [Hin|[Hin|[]]].
      * exfalso. revert Hin. apply bucket_line_absent.
        by apply no_bucket_line_in_entries.
      * by injection Hin.
  - intros Hin. exfalso. revert Hin. apply bucket_line_absent.
    destruct e as [code text| | |]; try exact Hno.
    destruct (String.eqb code "NoSuchBucket"); simpl;
      rewrite forallb_app, Hno; reflexivity.
Qed.

(** The closing line about a bucket. *)
Let verdict (bucket : string) (m : message) : Prop :=
  m = DeletedBucket bucket \/ m = BucketAlreadyDeleted bucket \/
  exists text, m = ErrorDeleting bucket text.

(** When no call raises anything but a [ClientError], the function
    returns, and its last line is its verdict on the bucket. *)
Lemma delete_all_returns (bucket : string) :
  only_client_errors (list_object_versions p) ->
  (forall k v, only_client_errors (delete_object p k v)) ->
  only_client_errors (delete_bucket p) ->
  exists log m,
    delete_all_object_versions p bucket = (Ret tt, log ++ [m]) /\ verdict bucket m.
Proof.
  intros Hl Hd Hb. unfold delete_all_object_versions.
  destruct (try_block_cases bucket)
    as [(response & _ & _ & _ & E)|(e & log & E & _ & Hsrc)]; rewrite E.
  - eexists. exists (DeletedBucket bucket). split.
    + rewrite app_assoc. reflexivity.
    + left. reflexivity.
  - assert (Hc : exists code text, e = ClientError code text).
    { destruct Hsrc as [H|[(k & v & H)|H]];
        [exact (Hl e H)|exact (Hd k v e H)|exact (Hb e H)]. }
    destruct Hc as (code & text & ->).
    destruct (String.eqb code "NoSuchBucket"); eexists; eexists;
      (split; [reflexivity|]); unfold verdict; eauto.
Qed.

End CleanupOrder.

Section CleanupMainRun.
Import Cleanup CleanupMain.

Variable s3 : string -> string -> provider.
Variable iam : iam_calls.

(** X11: a [ClientError] on one bucket does not stop the clean-up.
    When no call raises anything else, [main] works through the three
    buckets in the order source, us-west-2, eu-west-1, prints for each
    what [delete_all_object_versions] prints for it, then handles the
    role and prints one line about it, and returns. *)
Theorem X11_cleanup_goes_on :
  (forall bucket region,
     only_client_errors (list_object_versions (s3 bucket region)) /\
     (forall k v, only_client_errors (delete_object (s3 bucket region) k v)) /\
     only_client_errors (delete_bucket (s3 bucket region))) ->
  only_client_errors (detach_role_policy iam) ->
  only_client_errors (delete_role iam) ->
  fst (fst (main s3 iam)) = Ret tt /\
  snd (fst (main s3 iam)) =
    flat_map (fun br => snd (delete_all_object_versions (s3 (fst br) (snd br)) (fst br)))
             buckets /\
  Forall (fun br =>
            fst (delete_all_object_versions (s3 (fst br) (snd br)) (fst br)) = Ret tt)
         buckets /\
  length (snd (main s3 iam)) = 1%nat.
Proof.
  intros Hs3 Hdetach Hdelete.
  assert (Hret : forall bucket region,
            fst (delete_all_object_versions (s3 bucket region) bucket) = Ret tt).
  { intros bucket region. destruct (Hs3 bucket region) as (H1 & H2 & H3).
    destruct (delete_all_returns (s3 bucket region) bucket H1 H2 H3) as (l & m & -> & _).
    reflexivity. }
  assert (Hrole : exists m, delete_iam_role iam = (Ret tt, [m])).
  { unfold delete_iam_role.
    destruct (detach_role_policy iam) as [[]|e] eqn:E1; simpl.
    - destruct (delete_role iam) as [[]|e] eqn:E2; [eauto|].
      destruct (Hdelete e eq_refl) as (code & text & ->).
      destruct (String.eqb code "NoSuchEntity"); eauto.
    - destruct (Hdetach e eq_refl) as (code & text & ->).
      destruct (String.eqb code "NoSuchEntity"); eauto. }
  destruct Hrole as [m Hrole].
  unfold main, buckets. simpl.
  pose proof (Hret "migration-demo-source-36714" "us-east-1") as R1.
  pose proof (Hret "migration-demo-target-us-west-2-36714" "us-west-2") as R2.
  pose proof (Hret "migration-demo-target-eu-west-1-36714" "eu-west-1") as R3.
  destruct (delete_all_object_versions
              (s3 "migration-demo-source-36714" "us-east-1") _) as [r1 l1].
  destruct (delete_all_object_versions
              (s3 "migration-demo-target-us-west-2-36714" "us-west-2") _) as [r2 l2].
  destruct (delete_all_object_versions
              (s3 "migration-demo-target-eu-west-1-36714" "eu-west-1") _) as [r3 l3].
  simpl in *. subst r1 r2 r3. rewrite Hrole. simpl.
  rewrite app_nil_r, <- app_assoc. repeat split; repeat constructor; apply Hret.
Qed.

End CleanupMainRun.

Section CleanupSample.
Import Cleanup CleanupMain.

Lemma X10_bucket_deleted_last_witness :
  delete_all_object_versions
    (Provider (Ret (VersionsResponse (Some [("data/a.txt", "v1")])
                                     (Some [("data/b.txt", "m1")])))
              (fun _ _ => Ret tt) (Ret tt))
    Samples.bucket =
  (Ret tt, [DeletedVersion "data/a.txt" "v1"; DeletedMarker "data/b.txt" "m1";
            DeletedBucket Samples.bucket]).
Proof.
  destruct (X10_bucket_deleted_last
              (Provider (Ret (VersionsResponse (Some [("data/a.txt", "v1")])
                                               (Some [("data/b.txt", "m1")])))
                        (fun _ _ => Ret tt) (Ret tt))
              Samples.bucket Samples.bucket)
    as (response & _ & Hl & _ & _ & E).
  - simpl. auto.
  - injection Hl as <-. exact E.
Defined.

(** The source bucket is gone already; the two targets are deleted. *)
Lemma X11_cleanup_goes_on_witness :
  snd (fst (main (fun bucket _ =>
                    if String.eqb bucket "migration-demo-source-36714"
                    then Samples.bucket_gone
                    else Provider (Ret (VersionsResponse None None))
                                  (fun _ _ => Ret tt) (Ret tt))
                 (IamCalls (Ret tt) (Ret tt)))) =
  [BucketAlreadyDeleted "migration-demo-source-36714";
   DeletedBucket "migration-demo-target-us-west-2-36714";
   DeletedBucket "migration-demo-target-eu-west-1-36714"].
Proof.
  refine (proj1 (proj2 (X11_cleanup_goes_on _ _ _ _ _))).
  - intros bucket region.
    destruct (String.eqb bucket "migration-demo-source-36714"); simpl;
      repeat split; intros; intros e H; try discriminate;
      injection H as <-; eauto.
  - intros e H. discriminate.
  - intros e H. discriminate.
Defined.

End CleanupSample.

(** ** Creating the tables *)

Section CreateTablesRun.
Import CreateTablesMain.

Variable provider : string -> string -> CreateTable.provider.

(** The table and region of a [create_dynamodb_table] call. *)
Let called (c : string * string * bool) : target_config :=
  TargetConfig (fst (fst c)) (snd (fst c)).

(** X12: [main] of the create-tables script writes dynamodb-info.txt
    exactly when creating the source table returned [True], whatever
    creating the target tables returned.  In that case it has tried the
    source table and then the two target tables, the tables it tried are
    the ones the stream-sync script and the validator address, and the
    stream-sync script reads the source table and region back from the
    file.  When creating the source table returned [False] nothing else is
    tried and nothing is written. *)
Theorem X12_file_follows_source_table :
  let ok := CreateTable.create_dynamodb_table
              (provider CreateTables.source_table CreateTables.source_region) in
  (ok = true ->
   exists content,
     written (main provider) = Some content /\
     StreamSyncMain.load content =
       Ret (Config.Vars (Some CreateTables.source_table)
                        (Some CreateTables.source_region)) /\
     map called (created (main provider)) =
       TargetConfig CreateTables.source_table CreateTables.source_region
         :: StreamSyncMain.target_configs /\
     StreamSyncMain.target_configs = Validator.dynamodb_target_configs /\
     map snd (created (main provider)) =
       true :: map (fun region =>
                      CreateTable.create_dynamodb_table
                        (provider (target_table region) region))
                   CreateTables.target_regions) /\
  (ok = false ->
   main provider =
     Run [(CreateTables.source_table, CreateTables.source_region, false)] None).
Proof.
  cbn zeta. unfold main. simpl.
  destruct (CreateTable.create_dynamodb_table
              (provider CreateTables.source_table CreateTables.source_region));
    split; try discriminate.
  - intros _. eexists. split; [reflexivity|]. repeat split.
  - intros _. reflexivity.
Qed.

End CreateTablesRun.

Section CreateTablesSample.
Import CreateTablesMain.

(** The source table exists already; the target tables cannot be
    created.  The file is written all the same. *)
Lemma X12_file_follows_source_table_witness :
  written (main (fun table _ =>
                   if String.eqb table CreateTables.source_table
                   then Samples.table_exists else Samples.table_denied)) =
    Some CreateTables.main_saved_file /\
  map snd (created (main (fun table _ =>
                            if String.eqb table CreateTables.source_table
                            then Samples.table_exists else Samples.table_denied))) =
    [true; false; false].
Proof.
  destruct (proj1 (X12_file_follows_source_table
                     (fun table _ =>
                        if String.eqb table CreateTables.source_table
                        then Samples.table_exists else Samples.table_denied)) eq_refl)
    as (content & Hw & _ & _ & _ & Hres).
  split; [reflexivity|exact Hres].
Defined.

End CreateTablesSample.

(** ** Populating the source table *)

Section Populate.
Import PopulateSimple.

Variable e : env.

(** An item has the two keys the report prints. *)
Let printable (i : item) : Prop := get "Name" i <> None /\ get "UserID" i <> None.

Lemma print_items_returns (items : list item) :
  print_items items = Ret tt <-> Forall printable items.
Proof.
  induction items as [|i rest IH]; simpl.
  - split; [constructor|reflexivity].
  - assert (Hcons : Forall printable (i :: rest) <-> printable i /\ Forall printable rest).
    { split; [intros H; inversion H; subst; by split|intros [? ?]; by constructor]. }
    rewrite Hcons. unfold printable at 1.
    destruct (get "Name" i) as [n|], (get "UserID" i) as [u|]; rewrite ?IH.
    + split; [intros H; split; [split; discriminate|exact H]|intros [_ H]; exact H].
    + split; [discriminate|intros [[_ H] _]; by destruct H].
    + split; [discriminate|intros [[H _] _]; by destruct H].
    + split; [discriminate|intros [[H _] _]; by destruct H].
Qed.

Lemma put_all_users (users : list item) :
  map fst (put_all e users) = users /\
  map snd (put_all e users) =
    map (fun u => BulkMigration.copies (put_item e u)) users.
Proof.
  induction users as [|u rest [IH1 IH2]]; simpl; [done|].
  rewrite IH1, IH2. split; reflexivity.
Qed.

(** X14: the simple populate script tries every sample user once, in
    order, whether or not the earlier ones could be put, and what it
    returns does not depend on the inserts at all: it returns [True]
    exactly when the closing scan returns and every scanned item has a
    [Name] and a [UserID]. *)
Theorem X14_populate_result_ignores_inserts :
  map fst (snd (populate_source_table e)) = sample_users /\
  map snd (snd (populate_source_table e)) =
    map (fun u => BulkMigration.copies (put_item e u)) sample_users /\
  (fst (populate_source_table e) = true <->
   exists items, scan e = Ret items /\
                 Forall (fun i => get "Name" i <> None /\ get "UserID" i <> None) items).
Proof.
  unfold populate_source_table.
  destruct (put_all_users sample_users) as [H1 H2].
  assert (Hsnd : forall b, snd (b : bool, put_all e sample_users) = put_all e sample_users)
    by reflexivity.
  destruct (scan e) as [items|x] eqn:Escan; simpl.
  - pose proof (print_items_returns items) as Hp.
    destruct (print_items items) as [[]|x]; simpl; (split; [exact H1|split; [exact H2|]]).
    + split; [intros _|reflexivity]. exists items. split; [reflexivity|]. by apply Hp.
    + split; [discriminate|]. intros (items' & Heq & Hall). injection Heq as <-.
      apply Hp in Hall. discriminate.
  - split; [exact H1|split; [exact H2|]].
    split; [discriminate|]. intros (items & Heq & _). discriminate.
Qed.

End Populate.

Section PopulateSample.
Import PopulateSimple.

(** Every insert fails, the scan finds an older item: [True]. *)
Lemma X14_populate_result_ignores_inserts_witness :
  populate_source_table
    (Env (fun _ => Raise (ClientError "AccessDeniedException" "not authorized"))
         (Ret [user "user000" 1 "Old User" "old@example.com" "Ops"])) =
  (true, map (fun u => (u, false)) sample_users).
Proof.
  pose proof (X14_populate_result_ignores_inserts
                (Env (fun _ => Raise (ClientError "AccessDeniedException" "not authorized"))
                     (Ret [user "user000" 1 "Old User" "old@example.com" "Ops"]))) as H.
  destruct H as (_ & _ & H). reflexivity.
Defined.

End PopulateSample.

(** ** What the validator does not look at *)

Section ValidatorBlindSpots.
Import Validator.

Lemma check_tables_same_count {A B : Type}
    (db : dynamodb_provider A) (db' : dynamodb_provider B) (n : nat)
    (targets : list target_config) :
  (forall region table, same_count (db region table) (db' region table)) ->
  forall report ok,
    check_tables db n targets report ok = check_tables db' n targets report ok.
Proof.
  intros Hsame. induction targets as [|t rest IH]; intros report ok; simpl; [done|].
  specialize (Hsame (tc_region t) (tc_bucket t)). unfold same_count in Hsame.
  destruct (db (tc_region t) (tc_bucket t)) as [items|x],
    (db' (tc_region t) (tc_bucket t)) as [items'|x']; try done.
  rewrite Hsame. apply IH.
Qed.

(** X22: [validate_dynamodb_sync] looks at counts only.  Two states of
    the tables in which every scan ends alike (both raise, or both return
    the same number of items) get the same report and the same result,
    whatever the items are. *)
Theorem X22_sync_check_compares_counts_only {A B : Type}
    (db : dynamodb_provider A) (db' : dynamodb_provider B) (c : config) :
  (forall region table, same_count (db region table) (db' region table)) ->
  validate_dynamodb_sync db c = validate_dynamodb_sync db' c.
Proof.
  intros Hsame. unfold validate_dynamodb_sync.
  destruct (source_region c) as [region|]; [|done].
  destruct (source_table c) as [table|]; [|done].
  pose proof (Hsame region table) as Hsrc. unfold same_count in Hsrc.
  destruct (db region table) as [items|x], (db' region table) as [items'|x']; try done.
  rewrite Hsrc, (check_tables_same_count db db' _ _ Hsame). reflexivity.
Qed.

Lemma X22_sync_check_compares_counts_only_witness :
  validate_dynamodb_sync Samples.tables_all_synced Samples.loaded =
  validate_dynamodb_sync (fun _ _ => Ret ["x"; "y"]) Samples.loaded.
Proof.
  apply (X22_sync_check_compares_counts_only
           Samples.tables_all_synced (fun _ _ => Ret ["x"; "y"]) Samples.loaded).
  intros region table. reflexivity.
Defined.

(** Two object stores list the same keys everywhere. *)
Let same_keys (s3 s3' : s3_provider) : Prop :=
  forall region bucket k,
    k ∈ listed_keys (s3 region bucket) <-> k ∈ listed_keys (s3' region bucket).

Lemma same_keys_dom (s3 s3' : s3_provider) (region bucket : string) :
  same_keys s3 s3' ->
  dom (_get_bucket_objects (s3 region bucket) ∅) =
  dom (_get_bucket_objects (s3' region bucket) ∅).
Proof.
  intros H. apply set_eq. intros k.
  rewrite !get_bucket_objects_keys. apply H.
Qed.

Lemma check_target_by_keys (s3 s3' : s3_provider)
    (src src' : gmap string object_meta) (t : target_config) :
  same_keys s3 s3' -> dom src = dom src' ->
  check_target s3 src t = check_target s3' src' t.
Proof.
  intros H Hsrc. unfold check_target.
  rewrite <- !(size_dom (D:=gset string)).
  by rewrite Hsrc, (same_keys_dom s3 s3' _ _ H).
Qed.

Lemma check_targets_by_keys (client : client_builder) (s3 s3' : s3_provider)
    (src src' : gmap string object_meta) (targets : list target_config) :
  same_keys s3 s3' -> dom src = dom src' ->
  forall report valid,
    check_targets client s3 src targets report valid =
    check_targets client s3' src' targets report valid.
Proof.
  intros H Hsrc. induction targets as [|t rest IH]; intros report valid;
    cbn [check_targets]; [done|].
  destruct (client "s3" (tc_region t)) as [[]|e]; [|reflexivity].
  rewrite (check_target_by_keys s3 s3' src src' t H Hsrc). apply IH.
Qed.

(** X23: [validate_s3_bulk_migration] looks at keys only.  Two states of
    the object store whose listings give the same keys for every bucket
    get the same report and the same result, whatever the sizes, dates and
    ETags of the objects. *)
Theorem X23_bulk_check_compares_keys_only (client : client_builder)
    (s3 s3' : s3_provider) (c : config) :
  (forall region bucket k,
     k ∈ listed_keys (s3 region bucket) <-> k ∈ listed_keys (s3' region bucket)) ->
  validate_s3_bulk_migration client s3 c = validate_s3_bulk_migration client s3' c.
Proof.
  intros H. unfold validate_s3_bulk_migration.
  destruct (source_region c) as [region|]; [|done].
  destruct (client "s3" region) as [[]|e]; [|done].
  pose proof (same_keys_dom s3 s3' region (source_bucket c) H) as Hsrc.
  rewrite (check_targets_by_keys client s3 s3' _ _ _ H Hsrc).
  rewrite <- !(size_dom (D:=gset string)), Hsrc. reflexivity.
Qed.

(** The targets hold empty objects under the right keys. *)
Lemma X23_bulk_check_compares_keys_only_witness :
  snd (validate_s3_bulk_migration Samples.named_region
         (fun _ _ => [Page (Some [S3Object "data/a.txt" 0 "2024-06-01T00:00:00" "etag-0";
                                  S3Object "data/b.txt" 0 "2024-06-01T00:00:00" "etag-0"])])
         Samples.loaded) =
  snd (validate_s3_bulk_migration Samples.named_region Samples.s3_all_complete
         Samples.loaded).
Proof.
  refine (f_equal snd (X23_bulk_check_compares_keys_only _ _ _ _ _)).
  intros region bucket k. reflexivity.
Defined.

End ValidatorBlindSpots.

(** ** The pool's schedule *)

Section PoolSchedule.
Import BulkMigration.

(** X24: the counters at the end of the pool's work, and with them the
    value [run_migration] returns, depend neither on how the pool
    interleaves the copy calls of its tasks nor on the order in which the
    objects were listed: any two schedules of the same tasks leave the
    same successes, failures and bytes. *)
Theorem X24_task_order_is_irrelevant (prov : provider) (targets : list target_config)
    (objects objects' : list obj_info) (schedule schedule' : list nat) (st : state) :
  Permutation objects objects' ->
  let s := st_stats (run_pool prov schedule (submitted targets objects) st) in
  let s' := st_stats (run_pool prov schedule' (submitted targets objects') st) in
  successful_copies s = successful_copies s' /\
  failed_copies s = failed_copies s' /\
  bytes_transferred s = bytes_transferred s' /\
  (failed_copies s =? 0) = (failed_copies s' =? 0).
Proof.
  intros HP. cbn zeta.
  pose proof (run_pool_schedule_irrelevant prov targets objects objects'
                schedule schedule' st HP) as Heq.
  unfold counters in Heq. injection Heq as -> -> ->. repeat split.
Qed.

Lemma X24_task_order_is_irrelevant_witness :
  failed_copies
    (st_stats (run_pool Samples.provider_west_denied [0; 1; 1; 0]%nat
                 (submitted [Samples.west; Samples.europe] [Samples.obj_a; Samples.obj_b])
                 init_state)) =
  failed_copies
    (st_stats (run_pool Samples.provider_west_denied [1; 1; 0]%nat
                 (submitted [Samples.west; Samples.europe] [Samples.obj_b; Samples.obj_a])
                 init_state)).
Proof.
  apply (X24_task_order_is_irrelevant Samples.provider_west_denied
           [Samples.west; Samples.europe]
           [Samples.obj_a; Samples.obj_b] [Samples.obj_b; Samples.obj_a]
           [0; 1; 1; 0]%nat [1; 1; 0]%nat init_state).
  apply perm_swap.
Defined.

End PoolSchedule.
